(** * genysys-pad-fe: bonding-curve quoting, error normalisation and the
      transaction submission pipeline

    A shallow embedding of
      - [src/lib/utils/calculations.js]  (pricing engine, amount conversion),
      - the error helper module          ([parseProgramError]),
      - the transaction helper module    ([sendTransaction]),
      - [TransactionBuilder.buildAndSend],
    followed by the properties the specification states about them, and of
      - the integer quote [calculateBuyOutput] and the BigInt price
        [calculateBondingCurvePrice],
      - [handleTransactionError] and [retryWithBackoff],
      - the builder's compute budget, its factories and its helpers for
        associated token accounts,
      - [getTokenOrder],
    with the properties their code shows.

    JavaScript numbers are IEEE-754 binary64 values.  They are modelled by
    the Standard Library's [spec_float] at precision 53 and maximal exponent
    1024, whose operations are ordinary Rocq functions: every quote can be
    evaluated, bit for bit, inside the logic.  The pricing code is written
    over an interface [JsNumber], whose instance [Binary64] is the program
    as it runs; every property below is about that instance. *)

From Stdlib Require Import ZArith QArith Qround Qabs Qpower Qfield Bool List String Ascii Lia.
From Stdlib Require Import Floats.SpecFloat.
Import ListNotations.

Set Implicit Arguments.
Local Open Scope Z_scope.

(* ===================================================================== *)
(** * Completions: values and thrown exceptions *)
(* ===================================================================== *)

Module JS.

(** The outcome of evaluating a JavaScript expression: a value, or a
    thrown exception carrying its message. *)
Inductive Completion (A : Type) : Type :=
| Normal (a : A)
| Throw (msg : string).
Arguments Normal {A} a.
Arguments Throw {A} msg.

Definition bind {A B} (c : Completion A) (k : A -> Completion B) : Completion B :=
  match c with
  | Normal a => k a
  | Throw m => Throw m
  end.

(** [try { body } catch (error) { handler }] *)
Definition try_catch {A} (body : Completion A) (handler : string -> Completion A)
  : Completion A :=
  match body with
  | Normal a => Normal a
  | Throw m => handler m
  end.

(** A JavaScript argument that is expected to be a number. *)
Inductive Val (num : Type) : Type :=
| Undefined
| Null
| Num (x : num).
Arguments Undefined {num}.
Arguments Null {num}.
Arguments Num {num} x.

End JS.
Import JS.

Declare Scope js_scope.
Delimit Scope js_scope with js.
Notation "x <- c ;; k" := (JS.bind c (fun x => k))
  (at level 61, c at next level, right associativity) : js_scope.

(* ===================================================================== *)
(** * JavaScript numbers *)
(* ===================================================================== *)

(** What a number denotes. *)
Inductive NumView : Type :=
| VNaN
| VInf (negative : bool)
| VFinite (q : Q).

Class JsNumber (num : Type) : Type := {
  (** [Number(s)] for the decimal digits [s] of an integer, and integer
      literals *)
  Number_ofZ : Z -> num;
  add : num -> num -> num;
  sub : num -> num -> num;
  mul : num -> num -> num;
  div : num -> num -> num;
  (** [x <= y] *)
  le : num -> num -> bool;
  (** truthiness: [!x] is [negb (ToBoolean x)] *)
  ToBoolean : num -> bool;
  Math_abs : num -> num;
  Math_floor : num -> num;
  Math_min : num -> num -> num;
  view : num -> NumView
}.

Infix "+" := add : js_scope.
Infix "-" := sub : js_scope.
Infix "*" := mul : js_scope.
Infix "/" := div : js_scope.

(** ** Binary64: the numbers of the running program *)

Module B64.

Definition prec : Z := 53.
Definition emax : Z := 1024.

Definition ofZ (z : Z) : spec_float := binary_normalize prec emax z 0 false.

Definition toBoolean (x : spec_float) : bool :=
  match x with
  | S754_zero _ | S754_nan => false
  | _ => true
  end.

(** [Math.floor]: NaN, the infinities and the zeros are returned as they
    are; a finite [(-1)^s * m * 2^e] with [e < 0] is shifted right, which
    rounds towards minus infinity. *)
Definition floor (x : spec_float) : spec_float :=
  match x with
  | S754_finite s m e =>
      if (0 <=? e)%Z then x
      else binary_normalize prec emax
             (Z.shiftr (cond_Zopp s (Zpos m)) (- e)) 0 s
  | _ => x
  end.

(** [Math.min] of two numbers: NaN if either is NaN, and -0 below +0. *)
Definition min (x y : spec_float) : spec_float :=
  match SFcompare x y with
  | None => S754_nan
  | Some Lt => x
  | Some Gt => y
  | Some Eq => match x with S754_zero true => x | _ => y end
  end.

Definition toView (x : spec_float) : NumView :=
  match x with
  | S754_nan => VNaN
  | S754_infinity s => VInf s
  | S754_zero _ => VFinite 0%Q
  | S754_finite s m e =>
      VFinite (inject_Z (cond_Zopp s (Zpos m)) * (2 ^ e))%Q
  end.

End B64.

#[export] Instance Binary64 : JsNumber spec_float := {
  Number_ofZ := B64.ofZ;
  add := SFadd B64.prec B64.emax;
  sub := SFsub B64.prec B64.emax;
  mul := SFmul B64.prec B64.emax;
  div := SFdiv B64.prec B64.emax;
  le := SFleb;
  ToBoolean := B64.toBoolean;
  Math_abs := SFabs;
  Math_floor := B64.floor;
  Math_min := B64.min;
  view := B64.toView
}.

(* ===================================================================== *)
(** * bn.js: arbitrary-precision integers *)
(* ===================================================================== *)

Module BN.

Definition t : Type := Z.

Definition add (a b : t) : t := (a + b)%Z.
Definition sub (a b : t) : t := (a - b)%Z.
Definition mul (a b : t) : t := (a * b)%Z.
Definition eq (a b : t) : bool := (a =? b)%Z.

(** [a.div(b)] truncates towards zero and asserts that [b] is not zero. *)
Definition div (a b : t) : Completion t :=
  if (b =? 0)%Z then Throw "Assertion failed"
  else Normal (Z.quot a b).

(** [a.toNumber()]: words are 26 bits wide; up to two words, or three
    with the top word equal to 1, convert; anything longer throws. *)
Definition toNumber {num : Type} `{JsNumber num} (a : t) : Completion num :=
  if (Z.abs a <? 2 ^ 53)%Z then Normal (Number_ofZ a)
  else Throw "Number can only safely store up to 53 bits".

(** [new BN(number)]: the constructor runs [_initNumber (number || 0)],
    which negates a negative argument, keeps the integer part of the
    magnitude word by word, and asserts [number < 0x20000000000000]. *)
Definition ofNumber {num : Type} `{JsNumber num} (x : num) : Completion t :=
  match view x with
  | VNaN => Normal 0%Z
  | VInf _ => Throw "Assertion failed"
  | VFinite q =>
      let magnitude := Qfloor (Qabs q) in
      if (magnitude <? 2 ^ 53)%Z
      then Normal (if Qle_bool 0%Q q then magnitude else (- magnitude)%Z)
      else Throw "Assertion failed"
  end.

End BN.

(* ===================================================================== *)
(** * Constants ([@/lib/constants]) *)
(* ===================================================================== *)

Module FEES.
Definition DEFAULT_TRADING_FEE : Z := 100.
End FEES.

Module TOKEN_STANDARDS.
Definition TOKEN_DECIMALS : Z := 9.
Definition USDC_DECIMALS : Z := 6.
Definition PERCENTAGE_BASIS_POINTS : Z := 10000.
End TOKEN_STANDARDS.

Module UI_CONSTANTS.
Definition TX_TIMEOUT : Z := 60000.
End UI_CONSTANTS.

Module ERROR_MESSAGES.
Definition INVALID_AMOUNT : string := "Please enter a valid amount".
Definition INSUFFICIENT_BALANCE : string := "Insufficient balance".
Definition TRANSACTION_FAILED : string := "Transaction failed".
Definition UNAUTHORIZED : string := "Unauthorized action".
Definition INSUFFICIENT_LIQUIDITY : string := "Insufficient liquidity in pool".
Definition WALLET_LIMIT_EXCEEDED : string :=
  "Wallet limit exceeded. You cannot sell this much yet.".
Definition GLOBAL_LIMIT_EXCEEDED : string :=
  "Global price limit exceeded. Try selling a smaller amount.".
End ERROR_MESSAGES.

(* ===================================================================== *)
(** * The pricing engine ([calculations.js]) *)
(* ===================================================================== *)

(** Pool account data as decoded from the chain: reserves are [u64]
    quantities held in [BN]s, taxes are [u16] basis points. *)
Record PoolParams : Type := {
  buyTax : Z;
  sellTax : Z
}.

Record Pool : Type := {
  reserveStableMint : BN.t;
  stableReserveVirtual : BN.t;
  reserveProjectMint : BN.t;
  tokenReserveVirtual : BN.t;
  totalSellAmount : BN.t;
  params : option PoolParams
}.

Record Config : Type := {
  tradingFee : option BN.t
}.

(** The objects the quote functions return.  The early-return object has
    no [tax] property; the other two return sites have one. *)
Record Quote (num : Type) : Type := {
  amountOut : num;        (* [tokensOut] for a buy, [usdcOut] for a sell *)
  priceImpact : num;
  fee : num;
  tax : option num
}.

Section Calculations.

Context {num : Type} `{JsNumber num}.
Local Open Scope js_scope.

(** [a || b] on numbers *)
Definition or_else (a b : num) : num := if ToBoolean a then a else b.

(** [Math.pow(10, d)] for a count of decimals [d] from 0 to 22, where the
    power is an integer that binary64 holds exactly and the engine returns
    it.  The code calls it with 0, 2, 6 and 9; beyond 22 the engine may be
    one unit in the last place away from the nearest number, and no
    property below turns on the value for such a count. *)
Definition Math_pow10 (d : Z) : num := Number_ofZ (10 ^ d).

Definition zero : num := Number_ofZ 0.

(** [!poolData || !amount || amount <= 0] *)
Definition degenerate (poolData : option Pool) (amount : Val num) : bool :=
  match poolData with
  | None => true
  | Some _ =>
      match amount with
      | Undefined | Null => true
      | Num x => negb (ToBoolean x) || le x zero
      end
  end.

(** [config?.tradingFee?.toNumber() || FEES.DEFAULT_TRADING_FEE] *)
Definition tradingFeeOf (config : option Config) : Completion num :=
  match config with
  | Some {| tradingFee := Some f |} =>
      n <- BN.toNumber f ;;
      Normal (or_else n (Number_ofZ FEES.DEFAULT_TRADING_FEE))
  | _ => Normal (Number_ofZ FEES.DEFAULT_TRADING_FEE)
  end.

(** [(poolData.params?.buyTax || 0) / PERCENTAGE_BASIS_POINTS] *)
Definition taxRate (field : PoolParams -> Z) (poolData : Pool) : num :=
  let bps := match params poolData with
             | Some p => Number_ofZ (field p)
             | None => zero
             end in
  or_else bps zero / Number_ofZ TOKEN_STANDARDS.PERCENTAGE_BASIS_POINTS.

(** [Number(a.toString()) / Math.pow(10, d) + Number(b.toString()) / Math.pow(10, d)] *)
Definition humanTotal (a b : BN.t) (d : Z) : num :=
  Number_ofZ a / Math_pow10 d + Number_ofZ b / Math_pow10 d.

Definition totalStableOf (p : Pool) : num :=
  humanTotal (reserveStableMint p) (stableReserveVirtual p)
             TOKEN_STANDARDS.USDC_DECIMALS.

Definition totalTokenOf (p : Pool) : num :=
  humanTotal (reserveProjectMint p) (tokenReserveVirtual p)
             TOKEN_STANDARDS.TOKEN_DECIMALS.

Definition zeroQuote (tx : option num) : Quote num :=
  {| amountOut := zero; priceImpact := zero; fee := zero; tax := tx |}.

Definition calculateCurrentPrice (poolData : option Pool) : Completion num :=
  try_catch
    (match poolData with
     | None => Normal zero
     | Some p =>
         let totalStable := BN.add (reserveStableMint p) (stableReserveVirtual p) in
         let totalToken := BN.add (reserveProjectMint p) (tokenReserveVirtual p) in
         if BN.eq totalToken 0 then Normal zero
         else
           let stableWithDecimals := BN.mul totalStable 1000 in
           price <- BN.div stableWithDecimals totalToken ;;
           n <- BN.toNumber price ;;
           Normal (n / Number_ofZ 1000)
     end)
    (fun _ => Normal zero).

Definition calculateBuyTokensOut
    (poolData : option Pool) (usdcAmount : Val num) (config : option Config)
  : Completion (Quote num) :=
  try_catch
    (match poolData, usdcAmount with
     | Some p, Num usdc =>
         if degenerate poolData usdcAmount then Normal (zeroQuote None)
         else
           (* Apply trading fee *)
           tradingFee <- tradingFeeOf config ;;
           let feeAmount :=
             usdc * (tradingFee / Number_ofZ TOKEN_STANDARDS.PERCENTAGE_BASIS_POINTS) in
           let amountAfterFee := usdc - feeAmount in
           (* Get current reserves *)
           let totalStable := totalStableOf p in
           let totalToken := totalTokenOf p in
           (* Calculate constant product *)
           let k := totalStable * totalToken in
           (* Calculate new reserves after swap *)
           let newStable := totalStable + amountAfterFee in
           let newToken := k / newStable in
           let tokensOut := totalToken - newToken in
           (* Apply buy tax *)
           let buyTax := taxRate buyTax p in
           let taxAmount := tokensOut * buyTax in
           let netTokensOut := tokensOut - taxAmount in
           (* Calculate price impact *)
           let oldPrice := totalStable / totalToken in
           let newPrice := newStable / newToken in
           let priceImpact := ((newPrice - oldPrice) / oldPrice) * Number_ofZ 100 in
           Normal {| amountOut := netTokensOut;
                     priceImpact := Math_abs priceImpact;
                     fee := feeAmount;
                     tax := Some taxAmount |}
     | _, _ => Normal (zeroQuote None)
     end)
    (fun _ => Normal (zeroQuote (Some zero))).

Definition calculateSellUsdcOut
    (poolData : option Pool) (tokenAmount : Val num) (config : option Config)
  : Completion (Quote num) :=
  try_catch
    (match poolData, tokenAmount with
     | Some p, Num tokens =>
         if degenerate poolData tokenAmount then Normal (zeroQuote None)
         else
           (* Apply sell tax first *)
           let sellTax := taxRate sellTax p in
           let taxAmount := tokens * sellTax in
           let amountAfterTax := tokens - taxAmount in
           (* Get current reserves *)
           let totalStable := totalStableOf p in
           let totalToken := totalTokenOf p in
           (* Calculate constant product *)
           let k := totalStable * totalToken in
           (* Calculate new reserves after swap *)
           let newToken := totalToken + amountAfterTax in
           let newStable := k / newToken in
           let stableOut := totalStable - newStable in
           (* Apply trading fee *)
           tradingFee <- tradingFeeOf config ;;
           let feeAmount :=
             stableOut * (tradingFee / Number_ofZ TOKEN_STANDARDS.PERCENTAGE_BASIS_POINTS) in
           let netUsdcOut := stableOut - feeAmount in
           (* Calculate price impact *)
           let oldPrice := totalStable / totalToken in
           let newPrice := newStable / newToken in
           let priceImpact := ((oldPrice - newPrice) / oldPrice) * Number_ofZ 100 in
           Normal {| amountOut := netUsdcOut;
                     priceImpact := Math_abs priceImpact;
                     fee := feeAmount;
                     tax := Some taxAmount |}
     | _, _ => Normal (zeroQuote None)
     end)
    (fun _ => Normal (zeroQuote (Some zero))).

Definition calculatePoolProgress (poolData : option Pool) : Completion num :=
  try_catch
    (match poolData with
     | None => Normal (Number_ofZ 100)
     | Some p =>
         if BN.eq (totalSellAmount p) 0 then Normal (Number_ofZ 100)
         else
           let sold := BN.sub (totalSellAmount p) (reserveProjectMint p) in
           progress <- BN.div (BN.mul sold 100) (totalSellAmount p) ;;
           n <- BN.toNumber progress ;;
           Normal (Math_min n (Number_ofZ 100))
     end)
    (fun _ => Normal zero).

Definition numberToBN (n : num) (decimals : Z) : Completion BN.t :=
  try_catch
    (let multiplier := Math_pow10 decimals in
     BN.ofNumber (Math_floor (n * multiplier)))
    (fun _ => Normal 0%Z).

End Calculations.

(* ===================================================================== *)
(** * Error normalisation ([parseProgramError]) *)
(* ===================================================================== *)

Module Errors.

Local Open Scope string_scope.

(** [s.startsWith(key)] *)
Fixpoint startsWith (key s : string) : bool :=
  match key, s with
  | EmptyString, _ => true
  | String k key', String c s' => Ascii.eqb k c && startsWith key' s'
  | String _ _, EmptyString => false
  end.

(** [s.includes(key)] *)
Fixpoint includes (key s : string) : bool :=
  startsWith key s ||
  match s with
  | EmptyString => false
  | String _ rest => includes key rest
  end.

(** the character class [[0-9a-fA-F]] *)
Definition isHexDigit (c : ascii) : bool :=
  let n := nat_of_ascii c in
  ((48 <=? n) && (n <=? 57) || (97 <=? n) && (n <=? 102) ||
   (65 <=? n) && (n <=? 70))%nat.

(** the longest run of hexadecimal digits at the head of [s] *)
Fixpoint hexRun (s : string) : string :=
  match s with
  | String c rest => if isHexDigit c then String c (hexRun rest) else EmptyString
  | EmptyString => EmptyString
  end.

(** the match of [/0x[0-9a-fA-F]+/] anchored at the head of [s] *)
Definition hexCodeAt (s : string) : option string :=
  match s with
  | String _ (String _ rest) =>
      if startsWith "0x" s then
        match hexRun rest with
        | EmptyString => None
        | digits => Some ("0x" ++ digits)
        end
      else None
  | _ => None
  end.

(** [s.match(/0x[0-9a-fA-F]+/)]: the leftmost match, digits taken
    greedily; [None] is JavaScript's [null]. *)
Fixpoint matchHexCode (s : string) : option string :=
  match hexCodeAt s with
  | Some code => Some code
  | None =>
      match s with
      | EmptyString => None
      | String _ rest => matchHexCode rest
      end
  end.

(** The error map, in the insertion order [Object.entries] walks. *)
Definition errorMap : list (string * string) :=
  [ ("OwnerAlreadySet", "Owner has already been set");
    ("Unauthorized", ERROR_MESSAGES.UNAUTHORIZED);
    ("NoStableCoins", "No stable coins provided");
    ("CoinNotFound", "Stable coin not found");
    ("TokenAlreadyMinted", "Token has already been minted");
    ("InvalidTax", "Invalid tax value (must be 0-100%)");
    ("NoCreator", "No creator specified");
    ("InvalidRouter", "Invalid DEX router selected");
    ("UnsupportedStableCoin", "Unsupported stable coin");
    ("InvalidAmount", ERROR_MESSAGES.INVALID_AMOUNT);
    ("InsufficientLiquidity", ERROR_MESSAGES.INSUFFICIENT_LIQUIDITY);
    ("MathOverflow", "Mathematical overflow occurred");
    ("GlobalLimitExceeded", ERROR_MESSAGES.GLOBAL_LIMIT_EXCEEDED);
    ("WalletLimitExceeded", ERROR_MESSAGES.WALLET_LIMIT_EXCEEDED);
    ("PoolNotComplete", "Pool is not complete yet");
    ("PoolAlreadyFinalized", "Pool has already been finalized");
    ("NoTokensToAdd", "No tokens available to add");
    ("UnsupportedDex", "Unsupported DEX");
    ("PoolClosed", "Pool is closed for trading");
    ("InsufficientOutputAmount", "Output amount too low");
    ("PriceLimitExceeded", "Price limit exceeded");
    ("InsufficientTokens", "Insufficient token balance");
    ("TooManyReceivers", "Too many tax receivers");
    ("InvalidPercentages", "Invalid percentage values");
    ("PoolNotClosed", "Pool is not closed yet");
    ("NoLockedTokens", "No locked tokens found");
    ("NoTaxToDistribute", "No tax available to distribute");
    ("BundleAlreadyExecuted", "Bundle buy already executed");
    ("InvalidFee", "Invalid fee amount");
    ("PoolAlreadyActive", "Pool is already active");
    ("BundleNotExecuted", "Bundle buy not executed yet");
    ("InvalidRaydiumConfig", "Invalid Raydium configuration");
    ("RaydiumPoolCreationFailed", "Failed to create Raydium pool");
    ("RaydiumSwapFailed", "Raydium swap failed");
    ("InvalidFeeTier", "Invalid fee tier selected");
    ("TokenOrderingMismatch", "Token ordering mismatch");
    ("InsufficientLiquidityForPool", "Insufficient liquidity for Raydium pool");
    ("InvalidSqrtPrice", "Invalid sqrt price");
    ("PoolNotFinalized", "Pool not finalized to DEX yet");
    ("RaydiumAlreadyInitialized", "Raydium pool already initialized");
    ("RaydiumPoolNotCreated", "Raydium pool not created") ].

(** [switch (errorCode)] *)
Definition codeMessage (errorCode : string) : option string :=
  if String.eqb errorCode "0x1771" then Some ERROR_MESSAGES.INSUFFICIENT_LIQUIDITY
  else if String.eqb errorCode "0x1786" then Some ERROR_MESSAGES.GLOBAL_LIMIT_EXCEEDED
  else if String.eqb errorCode "0x1787" then Some ERROR_MESSAGES.WALLET_LIMIT_EXCEEDED
  else None.

(** [for (const [key, value] of Object.entries(errorMap))
       if (errorMessage.includes(key)) return value] *)
Fixpoint lookupMapped (entries : list (string * string)) (errorMessage : string)
  : option string :=
  match entries with
  | [] => None
  | (key, value) :: rest =>
      if includes key errorMessage then Some value
      else lookupMapped rest errorMessage
  end.

(** the chain of [includes] tests for common Solana errors *)
Definition commonMessage (errorMessage : string) : option string :=
  if includes "insufficient" errorMessage then Some ERROR_MESSAGES.INSUFFICIENT_BALANCE
  else if includes "User rejected" errorMessage then Some "Transaction cancelled"
  else if includes "Simulation failed" errorMessage
       then Some "Transaction simulation failed. Please try again."
  else if includes "Blockhash not found" errorMessage
       then Some "Network error. Please try again."
  else None.

(** An error payload: its [message] property, if it has one, and what
    [toString()] gives. *)
Record JsError : Type := {
  message : option string;
  toString : string
}.

(** [error.message || errorString] *)
Definition errorMessageOf (error : JsError) : string :=
  match message error with
  | Some m => if String.eqb m EmptyString then toString error else m
  | None => toString error
  end.

(** the message the [switch] returns for the matched code, if any *)
Definition knownCode (errorMessage : string) : option string :=
  match matchHexCode errorMessage with
  | Some errorCode => codeMessage errorCode
  | None => None
  end.

Definition parseMessage (errorMessage : string) : string :=
  match knownCode errorMessage with
  | Some msg => msg
  | None =>
      match lookupMapped errorMap errorMessage with
      | Some value => value
      | None =>
          match commonMessage errorMessage with
          | Some msg => msg
          | None =>
              if (100 <? String.length errorMessage)%nat
              then ERROR_MESSAGES.TRANSACTION_FAILED
              else errorMessage
          end
      end
  end.

Definition parseProgramError (error : option JsError) : string :=
  match error with
  | None => ERROR_MESSAGES.TRANSACTION_FAILED
  | Some e => parseMessage (errorMessageOf e)
  end.

End Errors.

(* ===================================================================== *)
(** * Submission and confirmation ([sendTransaction], [TransactionBuilder]) *)
(* ===================================================================== *)

Module COMPUTE_UNITS.
Definition DEFAULT : Z := 800000.
Definition MICROLAMPORTS_PER_UNIT : Z := 1.
End COMPUTE_UNITS.

Module Pipeline.

Local Open Scope string_scope.

(** ** The objects handed to the network and to the wallet *)

Inductive Instruction : Type :=
| SetComputeUnitLimit (units : Z)
| SetComputeUnitPrice (microLamports : Z)
| ProgramInstruction (data : string).

Record Transaction : Type := {
  recentBlockhash : string;
  feePayer : string;
  instructions : list Instruction
}.

(** A transaction after the wallet has signed it, with the additional
    signers that have applied [partialSign]. *)
Record SignedTx : Type := {
  payload : Transaction;
  walletSignature : string;
  partialSigners : list string
}.

Definition partialSign (tx : SignedTx) (signer : string) : SignedTx :=
  {| payload := payload tx;
     walletSignature := walletSignature tx;
     partialSigners := (partialSigners tx ++ [signer])%list |}.

Record SendOptions : Type := {
  skipPreflight : bool;
  preflightCommitment : string;
  maxRetries : Z
}.

Record LatestBlockhash : Type := {
  blockhash : string;
  lastValidBlockHeight : Z
}.

Record ConfirmationStrategy : Type := {
  strategySignature : string;
  strategyBlockhash : string;
  strategyLastValidBlockHeight : Z
}.

(** [confirmation.value.err], serialised *)
Record Confirmation : Type := {
  confirmationErr : option string
}.

Inductive ConfirmationStatus : Type := Processed | Confirmed | Finalized.

(** [status.value] of [getSignatureStatus] *)
Record SignatureStatus : Type := {
  confirmationStatus : option ConfirmationStatus;
  statusErr : option string
}.

(** A promise of the network: it settles after some milliseconds, with a
    value or a rejection, or it never settles. *)
Inductive Promise (A : Type) : Type :=
| Settles (afterMs : Z) (c : Completion A)
| NeverSettles.
Arguments Settles {A} afterMs c.
Arguments NeverSettles {A}.

(** The RPC capabilities the two pipelines use.  [getSignatureStatus]
    yields [status.value], [None] when the cluster has no record. *)
Record Connection : Type := {
  getLatestBlockhash : string -> Completion LatestBlockhash;
  sendRawTransaction : SignedTx -> SendOptions -> Completion string;
  confirmTransaction : ConfirmationStrategy -> string -> Promise Confirmation;
  getSignatureStatus : string -> Completion (option SignatureStatus)
}.

Record Wallet : Type := {
  publicKey : string;
  signTransaction : option (Transaction -> Completion SignedTx)
}.

(** ** Asynchronous flows

    The promise an [async] function returns is fulfilled, rejected, or
    never settled; next to it the flow records the calls it made to its
    collaborators, in order. *)

Inductive Call : Type :=
| CallGetLatestBlockhash (commitment : string)
| CallSignTransaction (tx : Transaction)
| CallSendRawTransaction (tx : SignedTx) (opts : SendOptions)
| CallConfirmTransaction (strategy : ConfirmationStrategy) (commitment : string)
                         (racedAgainstMs : option Z)
| CallGetSignatureStatus (signature : string).

Inductive Result (A : Type) : Type :=
| Fulfilled (a : A)
| Rejected (msg : string)
| Unsettled.
Arguments Fulfilled {A} a.
Arguments Rejected {A} msg.
Arguments Unsettled {A}.

Definition Flow (A : Type) : Type := (list Call * Result A)%type.

Definition calls {A} (f : Flow A) : list Call := fst f.
Definition result {A} (f : Flow A) : Result A := snd f.

Definition ret {A} (a : A) : Flow A := ([], Fulfilled a).
Definition raise {A} (msg : string) : Flow A := ([], Rejected msg).

Definition bind {A B} (m : Flow A) (k : A -> Flow B) : Flow B :=
  match m with
  | (l, Fulfilled a) => let (l', r) := k a in ((l ++ l')%list, r)
  | (l, Rejected e) => (l, Rejected e)
  | (l, Unsettled) => (l, Unsettled)
  end.

Definition try_catch {A} (body : Flow A) (handler : string -> Flow A) : Flow A :=
  match body with
  | (l, Rejected e) => let (l', r) := handler e in ((l ++ l')%list, r)
  | other => other
  end.

Definition ofCompletion {A} (c : Completion A) : Result A :=
  match c with
  | Normal a => Fulfilled a
  | Throw e => Rejected e
  end.

(** [await p] *)
Definition await {A} (p : Promise A) : Result A :=
  match p with
  | Settles _ c => ofCompletion c
  | NeverSettles => Unsettled
  end.

(** [await Promise.race([p, new Promise((_, reject) =>
      setTimeout(() => reject(new Error(msg)), ms))])]:
    the promise wins when it settles no later than the timer fires; it is
    created before the timer, so at the same instant it settles first. *)
Definition awaitRace {A} (p : Promise A) (ms : Z) (msg : string) : Result A :=
  match p with
  | Settles t c => if (t <=? ms)%Z then ofCompletion c else Rejected msg
  | NeverSettles => Rejected msg
  end.

Definition perform {A} (c : Call) (r : Result A) : Flow A := ([c], r).

Notation "x <~ c ;; k" := (bind c (fun x => k))
  (at level 61, c at next level, right associativity).

Definition sendOptions : SendOptions :=
  {| skipPreflight := false; preflightCommitment := "confirmed"; maxRetries := 3 |}.

(** [status?.value?.confirmationStatus === 'confirmed' ||
     status?.value?.confirmationStatus === 'finalized'] *)
Definition landed (status : option SignatureStatus) : bool :=
  match status with
  | Some {| confirmationStatus := Some Confirmed |}
  | Some {| confirmationStatus := Some Finalized |} => true
  | _ => false
  end.

(** ** [sendTransaction] *)

Definition sendTransaction
    (connection : Connection) (wallet : option Wallet)
    (ixs : list Instruction) (signers : list string) : Flow string :=
  try_catch
    (latest <~ perform (CallGetLatestBlockhash "confirmed")
                 (ofCompletion (getLatestBlockhash connection "confirmed")) ;;
     payer <~ match wallet with
              | Some w => ret (publicKey w)
              | None => raise "TypeError: Cannot read properties of null"
              end ;;
     let transaction :=
       {| recentBlockhash := blockhash latest;
          feePayer := payer;
          instructions := SetComputeUnitLimit COMPUTE_UNITS.DEFAULT :: ixs |} in
     sign <~ match wallet with
             | Some {| signTransaction := Some sign |} => ret sign
             | _ => raise "Wallet not ready"
             end ;;
     signedTx <~ perform (CallSignTransaction transaction)
                   (ofCompletion (sign transaction)) ;;
     let signedTx := fold_left partialSign signers signedTx in
     txSig <~ perform (CallSendRawTransaction signedTx sendOptions)
                (ofCompletion (sendRawTransaction connection signedTx sendOptions)) ;;
     let confirmationStrategy :=
       {| strategySignature := txSig;
          strategyBlockhash := blockhash latest;
          strategyLastValidBlockHeight := lastValidBlockHeight latest |} in
     (* [Some sig]: the block executed [return sig]; [None]: it fell through *)
     returned <~ try_catch
         (confirmation <~ perform
              (CallConfirmTransaction confirmationStrategy "confirmed"
                 (Some UI_CONSTANTS.TX_TIMEOUT))
              (awaitRace (confirmTransaction connection confirmationStrategy "confirmed")
                 UI_CONSTANTS.TX_TIMEOUT "Transaction confirmation timeout") ;;
          match confirmationErr confirmation with
          | Some err => raise ("Transaction failed: " ++ err)
          | None => ret None
          end)
         (fun confirmError =>
            (* Check if transaction actually succeeded despite timeout *)
            status <~ perform (CallGetSignatureStatus txSig)
                        (ofCompletion (getSignatureStatus connection txSig)) ;;
            if landed status then ret (Some txSig)
            else raise confirmError) ;;
     match returned with
     | Some sig => ret sig
     | None => ret txSig
     end)
    (fun error => raise error).

(** ** [TransactionBuilder] *)

Record TransactionBuilder : Type := {
  connection : Connection;
  wallet : option Wallet;
  builderInstructions : list Instruction;
  builderSigners : list string
}.

Definition newTransactionBuilder (c : Connection) (w : option Wallet)
  : TransactionBuilder :=
  {| connection := c; wallet := w; builderInstructions := []; builderSigners := [] |}.

Definition addComputeBudget (units microLamports : Z) (b : TransactionBuilder)
  : TransactionBuilder :=
  {| connection := connection b; wallet := wallet b;
     builderInstructions :=
       SetComputeUnitLimit units :: SetComputeUnitPrice microLamports
         :: builderInstructions b;
     builderSigners := builderSigners b |}.

Definition addInstruction (ix : Instruction) (b : TransactionBuilder)
  : TransactionBuilder :=
  {| connection := connection b; wallet := wallet b;
     builderInstructions := (builderInstructions b ++ [ix])%list;
     builderSigners := builderSigners b |}.

Definition addSigner (signer : string) (b : TransactionBuilder)
  : TransactionBuilder :=
  {| connection := connection b; wallet := wallet b;
     builderInstructions := builderInstructions b;
     builderSigners := (builderSigners b ++ [signer])%list |}.

Definition build (b : TransactionBuilder) : Flow (SignedTx * LatestBlockhash) :=
  latest <~ perform (CallGetLatestBlockhash "confirmed")
              (ofCompletion (getLatestBlockhash (connection b) "confirmed")) ;;
  payer <~ match wallet b with
           | Some w => ret (publicKey w)
           | None => raise "TypeError: Cannot read properties of null"
           end ;;
  (* [transaction.add(...this.instructions)] throws on an empty list *)
  _ <~ match builderInstructions b with
       | [] => raise "No instructions"
       | _ :: _ => ret tt
       end ;;
  let transaction :=
    {| recentBlockhash := blockhash latest;
       feePayer := payer;
       instructions := builderInstructions b |} in
  sign <~ match wallet b with
          | Some {| signTransaction := Some sign |} => ret sign
          | _ => raise "TypeError: this.wallet.signTransaction is not a function"
          end ;;
  signedTx <~ perform (CallSignTransaction transaction)
                (ofCompletion (sign transaction)) ;;
  ret (fold_left partialSign (builderSigners b) signedTx, latest).

Definition buildAndSend (b : TransactionBuilder) : Flow string :=
  built <~ build b ;;
  let '(signedTx, latest) := built in
  (* Send transaction *)
  txSig <~ perform (CallSendRawTransaction signedTx sendOptions)
             (ofCompletion (sendRawTransaction (connection b) signedTx sendOptions)) ;;
  (* Confirm transaction *)
  let strategy :=
    {| strategySignature := txSig;
       strategyBlockhash := blockhash latest;
       strategyLastValidBlockHeight := lastValidBlockHeight latest |} in
  _ <~ perform (CallConfirmTransaction strategy "confirmed" None)
         (await (confirmTransaction (connection b) strategy "confirmed")) ;;
  ret txSig.

End Pipeline.

Unset Implicit Arguments.

(* ===================================================================== *)
(** * Concrete pools *)
(* ===================================================================== *)

(** The pool of the specification's buy-quote scenario: 30000 USDC of
    virtual stable reserve, one million project tokens of real reserve. *)
Definition scenarioPool : Pool :=
  {| reserveStableMint := 0;
     stableReserveVirtual := 30000000000;
     reserveProjectMint := 1000000000000000;
     tokenReserveVirtual := 0;
     totalSellAmount := 1000000000000000;
     params := Some {| buyTax := 0; sellTax := 0 |} |}.

(** Its trading fee of 100 basis points. *)
Definition scenarioConfig : Config := {| tradingFee := Some 100 |}.

(** A pool whose project reserve has grown past the amount put on sale. *)
Definition overfullPool : Pool :=
  {| reserveStableMint := 0;
     stableReserveVirtual := 30000000000;
     reserveProjectMint := 250;
     tokenReserveVirtual := 0;
     totalSellAmount := 100;
     params := None |}.

(** A pool with a very large virtual stable reserve (10^12 USDC). *)
Definition deepPool : Pool :=
  {| reserveStableMint := 0;
     stableReserveVirtual := 1000000000000000000;
     reserveProjectMint := 1000000000000056;
     tokenReserveVirtual := 0;
     totalSellAmount := 1000000000000056;
     params := Some {| buyTax := 0; sellTax := 0 |} |}.

(** A pool in the middle of its sale, with a real and a virtual reserve on
    both sides (12,500 + 30,000 USDC against 700,000 + 50,000 tokens) and
    taxes of 2% on buys and 3% on sells. *)
Definition tradedPool : Pool :=
  {| reserveStableMint := 12500000000;
     stableReserveVirtual := 30000000000;
     reserveProjectMint := 700000000000000;
     tokenReserveVirtual := 50000000000000;
     totalSellAmount := 1000000000000000;
     params := Some {| buyTax := 200; sellTax := 300 |} |}.

(** A pool of 1.234567 USDC against 1000 base units of the token: a token
    costs 1,234,567 USDC. *)
Definition tinyPool : Pool :=
  {| reserveStableMint := 1234567;
     stableReserveVirtual := 0;
     reserveProjectMint := 1000;
     tokenReserveVirtual := 0;
     totalSellAmount := 1000;
     params := None |}.

(** Number literals used below. *)
Definition lit (z : Z) : spec_float := B64.ofZ z.
(** [0.000001] *)
Definition oneMicro : spec_float := SFdiv B64.prec B64.emax (lit 1) (lit 1000000).
(** [-1.5] *)
Definition minusOneAndAHalf : spec_float := SFdiv B64.prec B64.emax (lit (-3)) (lit 2).

Definition posZero : spec_float := S754_zero false.

(* ===================================================================== *)
(** * Valid pools, degenerate amounts, values *)
(* ===================================================================== *)

(** A pool as the chain can hold it: every reserve is an unsigned amount. *)
Record ValidPool (p : Pool) : Prop := {
  stable_nonneg : 0 <= reserveStableMint p;
  virtual_stable_nonneg : 0 <= stableReserveVirtual p;
  project_nonneg : 0 <= reserveProjectMint p;
  virtual_project_nonneg : 0 <= tokenReserveVirtual p;
  total_sell_nonneg : 0 <= totalSellAmount p
}.

Definition stableTotal (p : Pool) : Z := reserveStableMint p + stableReserveVirtual p.
Definition tokenTotal (p : Pool) : Z := reserveProjectMint p + tokenReserveVirtual p.

(** An amount that is undefined, null, a zero, NaN, or negative. *)
Inductive DegenerateAmount : Val spec_float -> Prop :=
| amount_undefined : DegenerateAmount Undefined
| amount_null : DegenerateAmount Null
| amount_zero (s : bool) : DegenerateAmount (Num (S754_zero s))
| amount_nan : DegenerateAmount (Num S754_nan)
| amount_negative (x : spec_float) :
    SFltb x posZero = true -> DegenerateAmount (Num x).

(** The object [{ tokensOut: 0, priceImpact: 0, fee: 0 }]. *)
Definition allZeroQuote : Quote spec_float :=
  {| amountOut := posZero; priceImpact := posZero; fee := posZero; tax := None |}.

(** [0 <= x] in the sense of the JavaScript comparison *)
Definition nonNegative (x : spec_float) : bool := SFleb posZero x.

(** The rational a finite binary64 number stands for. *)
Definition valueOf (x : spec_float) : Q :=
  match B64.toView x with
  | VFinite q => q
  | _ => 0%Q
  end.


(** The mantissa and exponent a positive integer below 2^53 is stored
    with: the mantissa is shifted up to 53 digits. *)
Definition normalised (p : positive) : positive * Z :=
  shl_align p 0 (Zpos (digits2_pos p) - 53).

(** The integer part, towards minus infinity, of [(-1)^s * m * 2^e]. *)
Definition floorOf (s : bool) (m : positive) (e : Z) : Z :=
  Qfloor (inject_Z (cond_Zopp s (Zpos m)) * 2 ^ e)%Q.

(* ===================================================================== *)
(** * The quote formulas of the specification *)
(* ===================================================================== *)

(** Steps (a) to (d) of [buyQuote] as the specification words them, in
    exact arithmetic: the value the formula itself gives, which no
    rounding can be blamed for. *)
Module Spec.

Local Open Scope Q_scope.



End Spec.

(* ===================================================================== *)
(** * What the quote functions compute *)
(* ===================================================================== *)

Definition buyTaxBps (p : Pool) : Z :=
  match params p with Some pp => buyTax pp | None => 0 end.

(* ===================================================================== *)
(** * Buying and selling back *)
(* ===================================================================== *)

Section RoundTrip.

Context {num : Type} `{JsNumber num}.
Local Open Scope js_scope.

(** [calculateSellUsdcOut(pool, calculateBuyTokensOut(pool, usdc, config).tokensOut,
    config).usdcOut] *)
Definition roundTrip (poolData : option Pool) (usdc : num) (config : option Config)
  : Completion num :=
  bought <- calculateBuyTokensOut poolData (Num usdc) config ;;
  sold <- calculateSellUsdcOut poolData (Num (amountOut bought)) config ;;
  Normal (amountOut sold).

End RoundTrip.

(* ===================================================================== *)
(** * A cluster and a wallet to run the pipelines with *)
(* ===================================================================== *)

Module World.

Import Pipeline.
Local Open Scope string_scope.

Definition latestA : LatestBlockhash :=
  {| blockhash := "9xQeWvG816bUx9EPjHmaT23yvVM2ZWbrrpZb9PusVFin";
     lastValidBlockHeight := 254000000 |}.

Definition sigA : string := "5VERv8NMvzbJMEkV8xnrLkEaWRtSz9CosKDYjCJjBRnb".

Definition walletA : Wallet :=
  {| publicKey := "payer";
     signTransaction :=
       Some (fun tx => Normal {| payload := tx;
                                 walletSignature := "signed-by-payer";
                                 partialSigners := [] |}) |}.

(** A cluster that hands out [latestA], accepts every send with [sigA], and
    answers confirmation and status requests as given. *)
Definition cluster (confirm : Promise Confirmation)
    (status : Completion (option SignatureStatus)) : Connection :=
  {| getLatestBlockhash := fun _ => Normal latestA;
     sendRawTransaction := fun _ _ => Normal sigA;
     confirmTransaction := fun _ _ => confirm;
     getSignatureStatus := fun _ => status |}.

Definition buyIx : Instruction := ProgramInstruction "buy".

(** Confirmation arrives after 1.5 seconds and carries a program error. *)
Definition confirmedWithError : Promise Confirmation :=
  Settles 1500 (Normal {| confirmationErr := Some "{InstructionError:[1,{Custom:6001}]}" |}).

(** Confirmation arrives after 1.5 seconds without error. *)
Definition confirmedOk : Promise Confirmation :=
  Settles 1500 (Normal {| confirmationErr := None |}).

(** The status record of a transaction that was executed and failed: the
    cluster reports how far it is confirmed, and its error. *)
Definition statusOfFailedTx : Completion (option SignatureStatus) :=
  Normal (Some {| confirmationStatus := Some Confirmed;
                  statusErr := Some "{InstructionError:[1,{Custom:6001}]}" |}).

Definition statusFinalized : Completion (option SignatureStatus) :=
  Normal (Some {| confirmationStatus := Some Finalized; statusErr := None |}).

Definition statusUnknown : Completion (option SignatureStatus) := Normal None.

(** The [catch (confirmError)] block. *)
Definition afterLookup (status : Completion (option SignatureStatus))
    (sig confirmError : string) : Result string :=
  match status with
  | Normal st => if landed st then Fulfilled sig else Rejected confirmError
  | Throw e => Rejected e
  end.

(** The builder that holds the transaction [sendTransaction] assembles:
    the compute-unit limit first, then the caller's instructions. *)
Definition builderFor (conn : Connection) (w : Wallet)
    (ixs : list Instruction) (signers : list string) : TransactionBuilder :=
  {| connection := conn;
     wallet := Some w;
     builderInstructions := SetComputeUnitLimit COMPUTE_UNITS.DEFAULT :: ixs;
     builderSigners := signers |}.

(** Every confirmation request is answered without error no later than
    the timeout of [sendTransaction] fires. *)
Definition ConfirmsInTime (conn : Connection) : Prop :=
  forall strategy : ConfirmationStrategy,
  exists t : Z,
    confirmTransaction conn strategy "confirmed"
      = Settles t (Normal {| confirmationErr := None |}) /\
    t <= UI_CONSTANTS.TX_TIMEOUT.

(** Forget whether a confirmation request was raced against a timer. *)
Definition forgetRace (c : Call) : Call :=
  match c with
  | CallConfirmTransaction strategy commitment _ =>
      CallConfirmTransaction strategy commitment None
  | other => other
  end.

End World.

(* ===================================================================== *)
(** * Error payloads *)
(* ===================================================================== *)

Module Payloads.

Import Errors.
Local Open Scope string_scope.

(** An error object thrown with [new Error(msg)]. *)
Definition errorOf (msg : string) : option JsError :=
  Some {| message := Some msg;
          toString := if String.eqb msg EmptyString then "Error" else "Error: " ++ msg |}.

Definition rejectedMessage : string := "User rejected the request.".

Definition codeMessageText : string :=
  "custom program error: " ++ "0x1771" ++ " (User rejected)".

Definition codeError : JsError :=
  {| message := Some codeMessageText; toString := "Error: " ++ codeMessageText |}.

Definition rejectedError : JsError :=
  {| message := Some rejectedMessage; toString := "Error: " ++ rejectedMessage |}.

End Payloads.

(* ===================================================================== *)
(** * The integer buy quote ([calculateBuyOutput]) *)
(* ===================================================================== *)

(** The pool state [calculateBuyOutput] reads: the pool account, and a
    [tradingFee] property, a whole number of basis points, which the
    account may not have. *)
Record PoolState : Type := {
  account : Pool;
  stateTradingFee : option Z
}.

(** The object [{ tokensOut, pricePerToken, fee }]. *)
Record BuyOutput (num : Type) : Type := {
  tokensOut : num;
  pricePerToken : num;
  outputFee : num
}.
Arguments tokensOut {num} _.
Arguments pricePerToken {num} _.
Arguments outputFee {num} _.

Section BuyOutputCode.

Context {num : Type} `{JsNumber num}.
Local Open Scope js_scope.

(** [poolState.tradingFee || 100] *)
Definition stateFeeOf (poolState : PoolState) : num :=
  match stateTradingFee poolState with
  | Some f => or_else (Number_ofZ f) (Number_ofZ 100)
  | None => Number_ofZ 100
  end.

(** [poolState.params?.buyTax || 0] *)
Definition stateBuyTaxOf (poolState : PoolState) : num :=
  match params (account poolState) with
  | Some pp => or_else (Number_ofZ (buyTax pp)) zero
  | None => zero
  end.

(** The function has no [try]: what [bn.js] throws reaches the caller. *)
Definition calculateBuyOutput (poolState : PoolState) (stableAmountIn : num)
  : Completion (BuyOutput num) :=
  (* Convert to BN with USDC decimals (6) *)
  amountInBN <- BN.ofNumber (Math_floor (stableAmountIn * Number_ofZ 1000000)) ;;
  (* Apply trading fee *)
  feeBps <- BN.ofNumber (stateFeeOf poolState) ;;
  feeAmount <- BN.div (BN.mul amountInBN feeBps) 10000 ;;
  let amountInAfterFee := BN.sub amountInBN feeAmount in
  (* Calculate using bonding curve formula - all BN arithmetic *)
  let totalStable :=
    BN.add (reserveStableMint (account poolState))
           (stableReserveVirtual (account poolState)) in
  let totalToken :=
    BN.add (reserveProjectMint (account poolState))
           (tokenReserveVirtual (account poolState)) in
  let k := BN.mul totalStable totalToken in
  let newStable := BN.add totalStable amountInAfterFee in
  newToken <- BN.div k newStable ;;
  let projectOut := BN.sub totalToken newToken in
  (* Apply buy tax *)
  taxBps <- BN.ofNumber (stateBuyTaxOf poolState) ;;
  taxAmount <- BN.div (BN.mul projectOut taxBps) 10000 ;;
  let netProjectOut := BN.sub projectOut taxAmount in
  (* Convert to human readable *)
  let out := Number_ofZ netProjectOut / Number_ofZ 1000000000 in
  Normal {| tokensOut := out;
            pricePerToken := stableAmountIn / out;
            outputFee := Number_ofZ feeAmount / Number_ofZ 1000000 |}.

End BuyOutputCode.

(** The fee in basis points [calculateBuyOutput] works with. *)
Definition stateFeeBps (poolState : PoolState) : Z :=
  match stateTradingFee poolState with
  | Some f => if f =? 0 then 100 else f
  | None => 100
  end.

(** The integers behind the three numbers of a [BuyOutput]: the fee in
    micro-USDC, the tokens leaving the curve and the tokens received, in
    base units. *)
Record BuyUnits : Type := {
  feeUnits : Z;
  projectOutUnits : Z;
  netOutUnits : Z
}.

(** The object [calculateBuyOutput] builds from them. *)
Definition outputOf (stableAmountIn : spec_float) (u : BuyUnits) : BuyOutput spec_float :=
  let out := SFdiv B64.prec B64.emax (lit (netOutUnits u)) (lit 1000000000) in
  {| tokensOut := out;
     pricePerToken := SFdiv B64.prec B64.emax stableAmountIn out;
     outputFee := SFdiv B64.prec B64.emax (lit (feeUnits u)) (lit 1000000) |}.

(** The integer arithmetic of [calculateBuyOutput] on an amount of [a]
    micro-USDC. *)
Definition buyUnits (poolState : PoolState) (a : Z) : BuyUnits :=
  let feeAmount := Z.quot (a * stateFeeBps poolState) 10000 in
  let totalStable := stableTotal (account poolState) in
  let totalToken := tokenTotal (account poolState) in
  let newToken := Z.quot (totalStable * totalToken) (totalStable + (a - feeAmount)) in
  let projectOut := totalToken - newToken in
  {| feeUnits := feeAmount;
     projectOutUnits := projectOut;
     netOutUnits :=
       projectOut - Z.quot (projectOut * buyTaxBps (account poolState)) 10000 |}.

(** The amount in micro-USDC the quote starts from:
    [new BN(Math.floor(stableAmountIn * 1e6))]. *)
Definition microUsdcOf (stableAmountIn : spec_float) : Completion BN.t :=
  BN.ofNumber (Math_floor (mul stableAmountIn (lit 1000000))).

(* ===================================================================== *)
(** * The BigInt price of the pool listing ([calculateBondingCurvePrice]) *)
(* ===================================================================== *)

Module Curve.

(** A pool as the listing holds it: the reserves convert with [BigInt],
    the virtual reserves may be missing. *)
Record CurvePool : Type := {
  reserveStable : Z;
  stableReserveVirtual : option Z;
  reserveProject : Z;
  tokenReserveVirtual : option Z
}.

(** [BigInt(x || 0)] *)
Definition bigIntOr0 (x : option Z) : Z :=
  match x with
  | Some v => v
  | None => 0
  end.

Definition calculateBondingCurvePrice {num : Type} `{JsNumber num} (pool : CurvePool)
  : Completion num :=
  JS.try_catch
    (let totalStable := reserveStable pool + bigIntOr0 (stableReserveVirtual pool) in
     let totalToken := reserveProject pool + bigIntOr0 (tokenReserveVirtual pool) in
     if totalToken =? 0 then Normal zero
     else
       (* [Number(bigint)] rounds to the nearest number *)
       Normal (div (Number_ofZ (Z.quot (totalStable * 1000) totalToken))
                   (Number_ofZ 1000)))
    (fun _ => Normal zero).

(** The listing entry of a pool account. *)
Definition ofPool (p : Pool) : CurvePool :=
  match p with
  | Build_Pool stable stableVirtual project tokenVirtual _ _ =>
      {| reserveStable := stable;
         stableReserveVirtual := Some stableVirtual;
         reserveProject := project;
         tokenReserveVirtual := Some tokenVirtual |}
  end.

End Curve.

(* ===================================================================== *)
(** * Reporting and retrying ([handleTransactionError], [retryWithBackoff]) *)
(* ===================================================================== *)

Module Handling.

Import Errors.
Local Open Scope string_scope.

(** What the user and the console get to see. *)
Inductive Effect : Type :=
| ConsoleError (label : string)
| ToastError (text : string).

(** [a || b] where [a] is a string and [b] may be [null] *)
Definition orFallback (a : string) (b : option string) : option string :=
  if String.eqb a EmptyString then b else Some a.

(** [a || b] where [a] may be [null] *)
Definition orDefault (a : option string) (b : string) : string :=
  match a with
  | Some s => if String.eqb s EmptyString then b else s
  | None => b
  end.

Definition handleTransactionError (error : option JsError) (fallbackMessage : option string)
  : list Effect * string :=
  let shown :=
    orDefault (orFallback (parseProgramError error) fallbackMessage)
              ERROR_MESSAGES.TRANSACTION_FAILED in
  ([ConsoleError "Transaction error:"; ToastError shown], shown).

(** ** [retryWithBackoff] *)

(** How a call of [fn] ends: it returns, or it throws an error object. *)
Inductive Outcome (A : Type) : Type :=
| Returned (a : A)
| Threw (error : JsError).
Arguments Returned {A} a.
Arguments Threw {A} error.

(** What [retryWithBackoff] does, in order: calls of [fn], numbered from
    0, and waits. *)
Inductive Step : Type :=
| Attempt (i : nat)
| Wait (ms : Z).

(** How the promise of [retryWithBackoff] settles; [RetryRejected None]
    is a rejection with [undefined]. *)
Inductive Settled (A : Type) : Type :=
| RetryFulfilled (a : A)
| RetryRejected (error : option JsError).
Arguments RetryFulfilled {A} a.
Arguments RetryRejected {A} error.

(** [error.message?.includes('User rejected')] *)
Definition userRejected (error : JsError) : bool :=
  match message error with
  | Some m => includes "User rejected" m
  | None => false
  end.

(** The [for] loop from index [i] on, with [remaining] iterations to go
    ([remaining = maxRetries - i]); [fn i] is how the call number [i] of
    [fn] ends. *)
Fixpoint retryLoop {A : Type} (fn : nat -> Outcome A) (maxRetries : nat) (baseDelay : Z)
    (remaining i : nat) (lastError : option JsError) : list Step * Settled A :=
  match remaining with
  | O => ([], RetryRejected lastError)
  | S remaining' =>
      match fn i with
      | Returned a => ([Attempt i], RetryFulfilled a)
      | Threw error =>
          (* Don't retry if user rejected *)
          if userRejected error then ([Attempt i], RetryRejected (Some error))
          else
            (* Wait before retrying *)
            let waits :=
              if (S i <? maxRetries)%nat then [Wait (baseDelay * 2 ^ Z.of_nat i)]
              else [] in
            let (steps, settled) :=
              retryLoop fn maxRetries baseDelay remaining' (S i) (Some error) in
            ((Attempt i :: waits ++ steps)%list, settled)
      end
  end.

Definition retryWithBackoff {A : Type} (fn : nat -> Outcome A) (maxRetries : nat)
    (baseDelay : Z) : list Step * Settled A :=
  retryLoop fn maxRetries baseDelay maxRetries 0 None.

(** The number of calls of [fn] among the steps. *)
Fixpoint attempts (steps : list Step) : nat :=
  match steps with
  | [] => 0
  | Attempt _ :: rest => S (attempts rest)
  | Wait _ :: rest => attempts rest
  end.

(** The time spent waiting. *)
Fixpoint waited (steps : list Step) : Z :=
  match steps with
  | [] => 0
  | Attempt _ :: rest => waited rest
  | Wait ms :: rest => ms + waited rest
  end.

(** The call number [i] throws an error that is not a rejection by the
    user. *)
Definition FailsAt {A : Type} (fn : nat -> Outcome A) (i : nat) : Prop :=
  exists error, fn i = Threw error /\ userRejected error = false.

(** A function that fails twice with a network error and then returns. *)
Definition flaky : nat -> Outcome string :=
  fun i =>
    if (i <? 2)%nat
    then Threw {| message := Some "Blockhash not found";
                  toString := "Error: Blockhash not found" |}
    else Returned "signature".

(** A function whose second call is rejected in the wallet. *)
Definition declined : nat -> Outcome string :=
  fun i =>
    if (i <? 1)%nat
    then Threw {| message := Some "Blockhash not found";
                  toString := "Error: Blockhash not found" |}
    else Threw Payloads.rejectedError.

(** A function that always fails with a network error. *)
Definition down : nat -> Outcome string :=
  fun _ => Threw {| message := Some "fetch failed"; toString := "TypeError: fetch failed" |}.

End Handling.

(* ===================================================================== *)
(** * Builders with a compute budget, associated token accounts *)
(* ===================================================================== *)

Module RAYDIUM_UNITS.
(** [COMPUTE_UNITS.RAYDIUM_SWAP] and [COMPUTE_UNITS.RAYDIUM_CREATE] *)
Definition RAYDIUM_SWAP : Z := 600000.
Definition RAYDIUM_CREATE : Z := 400000.
End RAYDIUM_UNITS.

Module Builders.

Import Pipeline.
Local Open Scope string_scope.

(** [addComputeBudget(units)] with the default price per unit *)
Definition createTradingTransactionBuilder (c : Connection) (w : option Wallet)
    (isRaydium : bool) : TransactionBuilder :=
  let builder := newTransactionBuilder c w in
  let computeUnits :=
    if isRaydium then RAYDIUM_UNITS.RAYDIUM_SWAP else COMPUTE_UNITS.DEFAULT in
  addComputeBudget computeUnits COMPUTE_UNITS.MICROLAMPORTS_PER_UNIT builder.

Definition createPoolTransactionBuilder (c : Connection) (w : option Wallet)
  : TransactionBuilder :=
  let builder := newTransactionBuilder c w in
  addComputeBudget COMPUTE_UNITS.DEFAULT COMPUTE_UNITS.MICROLAMPORTS_PER_UNIT builder.

Definition createRaydiumPoolTransactionBuilder (c : Connection) (w : option Wallet)
  : TransactionBuilder :=
  let builder := newTransactionBuilder c w in
  addComputeBudget RAYDIUM_UNITS.RAYDIUM_CREATE COMPUTE_UNITS.MICROLAMPORTS_PER_UNIT builder.

(** [addInstruction] and [addSigner] called for each element in turn. *)
Definition addInstructions (ixs : list Instruction) (b : TransactionBuilder)
  : TransactionBuilder :=
  fold_left (fun b ix => addInstruction ix b) ixs b.

Definition addSigners (signers : list string) (b : TransactionBuilder)
  : TransactionBuilder :=
  fold_left (fun b signer => addSigner signer b) signers b.

(** What [getAccountInfo] resolves to for an existing account. *)
Record AccountInfo : Type := {
  lamports : Z;
  accountOwner : string
}.

(** An entry of the array given to [addMultipleATAs]. *)
Record AtaRequest : Type := {
  ata : string;
  owner : string;
  mint : string
}.

Section AssociatedAccounts.

(** [connection.getAccountInfo]: the account, [None] for [null] when there
    is none, or a failed request. *)
Variable getAccountInfo : string -> Completion (option AccountInfo).

(** [createAssociatedTokenAccountInstruction(payer, ata, owner, mint)] *)
Variable createAssociatedTokenAccountInstruction :
  string -> string -> string -> string -> Instruction.

(** [payer || this.wallet.publicKey]; reading [publicKey] of a missing
    wallet throws. *)
Definition payerOf (payer : option string) (b : TransactionBuilder) : Completion string :=
  match payer with
  | Some p => Normal p
  | None =>
      match wallet b with
      | Some w => Normal (publicKey w)
      | None => Throw "TypeError: Cannot read properties of null"
      end
  end.

Definition addCreateATAIfNeeded (ata owner mint : string) (payer : option string)
    (b : TransactionBuilder) : TransactionBuilder :=
  let attempt :=
    JS.try_catch
      (JS.bind (getAccountInfo ata) (fun ataInfo =>
         match ataInfo with
         | None =>
             JS.bind (payerOf payer b) (fun payerKey =>
               Normal (addInstruction
                         (createAssociatedTokenAccountInstruction payerKey ata owner mint)
                         b))
         | Some _ => Normal b
         end))
      (fun _ => Normal b) in
  match attempt with
  | Normal b' => b'
  | Throw _ => b
  end.

Definition addMultipleATAs (atas : list AtaRequest) (b : TransactionBuilder)
  : TransactionBuilder :=
  fold_left
    (fun b request => addCreateATAIfNeeded (ata request) (owner request) (mint request) None b)
    atas b.

(** The account is reported missing. *)
Definition missing (request : AtaRequest) : bool :=
  match getAccountInfo (ata request) with
  | Normal None => true
  | _ => false
  end.

End AssociatedAccounts.

(** Is the call a submission to the cluster? *)
Definition isSend (c : Call) : bool :=
  match c with
  | CallSendRawTransaction _ _ => true
  | _ => false
  end.

(** Is the call a request to the wallet? *)
Definition isSign (c : Call) : bool :=
  match c with
  | CallSignTransaction _ => true
  | _ => false
  end.

End Builders.

(* ===================================================================== *)
(** * Token ordering for Raydium ([getTokenOrder]) *)
(* ===================================================================== *)

Module TokenOrder.

(** A public key, as the bytes [toBuffer()] gives. *)
Definition PublicKey : Type := list Byte.byte.

(** [a.compare(b)] on buffers: -1, 0 or 1, bytes compared as unsigned
    numbers from the first on, a proper prefix sorting first. *)
Fixpoint Buffer_compare (a b : list Byte.byte) : Z :=
  match a, b with
  | [], [] => 0
  | [], _ :: _ => -1
  | _ :: _, [] => 1
  | x :: a', y :: b' =>
      match N.compare (Byte.to_N x) (Byte.to_N y) with
      | Lt => -1
      | Gt => 1
      | Eq => Buffer_compare a' b'
      end
  end.

Record Ordering : Type := {
  token0 : PublicKey;
  token1 : PublicKey;
  isFirstToken0 : bool
}.

Definition getTokenOrder (mintA mintB : PublicKey) : Ordering :=
  let comparison := Buffer_compare mintA mintB in
  if comparison <? 0
  then {| token0 := mintA; token1 := mintB; isFirstToken0 := true |}
  else {| token0 := mintB; token1 := mintA; isFirstToken0 := false |}.

End TokenOrder.

(* ===================================================================== *)
(** * More pools, amounts and accounts *)
(* ===================================================================== *)

(** The scenario pool as [calculateBuyOutput] reads it; the account has no
    [tradingFee]. *)
Definition scenarioState : PoolState :=
  {| account := scenarioPool; stateTradingFee := None |}.

(** A pool that holds tokens and nothing, real or virtual, on the stable
    side. *)
Definition unfundedPool : Pool :=
  {| reserveStableMint := 0;
     stableReserveVirtual := 0;
     reserveProjectMint := 1000000000000000;
     tokenReserveVirtual := 0;
     totalSellAmount := 1000000000000000;
     params := None |}.

Definition unfundedState : PoolState :=
  {| account := unfundedPool; stateTradingFee := None |}.

Definition tradedState : PoolState :=
  {| account := tradedPool; stateTradingFee := None |}.

(** [0.0000001], a tenth of a micro-USDC *)
Definition tenthOfMicro : spec_float :=
  SFdiv B64.prec B64.emax (lit 1) (lit 10000000).

(** A pool with 10^16 micro-USDC against a single base unit of the token:
    the price quotient is 10^19. *)
Definition lopsidedPool : Pool :=
  {| reserveStableMint := 0;
     stableReserveVirtual := 10000000000000000;
     reserveProjectMint := 1;
     tokenReserveVirtual := 0;
     totalSellAmount := 1;
     params := None |}.

(** A pool that has sold 600 of the 1000 base units put on sale. *)
Definition busyPool : Pool :=
  {| reserveStableMint := 18000;
     stableReserveVirtual := 30000;
     reserveProjectMint := 400;
     tokenReserveVirtual := 0;
     totalSellAmount := 1000;
     params := Some {| buyTax := 200; sellTax := 300 |} |}.

Module Accounts.

Import Pipeline Builders.
Local Open Scope string_scope.

(** A cluster on which no token account exists yet. *)
Definition noAccounts : string -> Completion (option AccountInfo) :=
  fun _ => Normal None.

(** The creation instruction, by the account it creates and who pays. *)
Definition createAta (payer ata owner mint : string) : Instruction :=
  ProgramInstruction ("create " ++ ata ++ " for " ++ owner ++ " paid by " ++ payer).

Definition userUsdc : AtaRequest :=
  {| ata := "user-usdc-account"; owner := "payer"; mint := "usdc" |}.

Definition userToken : AtaRequest :=
  {| ata := "user-token-account"; owner := "payer"; mint := "project" |}.

(** The wallet adapter while no wallet is connected: there is an object,
    it cannot sign. *)
Definition walletWithoutSigner : Wallet :=
  {| publicKey := "payer"; signTransaction := None |}.

End Accounts.

Module Mints.

(** Two mints that differ in their first byte. *)
Definition mintOne : TokenOrder.PublicKey := [Byte.x01; Byte.xff].
Definition mintTwo : TokenOrder.PublicKey := [Byte.x02; Byte.x00].

End Mints.

(* ===================================================================== *)
(** * Degenerate inputs of the quote functions *)
(* ===================================================================== *)

Section DegenerateInputs.

Lemma zeroQuote_b64 : zeroQuote (num := spec_float) None = allZeroQuote.
Proof. reflexivity. Qed.

Lemma negative_is_le_zero (x : spec_float) :
  SFltb x posZero = true -> SFleb x posZero = true.
Proof.
  unfold SFltb, SFleb.
  destruct (SFcompare x posZero) as [[ | | ] | ]; congruence.
Qed.

Lemma degenerate_amount_guard (p : Pool) (amount : Val spec_float) :
  DegenerateAmount amount -> degenerate (Some p) amount = true.
Proof.
  intros Hd; destruct Hd as [ | | s | | x Hneg]; simpl; try reflexivity.
  apply orb_true_iff; right.
  exact (negative_is_le_zero x Hneg).
Qed.

Lemma degenerate_buy (poolData : option Pool) amount config :
  poolData = None \/ DegenerateAmount amount ->
  calculateBuyTokensOut poolData amount config = Normal allZeroQuote.
Proof.
  intros [-> | Hd]; [reflexivity | ].
  destruct poolData as [p | ]; [ | reflexivity].
  unfold calculateBuyTokensOut.
  destruct amount as [ | | x]; try reflexivity.
  rewrite (degenerate_amount_guard p _ Hd). reflexivity.
Qed.

Lemma degenerate_sell (poolData : option Pool) amount config :
  poolData = None \/ DegenerateAmount amount ->
  calculateSellUsdcOut poolData amount config = Normal allZeroQuote.
Proof.
  intros [-> | Hd]; [reflexivity | ].
  destruct poolData as [p | ]; [ | reflexivity].
  unfold calculateSellUsdcOut.
  destruct amount as [ | | x]; try reflexivity.
  rewrite (degenerate_amount_guard p _ Hd). reflexivity.
Qed.

End DegenerateInputs.

(** C8: for an amount that is zero, negative or undefined (also null or
    NaN), and for a missing pool, both [calculateBuyTokensOut] and
    [calculateSellUsdcOut] complete normally, without raising, and return
    the object whose output amount, price impact and fee are all 0. *)
Theorem degenerate_inputs_give_zero_quotes :
  forall (poolData : option Pool) (amount : Val spec_float) (config : option Config),
    poolData = None \/ DegenerateAmount amount ->
    calculateBuyTokensOut poolData amount config = Normal allZeroQuote /\
    calculateSellUsdcOut poolData amount config = Normal allZeroQuote.
Proof.
  intros poolData amount config Hin; split.
  - apply degenerate_buy; exact Hin.
  - apply degenerate_sell; exact Hin.
Qed.

Lemma degenerate_inputs_give_zero_quotes_witness :
  SFltb (lit (-5)) posZero = true /\
  calculateBuyTokensOut (Some scenarioPool) (Num (lit (-5))) (Some scenarioConfig)
    = Normal allZeroQuote /\
  calculateSellUsdcOut (Some scenarioPool) (Num (lit (-5))) (Some scenarioConfig)
    = Normal allZeroQuote.
Proof.
  split; [reflexivity | ].
  apply (degenerate_inputs_give_zero_quotes
           (Some scenarioPool) (Num (lit (-5))) (Some scenarioConfig)).
  right; apply amount_negative; reflexivity.
Defined.

(* ===================================================================== *)
(** * Signs of rounded results *)
(* ===================================================================== *)

Section RoundingSigns.

Let prec := B64.prec.
Let emax := B64.emax.

Lemma shr_1_nonneg (mrs : shr_record) :
  0 <= shr_m mrs -> 0 <= shr_m (shr_1 mrs).
Proof.
  destruct mrs as [m r s]; simpl.
  destruct m as [ | p | p]; [ | destruct p | ]; simpl; lia.
Qed.

Lemma iter_pos_invariant {A : Type} (P : A -> Prop) (f : A -> A) :
  (forall a, P a -> P (f a)) ->
  forall (n : positive) (a : A), P a -> P (iter_pos f n a).
Proof.
  intros Hf n; induction n as [n IH | n IH | ]; intros a Ha; simpl.
  - apply IH, IH, Hf, Ha.
  - apply IH, IH, Ha.
  - apply Hf, Ha.
Qed.

Lemma shr_nonneg (mrs : shr_record) (e n : Z) :
  0 <= shr_m mrs -> 0 <= shr_m (fst (shr mrs e n)).
Proof.
  intros Hm; unfold shr.
  destruct n as [ | p | p]; simpl; try exact Hm.
  apply (iter_pos_invariant (fun r => 0 <= shr_m r)); [exact shr_1_nonneg | exact Hm].
Qed.

Lemma shr_record_of_loc_m (m : Z) (l : location) :
  shr_m (shr_record_of_loc m l) = m.
Proof. destruct l as [ | [ | | ]]; reflexivity. Qed.

Lemma shr_fexp_nonneg (m e : Z) (l : location) :
  0 <= m -> 0 <= shr_m (fst (shr_fexp prec emax m e l)).
Proof.
  intros Hm; unfold shr_fexp.
  apply shr_nonneg. rewrite shr_record_of_loc_m. exact Hm.
Qed.

Lemma round_nearest_even_nonneg (m : Z) (l : location) :
  0 <= m -> 0 <= round_nearest_even m l.
Proof.
  intros Hm; unfold round_nearest_even.
  destruct l as [ | [ | | ]]; try exact Hm; [destruct (Z.even m) | ]; lia.
Qed.

Lemma binary_round_aux_nonneg (m e : Z) (l : location) :
  0 <= m -> nonNegative (binary_round_aux prec emax false m e l) = true.
Proof.
  intros Hm; unfold binary_round_aux.
  pose proof (shr_fexp_nonneg m e l Hm) as H1.
  destruct (shr_fexp prec emax m e l) as [mrs' e']; simpl in H1.
  pose proof (shr_fexp_nonneg
                (round_nearest_even (shr_m mrs') (loc_of_shr_record mrs')) e' loc_Exact
                (round_nearest_even_nonneg _ _ H1)) as H2.
  destruct (shr_fexp prec emax _ e' loc_Exact) as [mrs'' e'']; simpl in H2.
  destruct (shr_m mrs'') as [ | p | p]; [reflexivity | | lia].
  destruct (e'' <=? emax - prec); reflexivity.
Qed.

Lemma lit_nonneg (z : Z) : 0 <= z -> nonNegative (lit z) = true.
Proof.
  intros Hz; unfold lit, B64.ofZ, binary_normalize.
  destruct z as [ | p | p]; [reflexivity | | lia].
  unfold binary_round.
  destruct (shl_align p 0 _) as [mz ez].
  apply binary_round_aux_nonneg; lia.
Qed.

Lemma div_eucl_quotient_nonneg (a b : Z) :
  0 <= a -> 0 < b -> 0 <= fst (Z.div_eucl a b).
Proof.
  intros Ha Hb. change (fst (Z.div_eucl a b)) with (a / b).
  apply Z.div_pos; assumption.
Qed.

Lemma div_by_positive_nonneg (x : spec_float) (m : positive) (e : Z) :
  nonNegative x = true ->
  nonNegative (SFdiv prec emax x (S754_finite false m e)) = true.
Proof.
  destruct x as [s | s | | s mx ex]; try discriminate;
    destruct s; try discriminate; intros _; try reflexivity.
  unfold SFdiv, SFdiv_core_binary.
  set (e' := Z.min _ _).
  set (m' := match ex - e - e' with Z0 => Zpos mx | Zpos _ => _ | Zneg _ => 0 end).
  assert (Hm' : 0 <= m').
  { subst m'. destruct (ex - e - e') as [ | p | p]; try lia.
    apply Z.shiftl_nonneg; lia. }
  pose proof (div_eucl_quotient_nonneg m' (Zpos m) Hm' (Pos2Z.is_pos m)) as Hq.
  destruct (Z.div_eucl m' (Zpos m)) as [q r]; simpl in Hq.
  apply binary_round_aux_nonneg; exact Hq.
Qed.

End RoundingSigns.

(* ===================================================================== *)
(** * Integers below 2^53 are stored exactly *)
(* ===================================================================== *)

(** The float library computes with the core integer operations; these
    are the Standard Library's, under another name. *)
Ltac zfold :=
  change IntDef.Z.max with Z.max in *;
  change IntDef.Z.min with Z.min in *;
  change IntDef.Z.sub with Z.sub in *;
  change IntDef.Z.add with Z.add in *;
  change IntDef.Z.mul with Z.mul in *;
  change IntDef.Z.opp with Z.opp in *;
  change IntDef.Z.leb with Z.leb in *;
  change IntDef.Z.ltb with Z.ltb in *;
  change IntDef.Z.eqb with Z.eqb in *;
  change IntDef.Z.compare with Z.compare in *.

Lemma digits2_pos_lower (p : positive) :
  2 ^ (Zpos (digits2_pos p) - 1) <= Zpos p.
Proof.
  induction p as [p IH | p IH | ]; cbn [digits2_pos].
  - rewrite Pos2Z.inj_succ. replace (Z.succ (Zpos (digits2_pos p)) - 1) with (Z.succ (Zpos (digits2_pos p) - 1)) by lia.
    rewrite Z.pow_succ_r by lia. lia.
  - rewrite Pos2Z.inj_succ. replace (Z.succ (Zpos (digits2_pos p)) - 1) with (Z.succ (Zpos (digits2_pos p) - 1)) by lia.
    rewrite Z.pow_succ_r by lia. lia.
  - simpl. lia.
Qed.

Lemma digits2_pos_bound (p : positive) (n : Z) :
  Zpos p < 2 ^ n -> 0 <= n -> Zpos (digits2_pos p) <= n.
Proof.
  intros Hp Hn.
  destruct (Z_le_gt_dec (Zpos (digits2_pos p)) n) as [H | H]; [exact H | exfalso].
  pose proof (digits2_pos_lower p) as Hl.
  assert (2 ^ n <= 2 ^ (Zpos (digits2_pos p) - 1)) by (apply Z.pow_le_mono_r; lia).
  lia.
Qed.

Lemma iter_xO_digits (k p : positive) :
  digits2_pos (Pos.iter xO p k) = (digits2_pos p + k)%positive.
Proof.
  induction k as [ | k IH] using Pos.peano_ind.
  - simpl. lia.
  - rewrite Pos.iter_succ. cbn [digits2_pos]. rewrite IH. lia.
Qed.

Lemma iter_xO_value (k p : positive) :
  Zpos (Pos.iter xO p k) = Zpos p * 2 ^ Zpos k.
Proof.
  induction k as [ | k IH] using Pos.peano_ind.
  - simpl. lia.
  - rewrite Pos.iter_succ. rewrite Pos2Z.inj_xO, IH, Pos2Z.inj_succ, Z.pow_succ_r by lia. lia.
Qed.

Lemma binary_round_small (s : bool) (p : positive) :
  Zpos p < 2 ^ 53 ->
  binary_round 53 1024 s p 0 = S754_finite s (fst (normalised p)) (snd (normalised p)).
Proof.
  intros Hp.
  pose proof (digits2_pos_bound p 53 Hp ltac:(lia)) as Hd.
  unfold binary_round, normalised.
  assert (Hf : fexp 53 1024 (Zpos (digits2_pos p) + 0) = Zpos (digits2_pos p) - 53).
  { unfold fexp, emin. zfold. lia. }
  rewrite Hf.
  remember (Zpos (digits2_pos p) - 53) as e0 eqn:He0.
  destruct (shl_align p 0 e0) as [mz ez] eqn:Hal.
  assert (Hdig : Zpos (digits2_pos mz) = 53 /\ ez = e0).
  { unfold shl_align in Hal. zfold.
    destruct (e0 - 0) as [ | k | k] eqn:Hk; injection Hal as <- <-.
    - lia.
    - lia.
    - rewrite iter_xO_digits. lia. }
  destruct Hdig as [Hdig ->].
  unfold binary_round_aux, shr_fexp.
  cbn [Zdigits2]. rewrite Hdig.
  assert (Hf2 : fexp 53 1024 (53 + e0) - e0 = 0) by (unfold fexp, emin; zfold; lia).
  zfold. rewrite Hf2.
  cbn [shr shr_record_of_loc shr_m loc_of_shr_record round_nearest_even Zdigits2 fst snd].
  rewrite Hdig. zfold. rewrite Hf2. cbn [shr shr_m fst snd].
  replace (e0 <=? 1024 - 53) with true by (symmetry; apply Z.leb_le; lia).
  reflexivity.
Qed.

Lemma normalised_value (p : positive) :
  Zpos p < 2 ^ 53 ->
  snd (normalised p) <= 0 /\
  Zpos (fst (normalised p)) = Zpos p * 2 ^ (- snd (normalised p)).
Proof.
  intros Hp.
  pose proof (digits2_pos_bound p 53 Hp ltac:(lia)) as Hd.
  unfold normalised, shl_align. zfold.
  remember (Zpos (digits2_pos p) - 53) as e0 eqn:He0.
  destruct (e0 - 0) as [ | k | k] eqn:Hk; cbn [fst snd].
  - split; [lia | ]. simpl. lia.
  - lia.
  - split; [lia | ]. rewrite iter_xO_value. f_equal. f_equal. lia.
Qed.

Lemma Qpower_2_nonpos (e : Z) :
  e <= 0 -> (2 ^ e == / inject_Z (2 ^ (- e)))%Q.
Proof.
  intros He.
  rewrite Zpower_Qpower by lia.
  rewrite <- Qpower_opp. rewrite Z.opp_involutive. reflexivity.
Qed.

Lemma view_small_integer (s : bool) (p : positive) :
  Zpos p < 2 ^ 53 ->
  exists q : Q,
    B64.toView (binary_round 53 1024 s p 0) = VFinite q /\
    (q == inject_Z (cond_Zopp s (Zpos p)))%Q.
Proof.
  intros Hp. rewrite (binary_round_small s p Hp).
  destruct (normalised_value p Hp) as [He Hm].
  eexists; split; [reflexivity | ].
  rewrite (Qpower_2_nonpos _ He).
  assert (Hpow : 0 < 2 ^ (- snd (normalised p))) by (apply Z.pow_pos_nonneg; lia).
  assert (Hz : cond_Zopp s (Zpos (fst (normalised p)))
               = cond_Zopp s (Zpos p) * 2 ^ (- snd (normalised p))).
  { destruct s; cbn [cond_Zopp]; zfold; rewrite ?Pos2Z.opp_pos; lia. }
  rewrite Hz, inject_Z_mult.
  field. intros H0.
  assert (H1 : 2 ^ (- snd (normalised p)) = 0).
  { apply (inject_Z_injective _ 0). exact H0. }
  lia.
Qed.

Lemma ofNumber_integer (x : spec_float) (q : Q) (z : Z) :
  B64.toView x = VFinite q -> (q == inject_Z z)%Q ->
  BN.ofNumber x = if Z.abs z <? 2 ^ 53 then Normal z else Throw "Assertion failed".
Proof.
  intros Hv Hq.
  assert (Hfl : Qfloor (Qabs q) = Z.abs z).
  { rewrite Hq. change (Qabs (inject_Z z)) with (inject_Z (Z.abs z)). apply Qfloor_Z. }
  assert (Hsign : Qle_bool 0 q = (0 <=? z)).
  { rewrite Hq. change 0%Q with (inject_Z 0).
    destruct (0 <=? z) eqn:Hz.
    - apply Qle_bool_iff. rewrite <- Zle_Qle. apply Z.leb_le, Hz.
    - destruct (Qle_bool (inject_Z 0) (inject_Z z)) eqn:Hle; [ | reflexivity].
      apply Qle_bool_iff in Hle. rewrite <- Zle_Qle in Hle.
      apply Z.leb_le in Hle. congruence. }
  unfold BN.ofNumber. cbn [view Binary64]. rewrite Hv. cbv zeta.
  rewrite Hfl, Hsign.
  destruct (Z.abs z <? 2 ^ 53); [ | reflexivity].
  f_equal. destruct (0 <=? z) eqn:Hz; [apply Z.leb_le in Hz | apply Z.leb_gt in Hz]; lia.
Qed.

Lemma floorOf_nonneg_exponent (s : bool) (m : positive) (e : Z) :
  0 <= e ->
  (inject_Z (cond_Zopp s (Zpos m)) * 2 ^ e
     == inject_Z (cond_Zopp s (Zpos m) * 2 ^ e))%Q.
Proof.
  intros He. rewrite inject_Z_mult, Zpower_Qpower by exact He. reflexivity.
Qed.

Lemma floorOf_neg_exponent (s : bool) (m : positive) (e : Z) :
  e < 0 ->
  floorOf s m e = Z.shiftr (cond_Zopp s (Zpos m)) (- e).
Proof.
  intros He. unfold floorOf.
  rewrite Z.shiftr_div_pow2 by lia.
  rewrite Zdiv_Qdiv. apply Qfloor_comp.
  rewrite (Qpower_2_nonpos e) by lia. reflexivity.
Qed.

Lemma shiftr_small (a k : Z) :
  0 <= k -> Z.abs (Z.shiftr a k) <= Z.abs a.
Proof.
  intros Hk. rewrite Z.shiftr_div_pow2 by exact Hk.
  assert (Hp : 0 < 2 ^ k) by (apply Z.pow_pos_nonneg; lia).
  destruct (Z_le_gt_dec 0 a) as [Ha | Ha].
  - assert (0 <= a / 2 ^ k) by (apply Z.div_pos; lia).
    assert (a / 2 ^ k <= a) by (apply Z.div_le_upper_bound; nia).
    lia.
  - assert (a / 2 ^ k <= 0) by (apply Z.div_le_upper_bound; lia).
    assert (a <= a / 2 ^ k) by (apply Z.div_le_lower_bound; nia).
    lia.
Qed.

Lemma floor_then_BN (s : bool) (m : positive) (e : Z) :
  Zpos m < 2 ^ 53 ->
  BN.ofNumber (B64.floor (S754_finite s m e)) =
    if Z.abs (floorOf s m e) <? 2 ^ 53
    then Normal (floorOf s m e) else Throw "Assertion failed".
Proof.
  intros Hm. unfold B64.floor.
  destruct (0 <=? e) eqn:He; cbv iota.
  - apply Z.leb_le in He.
    rewrite (ofNumber_integer (S754_finite s m e) _ (cond_Zopp s (Zpos m) * 2 ^ e)
               eq_refl (floorOf_nonneg_exponent s m e He)).
    assert (Hfo : floorOf s m e = cond_Zopp s (Zpos m) * 2 ^ e).
    { unfold floorOf. rewrite (floorOf_nonneg_exponent s m e He). apply Qfloor_Z. }
    rewrite Hfo. reflexivity.
  - apply Z.leb_gt in He.
    rewrite (floorOf_neg_exponent s m e He).
    set (z := Z.shiftr (cond_Zopp s (Zpos m)) (- e)).
    assert (Hz : Z.abs z < 2 ^ 53).
    { pose proof (shiftr_small (cond_Zopp s (Zpos m)) (- e) ltac:(lia)) as Hs.
      fold z in Hs. destruct s; cbn [cond_Zopp] in Hs; zfold; lia. }
    assert (Hzb : (Z.abs z <? 2 ^ 53) = true) by (apply Z.ltb_lt; exact Hz).
    rewrite Hzb.
    unfold binary_normalize, B64.prec, B64.emax. destruct z as [ | p | p].
    + rewrite (ofNumber_integer (S754_zero s) 0%Q 0 eq_refl); reflexivity.
    + destruct (view_small_integer false p ltac:(lia)) as [q [Hv Hq]].
      rewrite (ofNumber_integer _ q (Zpos p) Hv Hq). rewrite Hzb. reflexivity.
    + destruct (view_small_integer true p ltac:(lia)) as [q [Hv Hq]].
      rewrite (ofNumber_integer _ q (Zneg p) Hv Hq). rewrite Hzb. reflexivity.
Qed.

(* ===================================================================== *)
(** * Shifts, mantissas and positive results *)
(* ===================================================================== *)

Lemma digits2_pos_upper (p : positive) :
  Zpos p < 2 ^ Zpos (digits2_pos p).
Proof.
  induction p as [p IH | p IH | ]; cbn [digits2_pos];
    rewrite ?Pos2Z.inj_succ, ?Z.pow_succ_r by lia; lia.
Qed.

Lemma shr_1_half (r : shr_record) :
  0 <= shr_m r -> shr_m (shr_1 r) = shr_m r / 2.
Proof.
  destruct r as [m b s]; cbn [shr_m shr_1]; intros Hm.
  destruct m as [ | p | p]; [reflexivity | | lia].
  destruct p as [p | p | ]; cbn [shr_m].
  - rewrite Pos2Z.inj_xI. apply Z.div_unique with (r := 1); lia.
  - rewrite Pos2Z.inj_xO. apply Z.div_unique with (r := 0); lia.
  - reflexivity.
Qed.

Lemma iter_shr_1 (n : positive) (r : shr_record) :
  0 <= shr_m r ->
  0 <= shr_m (iter_pos shr_1 n r) /\
  shr_m (iter_pos shr_1 n r) = shr_m r / 2 ^ Zpos n.
Proof.
  revert r; induction n as [n IH | n IH | ]; intros r Hr; cbn [iter_pos];
    try assert (Hp : 0 < 2 ^ Zpos n) by (apply Z.pow_pos_nonneg; lia).
  - pose proof (shr_1_nonneg _ Hr) as H0.
    destruct (IH _ H0) as [H1 E1].
    destruct (IH _ H1) as [H2 E2].
    split; [exact H2 | ].
    rewrite E2, E1, shr_1_half by exact Hr.
    rewrite !Z.div_div by lia.
    f_equal.
    assert (Hpow : 2 ^ Zpos n~1 = 2 * (2 ^ Zpos n * 2 ^ Zpos n)).
    { rewrite <- Z.pow_add_r, <- Z.pow_succ_r by lia. f_equal. lia. }
    rewrite Hpow. ring.
  - destruct (IH r Hr) as [H1 E1].
    destruct (IH _ H1) as [H2 E2].
    split; [exact H2 | ].
    rewrite E2, E1, Z.div_div by lia.
    f_equal.
    assert (Hpow : 2 ^ Zpos n~0 = 2 ^ Zpos n * 2 ^ Zpos n).
    { rewrite <- Z.pow_add_r by lia. f_equal. lia. }
    rewrite Hpow. reflexivity.
  - split; [apply shr_1_nonneg, Hr | ].
    rewrite shr_1_half by exact Hr. reflexivity.
Qed.

(** The shift [shr_fexp] applies, and what it leaves. *)
Lemma shr_fexp_shift (m e : Z) (l : location) :
  0 < m ->
  let n := fexp 53 1024 (Zdigits2 m + e) - e in
  shr_m (fst (shr_fexp 53 1024 m e l)) = (if 0 <? n then m / 2 ^ n else m) /\
  snd (shr_fexp 53 1024 m e l) = (if 0 <? n then e + n else e).
Proof.
  intros Hm n. unfold shr_fexp. zfold. fold n.
  unfold shr. destruct n as [ | p | p]; cbn [fst snd];
    rewrite ?shr_record_of_loc_m; try (split; reflexivity).
  destruct (iter_shr_1 p (shr_record_of_loc m l)) as [_ E].
  { rewrite shr_record_of_loc_m. lia. }
  rewrite E, shr_record_of_loc_m. split; reflexivity.
Qed.

Lemma fexp_lower (x : Z) : x - 53 <= fexp 53 1024 x /\ emin 53 1024 <= fexp 53 1024 x.
Proof. unfold fexp, emin. zfold. lia. Qed.

Lemma shr_fexp_bounded (m e : Z) (l : location) :
  0 < m -> 0 <= shr_m (fst (shr_fexp 53 1024 m e l)) < 2 ^ 53.
Proof.
  intros Hm.
  destruct (shr_fexp_shift m e l Hm) as [-> _].
  destruct m as [ | p | p]; try lia. cbn [Zdigits2].
  pose proof (digits2_pos_upper p) as Hup.
  pose proof (fexp_lower (Zpos (digits2_pos p) + e)) as [Hlo _].
  set (n := fexp 53 1024 (Zpos (digits2_pos p) + e) - e) in *.
  assert (Hn : Zpos (digits2_pos p) - 53 <= n) by lia.
  destruct (0 <? n) eqn:Hpos.
  - apply Z.ltb_lt in Hpos.
    assert (H2n : 0 < 2 ^ n) by (apply Z.pow_pos_nonneg; lia).
    split; [apply Z.div_pos; lia | ].
    apply Z.div_lt_upper_bound; [exact H2n | ].
    rewrite <- Z.pow_add_r by lia.
    apply Z.lt_le_trans with (1 := Hup).
    apply Z.pow_le_mono_r; lia.
  - apply Z.ltb_ge in Hpos. split; [lia | ].
    apply Z.lt_le_trans with (1 := Hup).
    apply Z.pow_le_mono_r; lia.
Qed.

Lemma shr_fexp_positive (m e : Z) (l : location) :
  0 < m -> emin 53 1024 <= e ->
  0 < shr_m (fst (shr_fexp 53 1024 m e l)) /\
  emin 53 1024 <= snd (shr_fexp 53 1024 m e l).
Proof.
  intros Hm He.
  destruct (shr_fexp_shift m e l Hm) as [-> ->].
  destruct m as [ | p | p]; try lia. cbn [Zdigits2].
  pose proof (digits2_pos_lower p) as Hlow.
  set (d := Zpos (digits2_pos p)) in *.
  assert (Hd : 0 < d) by (subst d; lia).
  assert (Hn : fexp 53 1024 (d + e) - e = Z.max (d - 53) (emin 53 1024 - e)).
  { unfold fexp. zfold. lia. }
  rewrite Hn.
  destruct (0 <? Z.max (d - 53) (emin 53 1024 - e)) eqn:Hpos.
  - apply Z.ltb_lt in Hpos.
    assert (Hmax : Z.max (d - 53) (emin 53 1024 - e) = d - 53) by lia.
    rewrite Hmax. split; [ | lia].
    apply Z.div_str_pos. split; [apply Z.pow_pos_nonneg; lia | ].
    apply Z.le_trans with (2 := Hlow).
    apply Z.pow_le_mono_r; lia.
  - split; [lia | exact He].
Qed.

Lemma shr_fexp_zero (e : Z) (l : location) :
  shr_m (fst (shr_fexp 53 1024 0 e l)) = 0.
Proof.
  unfold shr_fexp. zfold.
  generalize (fexp 53 1024 (Zdigits2 0 + e) - e). intros n.
  unfold shr. destruct n as [ | p | p]; cbn [fst];
    rewrite ?shr_record_of_loc_m; try reflexivity.
  destruct (iter_shr_1 p (shr_record_of_loc 0 l)) as [_ E].
  { rewrite shr_record_of_loc_m. lia. }
  rewrite E, shr_record_of_loc_m. apply Z.div_0_l.
  apply Z.pow_nonzero; lia.
Qed.

Lemma round_nearest_even_ge (m : Z) (l : location) :
  m <= round_nearest_even m l.
Proof.
  unfold round_nearest_even.
  destruct l as [ | [ | | ]]; try lia. destruct (Z.even m); lia.
Qed.

(** A rounded result carries at most 53 digits. *)
Lemma binary_round_aux_mantissa (s : bool) (m e : Z) (l : location)
    (s' : bool) (m' : positive) (e' : Z) :
  0 <= m ->
  binary_round_aux 53 1024 s m e l = S754_finite s' m' e' ->
  Zpos m' < 2 ^ 53.
Proof.
  intros Hm. unfold binary_round_aux.
  pose proof (shr_fexp_nonneg m e l Hm) as H1.
  change B64.prec with 53 in H1. change B64.emax with 1024 in H1.
  destruct (shr_fexp 53 1024 m e l) as [mrs1 e1]; cbn [fst] in H1.
  set (m2 := round_nearest_even (shr_m mrs1) (loc_of_shr_record mrs1)).
  assert (Hm2 : 0 <= m2) by (apply round_nearest_even_nonneg; exact H1).
  destruct (Z.eq_dec m2 0) as [Hz | Hnz].
  - rewrite Hz. pose proof (shr_fexp_zero e1 loc_Exact) as Hzero.
    destruct (shr_fexp 53 1024 0 e1 loc_Exact) as [mrs2 e2]; cbn [fst] in Hzero.
    rewrite Hzero. discriminate.
  - pose proof (shr_fexp_bounded m2 e1 loc_Exact ltac:(lia)) as Hb.
    destruct (shr_fexp 53 1024 m2 e1 loc_Exact) as [mrs2 e2]; cbn [fst] in Hb.
    destruct (shr_m mrs2) as [ | p | p]; try discriminate.
    destruct (e2 <=? 1024 - 53); try discriminate.
    intros Heq; injection Heq as _ <- _. lia.
Qed.

(** A positive mantissa above the smallest exponent does not round to 0. *)
Lemma binary_round_aux_positive (m e : Z) (l : location) :
  0 < m -> emin 53 1024 <= e ->
  SFltb posZero (binary_round_aux 53 1024 false m e l) = true.
Proof.
  intros Hm He. unfold binary_round_aux.
  pose proof (shr_fexp_positive m e l Hm He) as [H1 He1].
  destruct (shr_fexp 53 1024 m e l) as [mrs1 e1]; cbn [fst snd] in H1, He1.
  set (m2 := round_nearest_even (shr_m mrs1) (loc_of_shr_record mrs1)).
  assert (Hm2 : 0 < m2).
  { pose proof (round_nearest_even_ge (shr_m mrs1) (loc_of_shr_record mrs1)). lia. }
  pose proof (shr_fexp_positive m2 e1 loc_Exact Hm2 He1) as [H2 _].
  destruct (shr_fexp 53 1024 m2 e1 loc_Exact) as [mrs2 e2]; cbn [fst] in H2.
  destruct (shr_m mrs2) as [ | p | p]; try lia.
  destruct (e2 <=? 1024 - 53); reflexivity.
Qed.

Lemma SFmul_mantissa (x y : spec_float) (s : bool) (m : positive) (e : Z) :
  SFmul 53 1024 x y = S754_finite s m e -> Zpos m < 2 ^ 53.
Proof.
  destruct x as [sx | sx | | sx mx ex], y as [sy | sy | | sy my ey];
    try discriminate.
  cbn [SFmul]. apply binary_round_aux_mantissa. lia.
Qed.

Lemma lit_1000 : lit 1000 = S754_finite false 8796093022208000 (-43).
Proof. reflexivity. Qed.

Lemma normalised_digits (p : positive) :
  Zpos p < 2 ^ 53 ->
  Zpos (digits2_pos (fst (normalised p))) = 53 /\
  snd (normalised p) = Zpos (digits2_pos p) - 53.
Proof.
  intros Hp.
  pose proof (digits2_pos_bound p 53 Hp ltac:(lia)) as Hd.
  unfold normalised, shl_align. zfold.
  remember (Zpos (digits2_pos p) - 53) as e0 eqn:He0.
  destruct (e0 - 0) as [ | k | k] eqn:Hk; cbn [fst snd].
  - lia.
  - lia.
  - rewrite iter_xO_digits. lia.
Qed.

(** A positive integer quotient below 2^53, divided by 1000, is a
    positive number. *)
Lemma thousandth_positive (q : Z) :
  0 < q < 2 ^ 53 ->
  SFltb posZero (SFdiv B64.prec B64.emax (lit q) (lit 1000)) = true.
Proof.
  intros [Hq0 Hq]. destruct q as [ | p | p]; try lia.
  unfold lit at 1. unfold B64.ofZ, binary_normalize.
  change B64.prec with 53. change B64.emax with 1024.
  rewrite (binary_round_small false p Hq), lit_1000.
  destruct (normalised_digits p Hq) as [Hdig Hexp].
  pose proof (digits2_pos_lower (fst (normalised p))) as Hlow.
  rewrite Hdig in Hlow.
  set (mz := fst (normalised p)) in *. set (ez := snd (normalised p)) in *.
  assert (Hez : - 52 <= ez <= 0).
  { pose proof (digits2_pos_bound p 53 Hq ltac:(lia)). lia. }
  unfold SFdiv, SFdiv_core_binary. cbn [Zdigits2]. rewrite Hdig.
  change (Zpos (digits2_pos 8796093022208000)) with 53.
  zfold.
  assert (He' : Z.min (fexp 53 1024 (53 + ez - (53 + -43))) (ez - -43) = ez - 10).
  { unfold fexp, emin. zfold. lia. }
  rewrite He'.
  replace (ez - -43 - (ez - 10)) with 53 by lia.
  pose proof (div_eucl_quotient_nonneg (Z.shiftl (Zpos mz) 53) 8796093022208000) as Hnn.
  assert (Hquot : 0 < fst (Z.div_eucl (Z.shiftl (Zpos mz) 53) 8796093022208000)).
  { change (fst (Z.div_eucl ?a ?b)) with (a / b).
    apply Z.div_str_pos. split; [lia | ].
    rewrite Z.shiftl_mul_pow2 by lia.
    change (2 ^ (53 - 1)) with 4503599627370496 in Hlow.
    change (2 ^ 53) with 9007199254740992. lia. }
  destruct (Z.div_eucl (Z.shiftl (Zpos mz) 53) 8796093022208000) as [quot r].
  cbn [fst] in Hquot.
  apply binary_round_aux_positive; [exact Hquot | ].
  unfold emin. zfold. lia.
Qed.

Lemma lit_cases (z : Z) :
  lit z = match z with
          | Z0 => S754_zero false
          | Zpos p => binary_round 53 1024 false p 0
          | Zneg p => binary_round 53 1024 true p 0
          end.
Proof. destruct z; reflexivity. Qed.

(** [new BN(n)] for an integer [n] below 2^53 is that integer. *)
Lemma ofNumber_lit (z : Z) :
  Z.abs z < 2 ^ 53 -> BN.ofNumber (lit z) = Normal z.
Proof.
  intros Hz.
  assert (Hb : (Z.abs z <? 2 ^ 53) = true) by (apply Z.ltb_lt; exact Hz).
  rewrite lit_cases. destruct z as [ | p | p].
  - reflexivity.
  - destruct (view_small_integer false p ltac:(lia)) as [q [Hv Hq]].
    rewrite (ofNumber_integer _ q (Zpos p) Hv Hq), Hb. reflexivity.
  - destruct (view_small_integer true p ltac:(lia)) as [q [Hv Hq]].
    rewrite (ofNumber_integer _ q (Zneg p) Hv Hq), Hb. reflexivity.
Qed.

(** An integer below 2^53 is falsy exactly when it is 0. *)
Lemma truthy_lit (z : Z) :
  Z.abs z < 2 ^ 53 -> B64.toBoolean (lit z) = negb (z =? 0).
Proof.
  intros Hz. rewrite lit_cases. destruct z as [ | p | p].
  - reflexivity.
  - rewrite binary_round_small by lia. reflexivity.
  - rewrite binary_round_small by lia. reflexivity.
Qed.

Lemma or_else_lit (z d : Z) :
  Z.abs z < 2 ^ 53 ->
  or_else (lit z) (lit d) = lit (if z =? 0 then d else z).
Proof.
  intros Hz. unfold or_else. cbn [ToBoolean Binary64].
  rewrite (truthy_lit z Hz). destruct (z =? 0); reflexivity.
Qed.




(* ===================================================================== *)
(** * Current price and pool progress *)
(* ===================================================================== *)

Lemma scenarioPool_valid : ValidPool scenarioPool.
Proof. constructor; simpl; lia. Qed.


(** [calculateCurrentPrice] always returns: the [catch] turns every throw
    into 0. *)
Lemma current_price_returns (poolData : option Pool) :
  exists price : spec_float, calculateCurrentPrice poolData = Normal price.
Proof.
  unfold calculateCurrentPrice.
  destruct poolData as [p | ]; simpl; [ | eexists; reflexivity].
  destruct (BN.eq _ 0); [eexists; reflexivity | ].
  destruct (BN.div _ _) as [q | msg]; simpl; [ | eexists; reflexivity].
  destruct (BN.toNumber q) as [n | msg]; simpl; eexists; reflexivity.
Qed.

(** The value computed for a pool whose token side is not empty. *)
Lemma current_price_value (p : Pool) :
  tokenTotal p <> 0 ->
  calculateCurrentPrice (Some p) =
    Normal (let q := Z.quot (stableTotal p * 1000) (tokenTotal p) in
            if Z.abs q <? 2 ^ 53
            then SFdiv B64.prec B64.emax (lit q) (lit 1000)
            else posZero).
Proof.
  intros Hne. unfold calculateCurrentPrice, BN.eq, BN.div, BN.add, BN.mul, BN.toNumber.
  fold (stableTotal p). fold (tokenTotal p).
  apply Z.eqb_neq in Hne. rewrite Hne. cbv zeta. unfold JS.bind.
  destruct (Z.abs (Z.quot (stableTotal p * 1000) (tokenTotal p)) <? 2 ^ 53); reflexivity.
Qed.

(** What holds of the claim: for every valid pool [calculateCurrentPrice]
    returns (it never throws) a number that is greater than or equal to 0,
    and 0 for an empty token side.  It is 0 for other pools too: whenever
    1000 times the total stable reserve is below the total token reserve,
    and whenever the integer quotient does not fit below 2^53. *)
Lemma current_price_nonneg_and_zero_cases :
  forall p : Pool,
    ValidPool p ->
    exists price : spec_float,
      calculateCurrentPrice (Some p) = Normal price /\
      nonNegative price = true /\
      (price = posZero <->
       tokenTotal p = 0 \/
       stableTotal p * 1000 < tokenTotal p \/
       2 ^ 53 <= Z.quot (stableTotal p * 1000) (tokenTotal p)).
Proof.
  intros p [Hs Hvs Hp Hvp _].
  assert (HS : 0 <= stableTotal p) by (unfold stableTotal; lia).
  assert (HT : 0 <= tokenTotal p) by (unfold tokenTotal; lia).
  destruct (Z.eq_dec (tokenTotal p) 0) as [Hz | Hnz].
  - exists posZero. split; [ | split; [reflexivity | tauto]].
    unfold calculateCurrentPrice, BN.eq, BN.add. fold (tokenTotal p).
    rewrite Hz. reflexivity.
  - rewrite (current_price_value p Hnz). cbv zeta.
    set (q := Z.quot (stableTotal p * 1000) (tokenTotal p)).
    assert (Hq : 0 <= q) by (apply Z.quot_pos; lia).
    assert (Hsmall : q = 0 <-> stableTotal p * 1000 < tokenTotal p).
    { unfold q. rewrite Z.quot_small_iff by lia. lia. }
    eexists; split; [reflexivity | ].
    destruct (Z.abs q <? 2 ^ 53) eqn:Hfit.
    + apply Z.ltb_lt in Hfit. split.
      * rewrite lit_1000. apply div_by_positive_nonneg. apply lit_nonneg, Hq.
      * destruct (Z.eq_dec q 0) as [Hq0 | Hqpos].
        -- rewrite Hq0. split; [intros _ | reflexivity].
           right; left. apply Hsmall, Hq0.
        -- pose proof (thousandth_positive q ltac:(lia)) as Hpos.
           split.
           ++ intros Heq. rewrite Heq in Hpos. discriminate Hpos.
           ++ intros [H0 | [Hlt | Hbig]]; [contradiction | | lia].
              apply Hsmall in Hlt. contradiction.
    + apply Z.ltb_ge in Hfit. split; [reflexivity | ].
      split; [intros _ | reflexivity].
      right; right. lia.
Qed.

Example current_price_nonneg_on_the_scenario :
  exists price : spec_float,
    calculateCurrentPrice (Some scenarioPool) = Normal price /\
    nonNegative price = true /\
    (price = posZero <->
     tokenTotal scenarioPool = 0 \/
     stableTotal scenarioPool * 1000 < tokenTotal scenarioPool \/
     2 ^ 53 <= Z.quot (stableTotal scenarioPool * 1000) (tokenTotal scenarioPool)).
Proof.
  apply (current_price_nonneg_and_zero_cases scenarioPool).
  constructor; simpl; lia.
Qed.

(** C6, the failing input: the scenario pool of the specification, 30,000
    USDC against 1,000,000 tokens.  Its token-side reserve is 10^15 base
    units, not 0, and its price is 0.03 USDC per token, the quotient of the
    totals the quote functions work with.  [calculateCurrentPrice],
    documented to return the current price in USD, returns 0 for it: the
    stable total is multiplied by 1000 to account for the decimals, the
    integer division by the token total drops everything below 1, and the
    quotient is divided by 1000 once more.  On a pool of 1.234567 USDC
    against 1000 base units of the token, 1,234,567 USDC per token, it
    returns 1234.567. *)
Theorem current_price_zero_with_tokens :
  ValidPool scenarioPool /\
  tokenTotal scenarioPool <> 0 /\
  calculateCurrentPrice (Some scenarioPool) = Normal posZero /\
  SFdiv B64.prec B64.emax (totalStableOf scenarioPool) (totalTokenOf scenarioPool)
    = SFdiv B64.prec B64.emax (lit 3) (lit 100) /\
  calculateCurrentPrice (Some tinyPool)
    = Normal (SFdiv B64.prec B64.emax (lit 1234567) (lit 1000)) /\
  SFdiv B64.prec B64.emax (totalStableOf tinyPool) (totalTokenOf tinyPool)
    = lit 1234567.
Proof.
  split; [exact scenarioPool_valid | ].
  split; [discriminate | ].
  repeat split.
Qed.

(** ** Progress *)

Lemma min_with_100 (n : Z) :
  0 <= n <= 100 -> B64.min (lit n) (lit 100) = lit n.
Proof.
  intros Hn.
  assert (Hk : exists k : nat, (k <= 100)%nat /\ n = Z.of_nat k).
  { exists (Z.to_nat n); split; lia. }
  destruct Hk as [k [Hk ->]].
  do 101 (destruct k as [ | k]; [vm_compute; reflexivity | ]).
  lia.
Qed.

(** With no amount on sale, and for a missing pool, progress is 100. *)
Lemma progress_without_sale (p : Pool) :
  totalSellAmount p = 0 ->
  calculatePoolProgress (Some p) = Normal (lit 100) /\
  calculatePoolProgress (num := spec_float) None = Normal (lit 100).
Proof.
  intros Hz; unfold calculatePoolProgress, BN.eq. rewrite Hz. split; reflexivity.
Qed.

(** While the reserve does not exceed the amount on sale, progress is an
    integer percentage between 0 and 100. *)
Lemma progress_within_sale (p : Pool) :
  0 < totalSellAmount p ->
  0 <= reserveProjectMint p <= totalSellAmount p ->
  exists n : Z,
    0 <= n <= 100 /\ calculatePoolProgress (Some p) = Normal (lit n).
Proof.
  intros Htot Hres.
  set (n := Z.quot ((totalSellAmount p - reserveProjectMint p) * 100) (totalSellAmount p)).
  assert (Hn : 0 <= n <= 100).
  { subst n. rewrite Z.quot_div_nonneg by lia. split.
    - apply Z.div_pos; lia.
    - apply Z.div_le_upper_bound; lia. }
  exists n; split; [exact Hn | ].
  unfold calculatePoolProgress, BN.eq, BN.div, BN.sub, BN.mul, BN.toNumber.
  assert (Hne : (totalSellAmount p =? 0) = false) by (apply Z.eqb_neq; lia).
  rewrite Hne. cbv zeta. unfold JS.bind. fold n.
  assert (Hsmall : (Z.abs n <? 2 ^ 53) = true) by (apply Z.ltb_lt; lia).
  rewrite Hsmall. unfold JS.try_catch.
  f_equal. apply min_with_100, Hn.
Qed.

(** C5, the failing input: a pool whose project reserve (250) exceeds the
    amount on sale (100).  [calculatePoolProgress] returns -150, a value
    below 0, where its documentation and the claim promise a percentage
    between 0 and 100: only the upper end is clamped. *)
Theorem progress_negative_when_reserve_exceeds_sale :
  calculatePoolProgress (Some overfullPool) = Normal (lit (-150)) /\
  SFltb (lit (-150)) posZero = true.
Proof. split; reflexivity. Qed.

(* ===================================================================== *)
(** * Amount conversion ([numberToBN]) *)
(* ===================================================================== *)

Lemma numberToBN_returns (n : spec_float) (decimals : Z) :
  exists z : Z, numberToBN n decimals = Normal z.
Proof.
  unfold numberToBN.
  destruct (BN.ofNumber _) as [z | msg]; eexists; reflexivity.
Qed.

(** What [numberToBN] does, for a count of decimals from 0 to 22: it never
    throws.  It multiplies the amount by 10^decimals in double precision
    and, when that product is finite, returns its integer part towards
    minus infinity if the magnitude is below 2^53, a negative integer for a
    negative amount; every other product ends in 0. *)
Lemma numberToBN_floors_and_never_fails :
  forall (n : spec_float) (decimals : Z),
    0 <= decimals <= 22 ->
    let product := SFmul B64.prec B64.emax n (Math_pow10 decimals) in
    (exists z : Z, numberToBN n decimals = Normal z) /\
    (forall (s : bool) (m : positive) (e : Z),
        product = S754_finite s m e ->
        numberToBN n decimals =
          Normal (if Z.abs (floorOf s m e) <? 2 ^ 53 then floorOf s m e else 0)) /\
    (B64.toBoolean product = false \/ (exists s : bool, product = S754_infinity s) ->
     numberToBN n decimals = Normal 0).
Proof.
  intros n decimals _ product.
  split; [apply numberToBN_returns | ].
  unfold numberToBN. cbn [mul Binary64]. fold product.
  split.
  - intros s m e Hprod.
    pose proof (SFmul_mantissa _ _ s m e Hprod) as Hm.
    rewrite Hprod. cbn [Math_floor Binary64].
    rewrite (floor_then_BN s m e Hm).
    destruct (Z.abs (floorOf s m e) <? 2 ^ 53); reflexivity.
  - intros [Hfalsy | [s ->]]; [ | reflexivity].
    destruct product as [s | s | | s m e]; try discriminate; reflexivity.
Qed.

(** C10, the failing input: 10,000,000 tokens at the 9 decimals of the
    project token, the conversion the sell dialog makes.  The product,
    10^16, is an integer that double precision holds exactly, so
    multiplying and flooring give 10^16 base units.  It is above 2^53:
    [new BN] refuses it, the [catch] of [numberToBN] swallows the
    assertion, and the function returns 0 without any failure, where the
    claim has the floored product.  9,007,199 tokens, just below 2^53 base
    units, still convert to their floor. *)
Theorem numberToBN_zero_for_ten_million_tokens :
  SFmul B64.prec B64.emax (lit 10000000) (Math_pow10 9) = lit (10 ^ 16) /\
  B64.floor (lit (10 ^ 16)) = lit (10 ^ 16) /\
  valueOf (lit (10 ^ 16)) = inject_Z (10 ^ 16) /\
  2 ^ 53 <= 10 ^ 16 /\
  numberToBN (lit 10000000) 9 = Normal 0 /\
  numberToBN (lit 9007199) 9 = Normal 9007199000000000.
Proof. repeat split. discriminate. Qed.

(** Nor is a negative or non-finite amount refused: -1.5 gives -2, NaN
    and the infinities give 0. *)
Example numberToBN_accepts_negative_and_non_finite :
  SFltb minusOneAndAHalf posZero = true /\
  numberToBN minusOneAndAHalf 0 = Normal (-2) /\
  numberToBN S754_nan 6 = Normal 0 /\
  numberToBN (S754_infinity false) 6 = Normal 0 /\
  numberToBN (S754_infinity true) 6 = Normal 0.
Proof. repeat split. Qed.

(** Rounding of the product shows through: 0.29 with two decimals gives
    28, because 0.29 * 100 is 28.999999999999996 in double precision. *)
Example numberToBN_029 :
  numberToBN (SFdiv B64.prec B64.emax (lit 29) (lit 100)) 2 = Normal 28.
Proof. reflexivity. Qed.

Example numberToBN_one_and_a_half_usdc :
  numberToBN (SFdiv B64.prec B64.emax (lit 3) (lit 2)) 6 = Normal 1500000.
Proof. reflexivity. Qed.

(* ===================================================================== *)
(** * The quote functions, operation by operation *)
(* ===================================================================== *)




(* ===================================================================== *)
(** * The buy quote *)
(* ===================================================================== *)




(* ===================================================================== *)
(** * The sell quote *)
(* ===================================================================== *)



(* ===================================================================== *)
(** * The round trip *)
(* ===================================================================== *)

(** On the scenario pool the round trip loses: 1000 USDC come back as
    919.41... *)
Example round_trip_on_the_scenario :
  roundTrip (Some scenarioPool) (lit 1000) (Some scenarioConfig)
    = Normal (S754_finite false 8087289653908143 (-43)) /\
  SFltb (S754_finite false 8087289653908143 (-43)) (lit 1000) = true /\
  (91941 # 100 < valueOf (S754_finite false 8087289653908143 (-43)) < 91942 # 100)%Q.
Proof. repeat split. Qed.

(** C7, the failing input: a valid pool with 10^12 USDC of virtual stable
    reserve and 1,000,000.000000056 tokens, and a buy for 0.000001 USDC,
    one base unit.  The amount after the fee is far below the rounding
    step of the stable total, 2^-13 USDC, and is lost in the sum: the new
    stable total is the old one.  The rounding of the product and of the
    quotient still leaves one step of the token total, 2^-33 tokens, as
    the tokens bought; selling them back moves the stable total by one of
    its steps, and 0.00012 USDC are quoted after the fee, a hundred and
    twenty times what was paid.  The round trip creates value where the
    claim and the specification say it never does. *)
Theorem round_trip_can_create_value :
  ValidPool deepPool /\
  SFltb posZero oneMicro = true /\
  SFadd B64.prec B64.emax (lit 1000000000000)
    (SFsub B64.prec B64.emax oneMicro
       (SFmul B64.prec B64.emax oneMicro
          (SFdiv B64.prec B64.emax (lit 100) (lit 10000))))
    = lit 1000000000000 /\
  (exists bought : Quote spec_float,
      calculateBuyTokensOut (Some deepPool) (Num oneMicro) None = Normal bought /\
      amountOut bought = S754_finite false 4503599627370496 (-85)) /\
  roundTrip (Some deepPool) oneMicro None
    = Normal (S754_finite false 8917127262193582 (-66)) /\
  SFltb oneMicro (S754_finite false 8917127262193582 (-66)) = true /\
  (120 # 1000000 < valueOf (S754_finite false 8917127262193582 (-66)))%Q.
Proof.
  split; [constructor; simpl; lia | ].
  split; [reflexivity | ].
  split; [vm_compute; reflexivity | ].
  split; [eexists; split; vm_compute; reflexivity | ].
  repeat split.
Qed.

(* ===================================================================== *)
(** * The submission pipeline *)
(* ===================================================================== *)

Module PipelineFacts.

Import Pipeline World.
Local Open Scope string_scope.

(** ** What [sendTransaction] does once the transaction is sent *)

Section AfterSend.

Variables (conn : Connection) (pk : string)
          (sign : Transaction -> Completion SignedTx)
          (ixs : list Instruction) (signers : list string).
Variables (latest : LatestBlockhash) (signed : SignedTx) (sig : string).

Let transaction : Transaction :=
  {| recentBlockhash := blockhash latest;
     feePayer := pk;
     instructions := SetComputeUnitLimit COMPUTE_UNITS.DEFAULT :: ixs |}.

Let strategy : ConfirmationStrategy :=
  {| strategySignature := sig;
     strategyBlockhash := blockhash latest;
     strategyLastValidBlockHeight := lastValidBlockHeight latest |}.

Hypothesis fetched : getLatestBlockhash conn "confirmed" = Normal latest.
Hypothesis signedOk : sign transaction = Normal signed.
Hypothesis sent :
  sendRawTransaction conn (fold_left partialSign signers signed) sendOptions = Normal sig.

(** After a successful send the outcome is decided by the raced
    confirmation and, whenever the [try] block throws, by the status
    lookup. *)
Lemma sendTransaction_after_send :
  result (sendTransaction conn
            (Some {| publicKey := pk; signTransaction := Some sign |}) ixs signers) =
  match awaitRace (confirmTransaction conn strategy "confirmed")
          UI_CONSTANTS.TX_TIMEOUT "Transaction confirmation timeout" with
  | Fulfilled {| confirmationErr := None |} => Fulfilled sig
  | Fulfilled {| confirmationErr := Some err |} =>
      afterLookup (getSignatureStatus conn sig) sig ("Transaction failed: " ++ err)
  | Rejected e => afterLookup (getSignatureStatus conn sig) sig e
  | Unsettled => Unsettled
  end.
Proof.
  unfold sendTransaction, perform, bind, try_catch, ret, raise, result.
  rewrite fetched. cbn [ofCompletion publicKey signTransaction].
  fold transaction. rewrite signedOk. cbn [ofCompletion].
  rewrite sent. cbn [ofCompletion]. fold strategy.
  destruct (awaitRace _ _ _) as [[[err | ]] | e | ]; cbn [confirmationErr snd];
    try reflexivity; unfold afterLookup;
    destruct (getSignatureStatus conn sig) as [st | e']; cbn [ofCompletion snd];
    try reflexivity; destruct (landed st); reflexivity.
Qed.

End AfterSend.

(** C3, the failing input: the confirmation arrives in time and carries a
    program error, and the status lookup reports the transaction as
    confirmed (as it does for every executed transaction, failed ones
    included).  The [throw] for the reported error is raised inside the
    [try] block, so the [catch] written for the timeout handles it too:
    [sendTransaction] looks the status up and fulfils with the signature,
    reporting success for a transaction that failed. *)
Theorem sendTransaction_succeeds_on_confirmed_error :
  sendTransaction (cluster confirmedWithError statusOfFailedTx)
    (Some walletA) [buyIx] [] =
  ([ CallGetLatestBlockhash "confirmed";
     CallSignTransaction
       {| recentBlockhash := blockhash latestA; feePayer := "payer";
          instructions := [SetComputeUnitLimit 800000; buyIx] |};
     CallSendRawTransaction
       {| payload := {| recentBlockhash := blockhash latestA; feePayer := "payer";
                        instructions := [SetComputeUnitLimit 800000; buyIx] |};
          walletSignature := "signed-by-payer";
          partialSigners := [] |}
       sendOptions;
     CallConfirmTransaction
       {| strategySignature := sigA;
          strategyBlockhash := blockhash latestA;
          strategyLastValidBlockHeight := lastValidBlockHeight latestA |}
       "confirmed" (Some 60000);
     CallGetSignatureStatus sigA ],
   Fulfilled sigA).
Proof. reflexivity. Qed.

(** The scenario of the specification: the confirmation times out and the
    status lookup reports "finalized"; the pipeline reports success. *)
Example sendTransaction_timeout_then_finalized :
  result (sendTransaction (cluster NeverSettles statusFinalized)
            (Some walletA) [buyIx] []) = Fulfilled sigA.
Proof. reflexivity. Qed.

(** A timeout with no record of the signature is a failure. *)
Example sendTransaction_timeout_then_unknown :
  result (sendTransaction (cluster (Settles 75000 (Normal {| confirmationErr := None |}))
                             statusUnknown)
            (Some walletA) [buyIx] []) = Rejected "Transaction confirmation timeout".
Proof. reflexivity. Qed.

(** A reported error is a failure only when the lookup finds no landed
    record. *)
Example sendTransaction_error_then_unknown :
  result (sendTransaction (cluster confirmedWithError statusUnknown)
            (Some walletA) [buyIx] []) =
  Rejected "Transaction failed: {InstructionError:[1,{Custom:6001}]}".
Proof. reflexivity. Qed.

(** ** [buildAndSend] against [sendTransaction] *)

Lemma buildAndSend_calls (b : TransactionBuilder) (c : Call) :
  In c (calls (buildAndSend b)) ->
  match c with
  | CallGetSignatureStatus _ => False
  | CallConfirmTransaction _ commitment raced => commitment = "confirmed" /\ raced = None
  | CallSendRawTransaction _ opts => opts = sendOptions
  | _ => True
  end.
Proof.
  unfold buildAndSend, build, perform, bind, ret, raise, calls.
  destruct (getLatestBlockhash (connection b) "confirmed") as [latest | e];
    cbn [ofCompletion fst app].
  2: { intros [<- | []]; exact I. }
  destruct (wallet b) as [[pk [sign | ]] | ], (builderInstructions b) as [ | ix ixs];
    cbn [fst app publicKey];
    try (intros [<- | []]; exact I).
  destruct (sign _) as [signed | e]; cbn [ofCompletion fst app].
  2: { intros [<- | [<- | []]]; exact I. }
  destruct (sendRawTransaction _ _ _) as [sig | e]; cbn [ofCompletion fst app].
  2: { intros [<- | [<- | [<- | []]]]; try exact I; reflexivity. }
  destruct (await _) as [conf | e | ]; cbn [fst app];
    intros [<- | [<- | [<- | [<- | []]]]]; try exact I; try reflexivity;
    split; reflexivity.
Qed.

(** Where the two pipelines agree: [buildAndSend] sends with the same
    options as [sendTransaction] (preflight on, three retries) and confirms
    with the signature, block hash and last valid block height; it awaits
    the confirmation without any timeout and never looks the signature
    status up.  The two make the same calls and give the same result for
    the same transaction whenever every confirmation arrives without error
    no later than the 60-second timeout. *)
Lemma buildAndSend_agrees_when_confirmed_in_time :
  forall (conn : Connection) (pk : string)
         (sign : Transaction -> Completion SignedTx)
         (ixs : list Instruction) (signers : list string),
    ConfirmsInTime conn ->
    let w := {| publicKey := pk; signTransaction := Some sign |} in
    result (buildAndSend (builderFor conn w ixs signers))
      = result (sendTransaction conn (Some w) ixs signers) /\
    calls (buildAndSend (builderFor conn w ixs signers))
      = map forgetRace (calls (sendTransaction conn (Some w) ixs signers)) /\
    (forall (b : TransactionBuilder) (c : Call),
        In c (calls (buildAndSend b)) ->
        match c with
        | CallGetSignatureStatus _ => False
        | CallConfirmTransaction _ commitment raced =>
            commitment = "confirmed" /\ raced = None
        | CallSendRawTransaction _ opts => opts = sendOptions
        | _ => True
        end).
Proof.
  intros conn pk sign ixs signers Hconf w.
  split; [ | split; [ | exact buildAndSend_calls]];
    unfold buildAndSend, build, sendTransaction, builderFor, w,
      perform, bind, try_catch, ret, raise, result, calls;
    cbn [connection wallet builderInstructions builderSigners
         publicKey signTransaction];
    (destruct (getLatestBlockhash conn "confirmed") as [latest | e];
     cbn [ofCompletion fst snd app map forgetRace]; [ | reflexivity]);
    (destruct (sign _) as [signed | e];
     cbn [ofCompletion fst snd app map forgetRace]; [ | reflexivity]);
    (destruct (sendRawTransaction _ _ _) as [sig | e];
     cbn [ofCompletion fst snd app map forgetRace]; [ | reflexivity]);
    match goal with
    | |- context [confirmTransaction conn ?st "confirmed"] =>
        destruct (Hconf st) as [t [-> Ht]]
    end;
    unfold await, awaitRace; apply Z.leb_le in Ht; rewrite Ht; reflexivity.
Qed.

Example buildAndSend_agrees_on_a_prompt_confirmation :
  ConfirmsInTime (cluster confirmedOk statusUnknown) /\
  result (buildAndSend (builderFor (cluster confirmedOk statusUnknown) walletA [buyIx] []))
    = result (sendTransaction (cluster confirmedOk statusUnknown)
                (Some walletA) [buyIx] []).
Proof.
  assert (Hc : ConfirmsInTime (cluster confirmedOk statusUnknown)).
  { intros strategy; exists 1500; split; [reflexivity | discriminate]. }
  split; [exact Hc | ].
  exact (proj1 (buildAndSend_agrees_when_confirmed_in_time
                  (cluster confirmedOk statusUnknown) "payer"
                  (fun tx => Normal {| payload := tx;
                                       walletSignature := "signed-by-payer";
                                       partialSigners := [] |})
                  [buyIx] [] Hc)).
Qed.

(** A confirmation that settles at the very instant the timer fires still
    wins the race. *)
Example sendTransaction_confirmed_on_the_minute :
  result (sendTransaction (cluster (Settles 60000 (Normal {| confirmationErr := None |}))
                             statusUnknown)
            (Some walletA) [buyIx] []) = Fulfilled sigA /\
  result (sendTransaction (cluster (Settles 60001 (Normal {| confirmationErr := None |}))
                             statusUnknown)
            (Some walletA) [buyIx] []) = Rejected "Transaction confirmation timeout".
Proof. split; reflexivity. Qed.

(** C9, the failing input: the transaction [sendTransaction] assembles for
    one buy instruction, on a cluster whose confirmation arrives after 1.5
    seconds and carries a program error.  [buildAndSend] awaits the
    confirmation and never reads it: it makes no further call and fulfils
    with the signature, reporting success for a transaction that failed,
    where the submission pipeline of [sendTransaction] throws "Transaction
    failed" for the same transaction, and rejects with it when the status
    lookup finds no landed record. *)
Theorem buildAndSend_succeeds_on_confirmed_error :
  buildAndSend (builderFor (cluster confirmedWithError statusUnknown) walletA [buyIx] []) =
  ([ CallGetLatestBlockhash "confirmed";
     CallSignTransaction
       {| recentBlockhash := blockhash latestA; feePayer := "payer";
          instructions := [SetComputeUnitLimit 800000; buyIx] |};
     CallSendRawTransaction
       {| payload := {| recentBlockhash := blockhash latestA; feePayer := "payer";
                        instructions := [SetComputeUnitLimit 800000; buyIx] |};
          walletSignature := "signed-by-payer";
          partialSigners := [] |}
       sendOptions;
     CallConfirmTransaction
       {| strategySignature := sigA;
          strategyBlockhash := blockhash latestA;
          strategyLastValidBlockHeight := lastValidBlockHeight latestA |}
       "confirmed" None ],
   Fulfilled sigA) /\
  confirmTransaction (cluster confirmedWithError statusUnknown)
    {| strategySignature := sigA;
       strategyBlockhash := blockhash latestA;
       strategyLastValidBlockHeight := lastValidBlockHeight latestA |}
    "confirmed"
    = Settles 1500
        (Normal {| confirmationErr := Some "{InstructionError:[1,{Custom:6001}]}" |}) /\
  result (sendTransaction (cluster confirmedWithError statusUnknown)
            (Some walletA) [buyIx] [])
    = Rejected "Transaction failed: {InstructionError:[1,{Custom:6001}]}".
Proof. repeat split. Qed.

(** The other difference between the two pipelines: when the confirmation
    never arrives and the status is "finalized", [sendTransaction] fulfils
    after its timeout while the promise of [buildAndSend] stays unsettled,
    without any status lookup. *)
Example buildAndSend_waits_without_timeout :
  result (buildAndSend
            (builderFor (cluster NeverSettles statusFinalized) walletA [buyIx] []))
    = Unsettled /\
  result (sendTransaction (cluster NeverSettles statusFinalized)
            (Some walletA) [buyIx] [])
    = Fulfilled sigA.
Proof. repeat split. Qed.

(** An empty builder is refused before anything is signed. *)
Example buildAndSend_without_instructions :
  buildAndSend (newTransactionBuilder (cluster confirmedOk statusUnknown) (Some walletA))
    = ([CallGetLatestBlockhash "confirmed"], Rejected "No instructions").
Proof. reflexivity. Qed.

End PipelineFacts.

(* ===================================================================== *)
(** * Error normalisation *)
(* ===================================================================== *)

Module ErrorFacts.

Import Errors Payloads.
Local Open Scope string_scope.

Lemma startsWith_0x (c d : ascii) (rest : string) :
  startsWith "0x" (String c (String d rest))
    = Ascii.eqb "0" c && Ascii.eqb "x" d.
Proof. cbn [startsWith]. rewrite andb_true_r. reflexivity. Qed.

(** Text without ["0x"] in front of a code does not hide the code: the
    leftmost match of the pattern is found behind it. *)
Lemma matchHexCode_skips (pre : string) (c : ascii) (rest : string) :
  includes "0x" pre = false ->
  c <> "x"%char ->
  matchHexCode (pre ++ String c rest) = matchHexCode (String c rest).
Proof.
  intros Hpre Hc; induction pre as [ | a pre IH]; [reflexivity | ].
  cbn [includes] in Hpre. apply orb_false_iff in Hpre as [Hhead Htail].
  change (String a pre ++ String c rest) with (String a (pre ++ String c rest)).
  cbn [matchHexCode].
  assert (Hat : hexCodeAt (String a (pre ++ String c rest)) = None).
  { unfold hexCodeAt. destruct pre as [ | d pre'].
    - cbn [append]. rewrite startsWith_0x.
      replace (Ascii.eqb "x" c) with false
        by (symmetry; apply Ascii.eqb_neq; congruence).
      rewrite andb_false_r. reflexivity.
    - cbn [append]. rewrite startsWith_0x.
      rewrite startsWith_0x in Hhead. rewrite Hhead. reflexivity. }
  rewrite Hat. apply IH, Htail.
Qed.

Lemma hexRun_digits (digits post : string) :
  hexRun digits = digits -> hexRun post = EmptyString ->
  hexRun (digits ++ post) = digits.
Proof.
  revert post; induction digits as [ | d digits IH]; intros post Hd Hp.
  - exact Hp.
  - cbn [append hexRun] in *. destruct (isHexDigit d); [ | discriminate].
    f_equal. apply IH; [congruence | exact Hp].
Qed.

(** The code 0x1771, located: no ["0x"] before it and no hexadecimal digit
    right after it. *)
Lemma insufficient_liquidity_code_located (pre post : string) :
  includes "0x" pre = false ->
  hexRun post = EmptyString ->
  matchHexCode (pre ++ "0x1771" ++ post) = Some "0x1771".
Proof.
  intros Hpre Hpost.
  change ("0x1771" ++ post) with (String "0" ("x1771" ++ post)).
  rewrite (matchHexCode_skips pre "0" _ Hpre) by discriminate.
  cbn [matchHexCode hexCodeAt append]. rewrite startsWith_0x.
  cbn [Ascii.eqb Bool.eqb andb].
  change (String "1" (String "7" (String "7" (String "1" post))))
    with ("1771" ++ post).
  rewrite (hexRun_digits "1771" post eq_refl Hpost). reflexivity.
Qed.

(** C4, as amended: [parseProgramError] tries the numeric code first, then
    the named errors, then the generic substrings, then the fallback.
    A payload whose leftmost hexadecimal code is exactly 0x1771 (no "0x"
    before it, no hexadecimal digit after it) normalises to the
    insufficient-liquidity message whatever the text around it; a named
    error wins when no known code is matched; a payload containing
    "User rejected" normalises to the user-declined message when no known
    code, no named error and no "insufficient" precede it in the order;
    an unmatched message is replaced by the generic failure message when
    it is longer than 100 characters and returned as it is otherwise. *)
Theorem parseProgramError_order :
  forall error : JsError,
    let msg := errorMessageOf error in
    (forall pre post : string,
        msg = pre ++ "0x1771" ++ post ->
        includes "0x" pre = false -> hexRun post = EmptyString ->
        parseProgramError (Some error) = ERROR_MESSAGES.INSUFFICIENT_LIQUIDITY) /\
    (forall named : string,
        knownCode msg = None ->
        lookupMapped errorMap msg = Some named ->
        parseProgramError (Some error) = named) /\
    (knownCode msg = None ->
     lookupMapped errorMap msg = None ->
     includes "insufficient" msg = false ->
     includes "User rejected" msg = true ->
     parseProgramError (Some error) = "Transaction cancelled") /\
    (knownCode msg = None ->
     lookupMapped errorMap msg = None ->
     commonMessage msg = None ->
     parseProgramError (Some error) =
       if (100 <? String.length msg)%nat
       then ERROR_MESSAGES.TRANSACTION_FAILED else msg).
Proof.
  intros error msg.
  change (parseProgramError (Some error)) with (parseMessage msg).
  unfold parseMessage.
  repeat split.
  - intros pre post -> Hpre Hpost.
    unfold knownCode.
    rewrite (insufficient_liquidity_code_located pre post Hpre Hpost).
    reflexivity.
  - intros named -> ->. reflexivity.
  - intros -> -> Hins Hrej. unfold commonMessage. rewrite Hins, Hrej. reflexivity.
  - intros -> -> ->. reflexivity.
Qed.

Lemma parseProgramError_order_witness :
  parseProgramError (Some codeError) = ERROR_MESSAGES.INSUFFICIENT_LIQUIDITY /\
  parseProgramError (Some rejectedError) = "Transaction cancelled".
Proof.
  split.
  - apply (proj1 (parseProgramError_order codeError)
             "custom program error: " " (User rejected)");
      reflexivity.
  - apply (proj1 (proj2 (proj2 (parseProgramError_order rejectedError))));
      reflexivity.
Defined.

(** C4, the claim as stated fails.  A payload can contain the code 0x1771
    and not normalise to the insufficient-liquidity message, because the
    pattern takes the leftmost code only, and takes its digits greedily;
    and a payload can contain "User rejected" and normalise to another
    kind, because "insufficient" and every named error are tried first. *)
Lemma parseProgramError_not_by_containment :
  includes "0x1771" "Program 0x0 failed: custom program error: 0x1771" = true /\
  parseProgramError (errorOf "Program 0x0 failed: custom program error: 0x1771")
    = "Program 0x0 failed: custom program error: 0x1771" /\
  includes "0x1771" "custom program error: 0x17710" = true /\
  parseProgramError (errorOf "custom program error: 0x17710")
    = "custom program error: 0x17710" /\
  includes "User rejected" "User rejected: insufficient lamports" = true /\
  parseProgramError (errorOf "User rejected: insufficient lamports")
    = ERROR_MESSAGES.INSUFFICIENT_BALANCE /\
  includes "User rejected" "User rejected the request (Unauthorized)" = true /\
  parseProgramError (errorOf "User rejected the request (Unauthorized)")
    = ERROR_MESSAGES.UNAUTHORIZED.
Proof. repeat split. Qed.

End ErrorFacts.

(* ===================================================================== *)
(** * The integer buy quote *)
(* ===================================================================== *)

Lemma state_fee_fits (poolState : PoolState) :
  0 <= stateFeeBps poolState <= 10000 ->
  BN.ofNumber (stateFeeOf (num := spec_float) poolState) = Normal (stateFeeBps poolState).
Proof.
  unfold stateFeeBps, stateFeeOf. intros Hf.
  destruct (stateTradingFee poolState) as [f | ].
  - change (Number_ofZ (num := spec_float)) with lit.
    assert (Hfit : Z.abs f < 2 ^ 53).
    { destruct (f =? 0) eqn:H0; [apply Z.eqb_eq in H0; subst f; simpl | ]; lia. }
    rewrite (or_else_lit f 100 Hfit). apply ofNumber_lit.
    destruct (f =? 0); lia.
  - reflexivity.
Qed.

Lemma state_tax_fits (poolState : PoolState) :
  0 <= buyTaxBps (account poolState) <= 10000 ->
  BN.ofNumber (stateBuyTaxOf (num := spec_float) poolState)
    = Normal (buyTaxBps (account poolState)).
Proof.
  unfold buyTaxBps, stateBuyTaxOf. intros Ht.
  destruct (params (account poolState)) as [pp | ].
  - change (Number_ofZ (num := spec_float)) with lit.
    change (zero (num := spec_float)) with (lit 0).
    rewrite (or_else_lit (buyTax pp) 0) by lia.
    rewrite ofNumber_lit; destruct (buyTax pp =? 0) eqn:H0; try reflexivity; try lia.
    apply Z.eqb_eq in H0. congruence.
  - reflexivity.
Qed.

(** The quote as a function of the amount in micro-USDC, as long as the
    stable side after the trade is not empty. *)
Lemma buy_output_units (poolState : PoolState) (x : spec_float) (a : Z) :
  microUsdcOf x = Normal a ->
  0 <= stateFeeBps poolState <= 10000 ->
  0 <= buyTaxBps (account poolState) <= 10000 ->
  stableTotal (account poolState) + (a - feeUnits (buyUnits poolState a)) <> 0 ->
  calculateBuyOutput poolState x = Normal (outputOf x (buyUnits poolState a)).
Proof.
  intros Ha Hf Ht Hne.
  unfold calculateBuyOutput.
  change (BN.ofNumber (Math_floor (mul x (Number_ofZ 1000000)))) with (microUsdcOf x).
  rewrite Ha. cbn [JS.bind].
  rewrite (state_fee_fits poolState Hf). cbn [JS.bind].
  unfold BN.div at 1. cbn [Z.eqb JS.bind].
  unfold BN.add, BN.sub, BN.mul.
  fold (stableTotal (account poolState)). fold (tokenTotal (account poolState)).
  cbn [buyUnits feeUnits] in Hne.
  unfold BN.div at 1.
  apply Z.eqb_neq in Hne. rewrite Hne. cbn [JS.bind].
  rewrite (state_tax_fits poolState Ht). cbn [JS.bind].
  unfold BN.div. cbn [Z.eqb JS.bind].
  reflexivity.
Qed.

(** The arithmetic of the integer quote. *)
Lemma buy_units_bounds (poolState : PoolState) (a : Z) :
  ValidPool (account poolState) ->
  0 < stableTotal (account poolState) ->
  0 <= a ->
  0 <= stateFeeBps poolState <= 10000 ->
  0 <= buyTaxBps (account poolState) <= 10000 ->
  let u := buyUnits poolState a in
  let newStable := stableTotal (account poolState) + (a - feeUnits u) in
  let newToken := tokenTotal (account poolState) - projectOutUnits u in
  0 <= feeUnits u <= a /\
  0 <= netOutUnits u <= projectOutUnits u /\
  projectOutUnits u <= tokenTotal (account poolState) /\
  newStable * newToken <= stableTotal (account poolState) * tokenTotal (account poolState)
    < newStable * (newToken + 1).
Proof.
  intros [Hs Hvs Hp Hvp _] HS Ha Hf Ht. cbn zeta.
  unfold buyUnits. cbn [feeUnits projectOutUnits netOutUnits].
  set (S := stableTotal (account poolState)) in *.
  set (T := tokenTotal (account poolState)).
  assert (HT : 0 <= T) by (unfold T, tokenTotal; lia).
  set (f := stateFeeBps poolState) in *.
  set (t := buyTaxBps (account poolState)) in *.
  rewrite (Z.quot_div_nonneg (a * f) 10000) by nia.
  set (fee := a * f / 10000).
  assert (Hfee : 0 <= fee <= a).
  { unfold fee. split; [apply Z.div_pos; nia | ].
    apply Z.div_le_upper_bound; nia. }
  set (n := S + (a - fee)).
  assert (Hn : 0 < n) by (unfold n; lia).
  rewrite (Z.quot_div_nonneg (S * T) n) by nia.
  set (newToken := S * T / n).
  assert (Hnt : 0 <= newToken <= T).
  { unfold newToken. split; [apply Z.div_pos; nia | ].
    apply Z.div_le_upper_bound; [lia | ]. unfold n. nia. }
  set (po := T - newToken).
  assert (Hpo : 0 <= po <= T) by (unfold po; lia).
  rewrite (Z.quot_div_nonneg (po * t) 10000) by nia.
  assert (Htax : 0 <= po * t / 10000 <= po).
  { split; [apply Z.div_pos; nia | ]. apply Z.div_le_upper_bound; nia. }
  split; [exact Hfee | ].
  split; [lia | ].
  split; [lia | ].
  replace (T - po) with newToken by (unfold po; lia).
  unfold newToken.
  pose proof (Z.mul_div_le (S * T) n Hn).
  pose proof (Z.mul_succ_div_gt (S * T) n Hn).
  lia.
Qed.

(** X1: the integer quote stays within the reserves.  For a valid pool with
    a stable side that is not empty, an amount of [a >= 0] micro-USDC, a fee
    and a buy tax of at most 100%, [calculateBuyOutput] returns the numbers
    of its integer steps: the fee is [a * fee / 10000], the token side
    keeps the constant product divided by the new stable reserve, the tax
    is taken from what leaves the curve, every division dropping the
    remainder.  The fee it reports is between 0 and the amount, and the
    tokens received are between 0 and the tokens leaving the curve, which
    never exceed the total token-side reserve. *)
Theorem buy_output_within_reserves :
  forall (poolState : PoolState) (x : spec_float) (a : Z),
    ValidPool (account poolState) ->
    0 < stableTotal (account poolState) ->
    microUsdcOf x = Normal a ->
    0 <= a ->
    0 <= stateFeeBps poolState <= 10000 ->
    0 <= buyTaxBps (account poolState) <= 10000 ->
    let over := SFdiv B64.prec B64.emax in
    let totalStable := stableTotal (account poolState) in
    let totalToken := tokenTotal (account poolState) in
    let feeAmount := Z.quot (a * stateFeeBps poolState) 10000 in
    let newToken := Z.quot (totalStable * totalToken) (totalStable + (a - feeAmount)) in
    let projectOut := totalToken - newToken in
    let netProjectOut :=
      projectOut - Z.quot (projectOut * buyTaxBps (account poolState)) 10000 in
    calculateBuyOutput poolState x
      = Normal {| tokensOut := over (lit netProjectOut) (lit 1000000000);
                  pricePerToken := over x (over (lit netProjectOut) (lit 1000000000));
                  outputFee := over (lit feeAmount) (lit 1000000) |} /\
    0 <= feeAmount <= a /\
    0 <= netProjectOut <= projectOut /\
    projectOut <= totalToken.
Proof.
  intros poolState x a Hv HS Hx Ha Hf Ht. cbv zeta.
  pose proof (buy_units_bounds poolState a Hv HS Ha Hf Ht) as Hb. cbn zeta in Hb.
  destruct Hb as [Hfee [Hnet [Hpo _]]].
  split; [ | split; [exact Hfee | split; [exact Hnet | exact Hpo]]].
  rewrite (buy_output_units poolState x a Hx Hf Ht) by lia.
  reflexivity.
Qed.

(** On the traded pool, 1000 USDC: a fee of 10 USDC, 17072.890319614
    tokens leave the curve and 16731.432513222 are received after the tax
    of 2%. *)
Lemma buy_output_within_reserves_witness :
  calculateBuyOutput tradedState (lit 1000)
    = Normal {| tokensOut :=
                  SFdiv B64.prec B64.emax (lit 16731432513222) (lit 1000000000);
                pricePerToken :=
                  SFdiv B64.prec B64.emax (lit 1000)
                    (SFdiv B64.prec B64.emax (lit 16731432513222) (lit 1000000000));
                outputFee := SFdiv B64.prec B64.emax (lit 10000000) (lit 1000000) |} /\
  0 <= 10000000 <= 1000000000 /\
  0 <= 16731432513222 <= 17072890319614 /\
  17072890319614 <= 750000000000000.
Proof.
  apply (buy_output_within_reserves tradedState (lit 1000) 1000000000).
  - constructor; simpl; lia.
  - reflexivity.
  - reflexivity.
  - lia.
  - vm_compute; split; discriminate.
  - vm_compute; split; discriminate.
Defined.

(** X2: rounding favours the buyer.  Under the same conditions the token
    side the integer quote keeps is the constant product divided by the
    new stable reserve with the remainder dropped, so the tokens that
    leave the curve are rounded up: the product of the reserves after the
    trade is at most the product before it, and misses it by less than
    the new stable reserve.  The number returned is computed from that
    amount: without a buy tax it is exactly the total less the token side
    kept, in base units. *)
Theorem buy_output_rounds_the_pool_down :
  forall (poolState : PoolState) (x : spec_float) (a : Z),
    ValidPool (account poolState) ->
    0 < stableTotal (account poolState) ->
    microUsdcOf x = Normal a ->
    0 <= a ->
    0 <= stateFeeBps poolState <= 10000 ->
    0 <= buyTaxBps (account poolState) <= 10000 ->
    let over := SFdiv B64.prec B64.emax in
    let k := stableTotal (account poolState) * tokenTotal (account poolState) in
    let newStable :=
      stableTotal (account poolState) + (a - Z.quot (a * stateFeeBps poolState) 10000) in
    let newToken := Z.quot k newStable in
    let projectOut := tokenTotal (account poolState) - newToken in
    let netProjectOut :=
      projectOut - Z.quot (projectOut * buyTaxBps (account poolState)) 10000 in
    (exists out : BuyOutput spec_float,
        calculateBuyOutput poolState x = Normal out /\
        tokensOut out = over (lit netProjectOut) (lit 1000000000)) /\
    newStable * newToken <= k < newStable * newToken + newStable /\
    (buyTaxBps (account poolState) = 0 ->
     netProjectOut = tokenTotal (account poolState) - newToken).
Proof.
  intros poolState x a Hv HS Hx Ha Hf Ht. cbv zeta.
  pose proof (buy_units_bounds poolState a Hv HS Ha Hf Ht) as Hb. cbn zeta in Hb.
  destruct Hb as [Hfee [_ [_ Hk]]].
  split; [ | split].
  - eexists. split; [apply (buy_output_units poolState x a Hx Hf Ht); lia | ].
    reflexivity.
  - cbn [buyUnits feeUnits projectOutUnits] in Hk.
    set (n := stableTotal (account poolState)
              + (a - Z.quot (a * stateFeeBps poolState) 10000)) in *.
    set (q := Z.quot (stableTotal (account poolState) * tokenTotal (account poolState)) n)
      in *.
    clearbody q n. lia.
  - intros Hzero. rewrite Hzero, Z.mul_0_r.
    change (Z.quot 0 10000) with 0. apply Z.sub_0_r.
Qed.

(** On the scenario pool, without a buy tax, 1000 USDC: the token side
    keeps 968054.211035818 tokens, 31945.788964182 are received, and the
    product of the reserves falls short of the constant product by
    180,000,000, less than the new stable reserve of 30,990,000,000. *)
Lemma buy_output_rounds_the_pool_down_witness :
  (exists out : BuyOutput spec_float,
      calculateBuyOutput scenarioState (lit 1000) = Normal out /\
      tokensOut out = SFdiv B64.prec B64.emax (lit 31945788964182) (lit 1000000000)) /\
  30990000000 * 968054211035818 <= 30000000000 * 1000000000000000
    < 30990000000 * 968054211035818 + 30990000000 /\
  (buyTaxBps (account scenarioState) = 0 ->
   31945788964182 = 1000000000000000 - 968054211035818).
Proof.
  apply (buy_output_rounds_the_pool_down scenarioState (lit 1000) 1000000000).
  - constructor; simpl; lia.
  - reflexivity.
  - reflexivity.
  - lia.
  - vm_compute; split; discriminate.
  - vm_compute; split; discriminate.
Defined.

Lemma after_fee_monotone (a a' f : Z) :
  0 <= a <= a' -> 0 <= f <= 10000 ->
  a - a * f / 10000 <= a' - a' * f / 10000.
Proof.
  intros Ha Hf.
  assert (H : a' * f / 10000 <= a * f / 10000 + (a' - a)).
  { replace (a * f / 10000 + (a' - a)) with ((a * f + (a' - a) * 10000) / 10000)
      by (rewrite Z.div_add by lia; reflexivity).
    apply Z.div_le_mono; nia. }
  lia.
Qed.

Lemma buy_units_monotone (poolState : PoolState) (a a' : Z) :
  ValidPool (account poolState) ->
  0 < stableTotal (account poolState) ->
  0 <= a <= a' ->
  0 <= stateFeeBps poolState <= 10000 ->
  0 <= buyTaxBps (account poolState) <= 10000 ->
  feeUnits (buyUnits poolState a) <= feeUnits (buyUnits poolState a') /\
  netOutUnits (buyUnits poolState a) <= netOutUnits (buyUnits poolState a').
Proof.
  intros [Hs Hvs Hp Hvp _] HS Ha Hf Ht.
  unfold buyUnits. cbn [feeUnits projectOutUnits netOutUnits].
  set (S := stableTotal (account poolState)) in *.
  set (T := tokenTotal (account poolState)).
  assert (HT : 0 <= T) by (unfold T, tokenTotal; lia).
  set (f := stateFeeBps poolState) in *.
  set (t := buyTaxBps (account poolState)) in *.
  rewrite (Z.quot_div_nonneg (a * f) 10000) by nia.
  rewrite (Z.quot_div_nonneg (a' * f) 10000) by nia.
  assert (Hfee : 0 <= a * f / 10000 <= a).
  { split; [apply Z.div_pos; nia | ]. apply Z.div_le_upper_bound; nia. }
  assert (Hfee' : 0 <= a' * f / 10000 <= a').
  { split; [apply Z.div_pos; nia | ]. apply Z.div_le_upper_bound; nia. }
  pose proof (after_fee_monotone a a' f Ha Hf) as Hnet.
  set (n := S + (a - a * f / 10000)) in *.
  set (n' := S + (a' - a' * f / 10000)) in *.
  assert (Hn : 0 < n <= n') by (unfold n, n'; lia).
  rewrite (Z.quot_div_nonneg (S * T) n) by nia.
  rewrite (Z.quot_div_nonneg (S * T) n') by nia.
  assert (Hnt : 0 <= S * T / n' <= S * T / n).
  { split; [apply Z.div_pos; nia | ]. apply Z.div_le_compat_l; [nia | lia]. }
  assert (Hup : S * T / n <= T).
  { apply Z.div_le_upper_bound; [lia | ]. unfold n. nia. }
  set (po := T - S * T / n) in *.
  set (po' := T - S * T / n') in *.
  assert (Hpo : 0 <= po <= po') by (unfold po, po'; lia).
  rewrite (Z.quot_div_nonneg (po * t) 10000) by nia.
  rewrite (Z.quot_div_nonneg (po' * t) 10000) by nia.
  split.
  - apply Z.div_le_mono; nia.
  - apply after_fee_monotone; assumption.
Qed.

(** X3: paying more never buys less.  For a valid pool with a stable side
    that is not empty, when one amount is at least the other in micro-USDC,
    neither the fee nor the number of tokens received by the larger amount
    is below that of the smaller, in base units. *)
Theorem buy_output_monotone :
  forall (poolState : PoolState) (x x' : spec_float) (a a' : Z),
    ValidPool (account poolState) ->
    0 < stableTotal (account poolState) ->
    microUsdcOf x = Normal a ->
    microUsdcOf x' = Normal a' ->
    0 <= a <= a' ->
    0 <= stateFeeBps poolState <= 10000 ->
    0 <= buyTaxBps (account poolState) <= 10000 ->
    exists u u' : BuyUnits,
      calculateBuyOutput poolState x = Normal (outputOf x u) /\
      calculateBuyOutput poolState x' = Normal (outputOf x' u') /\
      feeUnits u <= feeUnits u' /\
      netOutUnits u <= netOutUnits u'.
Proof.
  intros poolState x x' a a' Hv HS Hx Hx' Ha Hf Ht.
  pose proof (buy_units_bounds poolState a Hv HS ltac:(lia) Hf Ht) as Hb.
  pose proof (buy_units_bounds poolState a' Hv HS ltac:(lia) Hf Ht) as Hb'.
  cbn zeta in Hb, Hb'.
  exists (buyUnits poolState a), (buyUnits poolState a').
  split; [apply buy_output_units; try assumption; lia | ].
  split; [apply buy_output_units; try assumption; lia | ].
  apply buy_units_monotone; assumption.
Qed.

Lemma buy_output_monotone_witness :
  exists u u' : BuyUnits,
    calculateBuyOutput scenarioState (lit 1000) = Normal (outputOf (lit 1000) u) /\
    calculateBuyOutput scenarioState (lit 2000) = Normal (outputOf (lit 2000) u') /\
    feeUnits u <= feeUnits u' /\
    netOutUnits u <= netOutUnits u'.
Proof.
  apply (buy_output_monotone scenarioState (lit 1000) (lit 2000) 1000000000 2000000000).
  - constructor; simpl; lia.
  - reflexivity.
  - reflexivity.
  - reflexivity.
  - lia.
  - vm_compute; split; discriminate.
  - vm_compute; split; discriminate.
Defined.

(** X4: the integer quote has no [try].  On a pool whose stable side is
    empty, an amount that floors to 0 micro-USDC makes the division by the
    new stable reserve throw; an amount that [new BN] refuses (Infinity, or
    2^53 micro-USDC and more) makes the conversion throw.  Either exception
    reaches the caller. *)
Theorem buy_output_throws :
  forall (poolState : PoolState) (x : spec_float),
    0 <= stateFeeBps poolState <= 10000 ->
    (stableTotal (account poolState) = 0 -> microUsdcOf x = Normal 0 ->
     calculateBuyOutput poolState x = Throw "Assertion failed") /\
    (forall msg : string, microUsdcOf x = Throw msg ->
       calculateBuyOutput poolState x = Throw msg).
Proof.
  intros poolState x Hf. split.
  - intros HS Hx. unfold calculateBuyOutput.
    change (BN.ofNumber (Math_floor (mul x (Number_ofZ 1000000)))) with (microUsdcOf x).
    rewrite Hx. cbn [JS.bind].
    rewrite (state_fee_fits poolState Hf). cbn [JS.bind].
    unfold BN.div at 1. cbn [Z.eqb JS.bind].
    unfold BN.add, BN.sub, BN.mul.
    fold (stableTotal (account poolState)). rewrite HS.
    reflexivity.
  - intros msg Hx. unfold calculateBuyOutput.
    change (BN.ofNumber (Math_floor (mul x (Number_ofZ 1000000)))) with (microUsdcOf x).
    rewrite Hx. reflexivity.
Qed.

Lemma buy_output_throws_witness :
  0 <= stateFeeBps unfundedState <= 10000 /\
  calculateBuyOutput unfundedState tenthOfMicro = Throw "Assertion failed" /\
  calculateBuyOutput unfundedState (S754_infinity false) = Throw "Assertion failed".
Proof.
  assert (Hfee : 0 <= stateFeeBps unfundedState <= 10000) by (vm_compute; split; discriminate).
  split; [exact Hfee | ]. split.
  - exact (proj1 (buy_output_throws unfundedState tenthOfMicro Hfee) eq_refl eq_refl).
  - exact (proj2 (buy_output_throws unfundedState (S754_infinity false) Hfee)
             "Assertion failed"%string eq_refl).
Defined.

(* ===================================================================== *)
(** * The estimate and the amount sent *)
(* ===================================================================== *)

(** X5: the estimate is a quote for the amount that is sent.  Whenever
    [calculateBuyOutput] returns, [numberToBN] with the six decimals of
    USDC converts the same input to the very amount of micro-USDC the
    estimate was computed for; when the conversion inside the estimate
    throws, [numberToBN] answers 0 instead. *)
Theorem estimate_quotes_the_amount_sent :
  forall (poolState : PoolState) (x : spec_float),
    0 <= stateFeeBps poolState <= 10000 ->
    0 <= buyTaxBps (account poolState) <= 10000 ->
    (forall out : BuyOutput spec_float,
        calculateBuyOutput poolState x = Normal out ->
        exists a : Z,
          numberToBN x TOKEN_STANDARDS.USDC_DECIMALS = Normal a /\
          out = outputOf x (buyUnits poolState a)) /\
    (forall msg : string,
        microUsdcOf x = Throw msg ->
        calculateBuyOutput poolState x = Throw msg /\
        numberToBN x TOKEN_STANDARDS.USDC_DECIMALS = Normal 0).
Proof.
  intros poolState x Hf Ht.
  assert (Hconv : numberToBN x TOKEN_STANDARDS.USDC_DECIMALS
                  = JS.try_catch (microUsdcOf x) (fun _ => Normal 0)) by reflexivity.
  split.
  - intros out Hout.
    destruct (microUsdcOf x) as [a | msg] eqn:Ha.
    + exists a. split; [rewrite Hconv; reflexivity | ].
      destruct (Z.eq_dec (stableTotal (account poolState)
                          + (a - feeUnits (buyUnits poolState a))) 0) as [Hz | Hnz].
      * exfalso. revert Hout. unfold calculateBuyOutput.
        change (BN.ofNumber (Math_floor (mul x (Number_ofZ 1000000)))) with (microUsdcOf x).
        rewrite Ha. cbn [JS.bind].
        rewrite (state_fee_fits poolState Hf). cbn [JS.bind].
        unfold BN.div at 1. cbn [Z.eqb JS.bind].
        unfold BN.add, BN.sub, BN.mul.
        fold (stableTotal (account poolState)).
        cbn [buyUnits feeUnits] in Hz.
        unfold BN.div at 1. rewrite Hz. cbn [Z.eqb JS.bind]. discriminate.
      * rewrite (buy_output_units poolState x a Ha Hf Ht Hnz) in Hout.
        injection Hout as <-. reflexivity.
    + exfalso. revert Hout. unfold calculateBuyOutput.
      change (BN.ofNumber (Math_floor (mul x (Number_ofZ 1000000)))) with (microUsdcOf x).
      rewrite Ha. discriminate.
  - intros msg Ha. split.
    + unfold calculateBuyOutput.
      change (BN.ofNumber (Math_floor (mul x (Number_ofZ 1000000)))) with (microUsdcOf x).
      rewrite Ha. reflexivity.
    + rewrite Hconv, Ha. reflexivity.
Qed.

Lemma estimate_quotes_the_amount_sent_witness :
  (exists a : Z,
      numberToBN (lit 1000) TOKEN_STANDARDS.USDC_DECIMALS = Normal a /\
      outputOf (lit 1000) (buyUnits scenarioState 1000000000)
        = outputOf (lit 1000) (buyUnits scenarioState a)) /\
  calculateBuyOutput scenarioState (S754_infinity false) = Throw "Assertion failed" /\
  numberToBN (S754_infinity false) TOKEN_STANDARDS.USDC_DECIMALS = Normal 0.
Proof.
  assert (Hfee : 0 <= stateFeeBps scenarioState <= 10000)
    by (vm_compute; split; discriminate).
  assert (Htax : 0 <= buyTaxBps (account scenarioState) <= 10000)
    by (vm_compute; split; discriminate).
  split.
  - exact (proj1 (estimate_quotes_the_amount_sent scenarioState (lit 1000) Hfee Htax)
             (outputOf (lit 1000) (buyUnits scenarioState 1000000000)) eq_refl).
  - exact (proj2 (estimate_quotes_the_amount_sent scenarioState (S754_infinity false)
                    Hfee Htax)
             "Assertion failed"%string eq_refl).
Defined.

(* ===================================================================== *)
(** * The two price functions *)
(* ===================================================================== *)

(** X6: the BigInt price and the BN price.  On the same reserves
    [calculateBondingCurvePrice] and [calculateCurrentPrice] return the same
    number whenever the token side is empty (both give 0) or the integer
    quotient is below 2^53.  From 2^53 on they part: the BN version throws
    in [toNumber] and returns 0 from its [catch], the BigInt version rounds
    the quotient to the nearest number and divides it by 1000. *)
Theorem bonding_curve_price_agrees_below_2_53 :
  forall p : Pool,
    let q := Z.quot (stableTotal p * 1000) (tokenTotal p) in
    (tokenTotal p = 0 \/ Z.abs q < 2 ^ 53 ->
     Curve.calculateBondingCurvePrice (num := spec_float) (Curve.ofPool p)
       = calculateCurrentPrice (Some p)) /\
    (tokenTotal p <> 0 -> 2 ^ 53 <= Z.abs q ->
     calculateCurrentPrice (Some p) = Normal posZero /\
     Curve.calculateBondingCurvePrice (Curve.ofPool p)
       = Normal (SFdiv B64.prec B64.emax (lit q) (lit 1000))).
Proof.
  intros p q.
  assert (Hcurve : Curve.calculateBondingCurvePrice (num := spec_float) (Curve.ofPool p)
                   = if tokenTotal p =? 0 then Normal posZero
                     else Normal (SFdiv B64.prec B64.emax (lit q) (lit 1000))).
  { destruct p as [rs sv rp tv ts prm].
    unfold Curve.calculateBondingCurvePrice, Curve.ofPool, q, stableTotal, tokenTotal.
    cbn [Curve.reserveStable Curve.stableReserveVirtual Curve.reserveProject
         Curve.tokenReserveVirtual Curve.bigIntOr0
         reserveStableMint stableReserveVirtual reserveProjectMint tokenReserveVirtual].
    destruct (rp + tv =? 0); reflexivity. }
  split.
  - intros [Hz | Hq].
    + rewrite Hcurve. unfold calculateCurrentPrice, BN.eq, BN.add.
      fold (tokenTotal p). rewrite Hz. reflexivity.
    + destruct (Z.eq_dec (tokenTotal p) 0) as [Hz | Hnz].
      * rewrite Hcurve. unfold calculateCurrentPrice, BN.eq, BN.add.
        fold (tokenTotal p). rewrite Hz. reflexivity.
      * rewrite Hcurve, (current_price_value p Hnz). cbv zeta. fold q.
        apply Z.eqb_neq in Hnz. rewrite Hnz.
        apply Z.ltb_lt in Hq. rewrite Hq. reflexivity.
  - intros Hnz Hq. split.
    + rewrite (current_price_value p Hnz). cbv zeta. fold q.
      assert (Hb : (Z.abs q <? 2 ^ 53) = false) by (apply Z.ltb_ge; exact Hq).
      rewrite Hb. reflexivity.
    + rewrite Hcurve. apply Z.eqb_neq in Hnz. rewrite Hnz. reflexivity.
Qed.

Lemma bonding_curve_price_agrees_below_2_53_witness :
  Curve.calculateBondingCurvePrice (num := spec_float) (Curve.ofPool busyPool)
    = calculateCurrentPrice (Some busyPool) /\
  calculateCurrentPrice (Some lopsidedPool) = Normal posZero /\
  Curve.calculateBondingCurvePrice (Curve.ofPool lopsidedPool)
    = Normal (SFdiv B64.prec B64.emax (lit 10000000000000000000) (lit 1000)).
Proof.
  split.
  - apply (proj1 (bonding_curve_price_agrees_below_2_53 busyPool)).
    right. reflexivity.
  - apply (proj2 (bonding_curve_price_agrees_below_2_53 lopsidedPool)).
    + discriminate.
    + vm_compute. discriminate.
Defined.

(* ===================================================================== *)
(** * Progress within the sale *)
(* ===================================================================== *)

(** X7: progress is the percentage sold.  While the project reserve does
    not exceed the amount put on sale, [calculatePoolProgress] returns the
    whole number [(total - reserve) * 100 / total], rounded down; it lies
    between 0 and 100, and it is 100 only when the reserve is empty. *)
Theorem pool_progress_is_the_percentage_sold :
  forall p : Pool,
    0 < totalSellAmount p ->
    0 <= reserveProjectMint p <= totalSellAmount p ->
    let n := (totalSellAmount p - reserveProjectMint p) * 100 / totalSellAmount p in
    calculatePoolProgress (Some p) = Normal (lit n) /\
    0 <= n <= 100 /\
    (n = 100 <-> reserveProjectMint p = 0).
Proof.
  intros p Htot Hres n.
  assert (Hn : 0 <= n <= 100).
  { subst n. split.
    - apply Z.div_pos; lia.
    - apply Z.div_le_upper_bound; lia. }
  split; [ | split; [exact Hn | ]].
  - unfold calculatePoolProgress, BN.eq, BN.div, BN.sub, BN.mul, BN.toNumber.
    assert (Hne : (totalSellAmount p =? 0) = false) by (apply Z.eqb_neq; lia).
    rewrite Hne. cbv zeta. unfold JS.bind.
    rewrite Z.quot_div_nonneg by lia. fold n.
    assert (Hsmall : (Z.abs n <? 2 ^ 53) = true) by (apply Z.ltb_lt; lia).
    rewrite Hsmall. unfold JS.try_catch.
    f_equal. apply min_with_100, Hn.
  - subst n. split.
    + intros H100.
      destruct (Z.eq_dec (reserveProjectMint p) 0) as [Hz | Hnz]; [exact Hz | exfalso].
      assert ((totalSellAmount p - reserveProjectMint p) * 100 / totalSellAmount p < 100).
      { apply Z.div_lt_upper_bound; lia. }
      lia.
    + intros Hz. rewrite Hz, Z.sub_0_r.
      rewrite Z.mul_comm, Z.div_mul by lia. reflexivity.
Qed.

Lemma pool_progress_is_the_percentage_sold_witness :
  calculatePoolProgress (Some busyPool) = Normal (lit 60) /\
  0 <= 60 <= 100 /\
  (60 = 100 <-> reserveProjectMint busyPool = 0).
Proof.
  apply (pool_progress_is_the_percentage_sold busyPool).
  - reflexivity.
  - vm_compute; split; discriminate.
Defined.

(* ===================================================================== *)
(** * Errors inside the quote functions *)
(* ===================================================================== *)

(** X8: the quote functions swallow the one exception they can raise.  A
    trading fee of 2^53 basis points or more makes [toNumber] throw; for
    every pool and every amount that passes the guard, both quote
    functions then return, from their [catch], the quote with all four
    numbers 0 (the fourth, [tax], is missing from the guard's own zero
    quote). *)
Theorem quotes_swallow_the_fee_conversion_error :
  forall (p : Pool) (amount : spec_float) (f : Z),
    2 ^ 53 <= Z.abs f ->
    degenerate (Some p) (Num amount) = false ->
    let config := Some {| tradingFee := Some f |} in
    calculateBuyTokensOut (Some p) (Num amount) config
      = Normal {| amountOut := posZero; priceImpact := posZero;
                  fee := posZero; tax := Some posZero |} /\
    calculateSellUsdcOut (Some p) (Num amount) config
      = Normal {| amountOut := posZero; priceImpact := posZero;
                  fee := posZero; tax := Some posZero |}.
Proof.
  intros p amount f Hf Hguard config.
  assert (Hb : (Z.abs f <? 2 ^ 53) = false) by (apply Z.ltb_ge; exact Hf).
  split.
  - unfold calculateBuyTokensOut. rewrite Hguard.
    unfold config, tradingFeeOf, BN.toNumber. rewrite Hb. reflexivity.
  - unfold calculateSellUsdcOut. rewrite Hguard.
    unfold config, tradingFeeOf, BN.toNumber. rewrite Hb. reflexivity.
Qed.

Lemma quotes_swallow_the_fee_conversion_error_witness :
  calculateBuyTokensOut (Some scenarioPool) (Num (lit 1000))
      (Some {| tradingFee := Some (2 ^ 53) |})
    = Normal {| amountOut := posZero; priceImpact := posZero;
                fee := posZero; tax := Some posZero |} /\
  calculateSellUsdcOut (Some scenarioPool) (Num (lit 1000))
      (Some {| tradingFee := Some (2 ^ 53) |})
    = Normal {| amountOut := posZero; priceImpact := posZero;
                fee := posZero; tax := Some posZero |}.
Proof.
  apply (quotes_swallow_the_fee_conversion_error scenarioPool (lit 1000) (2 ^ 53)).
  - vm_compute. discriminate.
  - reflexivity.
Defined.

(* ===================================================================== *)
(** * More on the submission pipeline *)
(* ===================================================================== *)

Module SubmissionFacts.

Import Pipeline World Builders Accounts.
Local Open Scope string_scope.



(** X13: nothing reaches the cluster unsigned.  Every transaction
    [sendTransaction] submits is the one the wallet signed, with the
    additional signers applied in order; what the wallet signed has the
    fetched block hash, the wallet as fee payer, and the compute-unit limit
    followed by the caller's instructions; it is sent with preflight and
    three retries. *)
Theorem sendTransaction_sends_what_the_wallet_signed :
  forall (conn : Connection) (wallet : option Wallet)
         (ixs : list Instruction) (signers : list string)
         (tx : SignedTx) (opts : SendOptions),
    In (CallSendRawTransaction tx opts) (calls (sendTransaction conn wallet ixs signers)) ->
    opts = sendOptions /\
    exists (pk : string) (sign : Transaction -> Completion SignedTx)
           (latest : LatestBlockhash) (signed : SignedTx),
      wallet = Some {| publicKey := pk; signTransaction := Some sign |} /\
      getLatestBlockhash conn "confirmed" = Normal latest /\
      sign {| recentBlockhash := blockhash latest;
              feePayer := pk;
              instructions := SetComputeUnitLimit COMPUTE_UNITS.DEFAULT :: ixs |}
        = Normal signed /\
      tx = fold_left partialSign signers signed.
Proof.
  intros conn wallet ixs signers tx opts.
  unfold sendTransaction, perform, bind, try_catch, ret, raise, calls.
  destruct (getLatestBlockhash conn "confirmed") as [latest | e] eqn:Hl;
    cbn [ofCompletion fst snd app].
  2: { intros [H | []]; discriminate H. }
  destruct wallet as [[pk [sign | ]] | ]; cbn [fst snd app publicKey].
  2, 3: intros [H | []]; discriminate H.
  destruct (sign _) as [signed | e] eqn:Hs; cbn [ofCompletion fst snd app].
  2: { intros [H | [H | []]]; discriminate H. }
  assert (Hgoal : forall l : list Call,
            (forall c, In c l -> isSend c = false) ->
            In (CallSendRawTransaction tx opts)
               (CallGetLatestBlockhash "confirmed"
                  :: CallSignTransaction
                       {| recentBlockhash := blockhash latest; feePayer := pk;
                          instructions := SetComputeUnitLimit COMPUTE_UNITS.DEFAULT :: ixs |}
                  :: CallSendRawTransaction (fold_left partialSign signers signed) sendOptions
                  :: l) ->
            opts = sendOptions /\
            exists pk0 sign0 latest0 signed0,
              Some {| publicKey := pk; signTransaction := Some sign |}
                = Some {| publicKey := pk0; signTransaction := Some sign0 |} /\
              Normal latest = Normal latest0 /\
              sign0 {| recentBlockhash := blockhash latest0; feePayer := pk0;
                       instructions := SetComputeUnitLimit COMPUTE_UNITS.DEFAULT :: ixs |}
                = Normal signed0 /\
              tx = fold_left partialSign signers signed0).
  { intros l Hl' [H | [H | [H | H]]]; try discriminate H.
    - injection H as <- <-. split; [reflexivity | ].
      exists pk, sign, latest, signed. repeat split. exact Hs.
    - apply Hl' in H. discriminate H. }
  destruct (sendRawTransaction conn _ _) as [sig | e]; cbn [ofCompletion fst snd app].
  2: { apply (Hgoal []). intros c []. }
  destruct (awaitRace _ _ _) as [[[err | ]] | e | ];
    cbn [confirmationErr fst snd app];
    try (destruct (getSignatureStatus conn sig) as [st | e'];
         cbn [ofCompletion fst snd app];
         [ destruct (landed st); cbn [fst snd app] | ]);
    apply Hgoal; intros c Hc; cbn [In] in Hc;
    repeat (destruct Hc as [<- | Hc]; [reflexivity | ]); destruct Hc.
Qed.

Lemma sendTransaction_sends_what_the_wallet_signed_witness :
  let signed :=
    {| payload := {| recentBlockhash := blockhash latestA; feePayer := "payer";
                     instructions := [SetComputeUnitLimit 800000; buyIx] |};
       walletSignature := "signed-by-payer";
       partialSigners := ["mint-authority"] |} in
  sendOptions = sendOptions /\
  exists (pk : string) (sign : Transaction -> Completion SignedTx)
         (latest : LatestBlockhash) (signed0 : SignedTx),
    Some walletA = Some {| publicKey := pk; signTransaction := Some sign |} /\
    getLatestBlockhash (cluster confirmedOk statusUnknown) "confirmed" = Normal latest /\
    sign {| recentBlockhash := blockhash latest;
            feePayer := pk;
            instructions := SetComputeUnitLimit COMPUTE_UNITS.DEFAULT :: [buyIx] |}
      = Normal signed0 /\
    signed = fold_left partialSign ["mint-authority"] signed0.
Proof.
  apply (sendTransaction_sends_what_the_wallet_signed
           (cluster confirmedOk statusUnknown) (Some walletA) [buyIx] ["mint-authority"]).
  simpl. right. right. left. reflexivity.
Defined.

(** X14: a fulfilled [sendTransaction] carries the cluster's own signature.
    When the promise is fulfilled, exactly one transaction was submitted,
    and the value is the signature the cluster returned for it. *)
Theorem sendTransaction_fulfils_with_the_sent_signature :
  forall (conn : Connection) (wallet : option Wallet)
         (ixs : list Instruction) (signers : list string) (sig : string),
    result (sendTransaction conn wallet ixs signers) = Fulfilled sig ->
    exists tx : SignedTx,
      filter isSend (calls (sendTransaction conn wallet ixs signers))
        = [CallSendRawTransaction tx sendOptions] /\
      sendRawTransaction conn tx sendOptions = Normal sig.
Proof.
  intros conn wallet ixs signers sig0.
  unfold sendTransaction, perform, bind, try_catch, ret, raise, result, calls.
  destruct (getLatestBlockhash conn "confirmed") as [latest | e];
    cbn [ofCompletion fst snd app]; [ | discriminate].
  destruct wallet as [[pk [sign | ]] | ]; cbn [fst snd app publicKey];
    try discriminate.
  destruct (sign _) as [signed | e]; cbn [ofCompletion fst snd app];
    [ | discriminate].
  destruct (sendRawTransaction conn _ _) as [sig | e] eqn:Hsend;
    cbn [ofCompletion fst snd app]; [ | discriminate].
  destruct (awaitRace _ _ _) as [[[err | ]] | e | ];
    cbn [confirmationErr fst snd app];
    try (destruct (getSignatureStatus conn sig) as [st | e'];
         cbn [ofCompletion fst snd app];
         [ destruct (landed st); cbn [fst snd app] | ]);
    try discriminate;
    intros H; injection H as <-;
    eexists; (split; [reflexivity | exact Hsend]).
Qed.

Lemma sendTransaction_fulfils_with_the_sent_signature_witness :
  exists tx : SignedTx,
    filter isSend
      (calls (sendTransaction (cluster NeverSettles statusFinalized)
                (Some walletA) [buyIx] []))
      = [CallSendRawTransaction tx sendOptions] /\
    sendRawTransaction (cluster NeverSettles statusFinalized) tx sendOptions = Normal sigA.
Proof.
  apply (sendTransaction_fulfils_with_the_sent_signature
           (cluster NeverSettles statusFinalized) (Some walletA) [buyIx] [] sigA).
  reflexivity.
Defined.

(** X15: without a wallet that can sign, nothing is signed or sent.  A
    missing wallet is rejected with the [TypeError] of reading its
    [publicKey], before the "Wallet not ready" test is reached; a wallet
    without [signTransaction] is rejected with "Wallet not ready".  In both
    cases the block hash has been fetched already, and when fetching it
    fails, that failure is what the caller sees. *)
Theorem sendTransaction_without_signing_wallet :
  forall (conn : Connection) (ixs : list Instruction) (signers : list string),
    (forall latest : LatestBlockhash,
        getLatestBlockhash conn "confirmed" = Normal latest ->
        sendTransaction conn None ixs signers
          = ([CallGetLatestBlockhash "confirmed"],
             Rejected "TypeError: Cannot read properties of null") /\
        forall pk : string,
          sendTransaction conn (Some {| publicKey := pk; signTransaction := None |})
              ixs signers
            = ([CallGetLatestBlockhash "confirmed"], Rejected "Wallet not ready")) /\
    (forall (e : string) (wallet : option Wallet),
        getLatestBlockhash conn "confirmed" = Throw e ->
        sendTransaction conn wallet ixs signers
          = ([CallGetLatestBlockhash "confirmed"], Rejected e)).
Proof.
  intros conn ixs signers. split.
  - intros latest Hl. split; [ | intros pk];
      unfold sendTransaction, perform, bind, try_catch, ret, raise;
      rewrite Hl; reflexivity.
  - intros e wallet Hl.
    unfold sendTransaction, perform, bind, try_catch, ret, raise.
    rewrite Hl. reflexivity.
Qed.

Lemma sendTransaction_without_signing_wallet_witness :
  sendTransaction (cluster confirmedOk statusUnknown) None [buyIx] []
    = ([CallGetLatestBlockhash "confirmed"],
       Rejected "TypeError: Cannot read properties of null") /\
  sendTransaction (cluster confirmedOk statusUnknown) (Some walletWithoutSigner) [buyIx] []
    = ([CallGetLatestBlockhash "confirmed"], Rejected "Wallet not ready").
Proof.
  destruct (proj1 (sendTransaction_without_signing_wallet
                     (cluster confirmedOk statusUnknown) [buyIx] [])
              latestA eq_refl) as [Hnone Hsigner].
  split; [exact Hnone | exact (Hsigner "payer")].
Defined.

(** ** Builders *)

Lemma addInstructions_fields (ixs : list Instruction) (b : TransactionBuilder) :
  builderInstructions (addInstructions ixs b) = (builderInstructions b ++ ixs)%list /\
  builderSigners (addInstructions ixs b) = builderSigners b /\
  connection (addInstructions ixs b) = connection b /\
  wallet (addInstructions ixs b) = wallet b.
Proof.
  unfold addInstructions. revert b.
  induction ixs as [ | ix ixs IH]; intros b; cbn [fold_left].
  - rewrite app_nil_r. repeat split.
  - destruct (IH (addInstruction ix b)) as [Hi [Hs [Hc Hw]]].
    rewrite Hi, Hs, Hc, Hw. cbn [addInstruction builderInstructions builderSigners
                                  connection wallet].
    rewrite <- app_assoc. repeat split.
Qed.

Lemma addSigners_fields (signers : list string) (b : TransactionBuilder) :
  builderInstructions (addSigners signers b) = builderInstructions b /\
  builderSigners (addSigners signers b) = (builderSigners b ++ signers)%list /\
  connection (addSigners signers b) = connection b /\
  wallet (addSigners signers b) = wallet b.
Proof.
  unfold addSigners. revert b.
  induction signers as [ | signer signers IH]; intros b; cbn [fold_left].
  - rewrite app_nil_r. repeat split.
  - destruct (IH (addSigner signer b)) as [Hi [Hs [Hc Hw]]].
    rewrite Hi, Hs, Hc, Hw. cbn [addSigner builderInstructions builderSigners
                                  connection wallet].
    rewrite <- app_assoc. repeat split.
Qed.

(** X16: the compute budget lands in front whenever it is added.
    [addComputeBudget] puts the limit and the price, in this order, before
    every instruction the builder holds, and instructions added later go
    behind: calling it first, in between or last gives the same
    transaction.  Calling it twice stacks two budgets. *)
Theorem compute_budget_lands_in_front :
  forall (b : TransactionBuilder) (before after : list Instruction) (units price : Z),
    builderInstructions
      (addInstructions after (addComputeBudget units price (addInstructions before b)))
      = (SetComputeUnitLimit units :: SetComputeUnitPrice price
           :: builderInstructions b ++ before ++ after)%list /\
    addInstructions after (addComputeBudget units price (addInstructions before b))
      = addComputeBudget units price (addInstructions after (addInstructions before b)) /\
    builderInstructions (addComputeBudget units price (addComputeBudget units price b))
      = (SetComputeUnitLimit units :: SetComputeUnitPrice price
           :: SetComputeUnitLimit units :: SetComputeUnitPrice price
           :: builderInstructions b)%list.
Proof.
  intros b before after units price.
  assert (Hcomm : forall (ixs : list Instruction) (b0 : TransactionBuilder),
            addInstructions ixs (addComputeBudget units price b0)
              = addComputeBudget units price (addInstructions ixs b0)).
  { unfold addInstructions. induction ixs as [ | ix ixs IH]; intros b0; cbn [fold_left].
    - reflexivity.
    - rewrite <- IH. reflexivity. }
  split; [ | split; [apply Hcomm | reflexivity]].
  rewrite Hcomm. cbn [addComputeBudget builderInstructions].
  destruct (addInstructions_fields after (addInstructions before b)) as [-> _].
  destruct (addInstructions_fields before b) as [-> _].
  rewrite <- app_assoc. reflexivity.
Qed.

(** The units the trading builder asks for. *)
Lemma trading_builder_fields (conn : Connection) (w : option Wallet) (isRaydium : bool)
    (ixs : list Instruction) (signers : list string) :
  let b := addSigners signers
             (addInstructions ixs (createTradingTransactionBuilder conn w isRaydium)) in
  builderInstructions b
    = SetComputeUnitLimit (if isRaydium then 600000 else 800000)
        :: SetComputeUnitPrice 1 :: ixs /\
  builderSigners b = signers /\ connection b = conn /\ wallet b = w.
Proof.
  cbn zeta.
  destruct (addSigners_fields signers
              (addInstructions ixs (createTradingTransactionBuilder conn w isRaydium)))
    as [-> [-> [-> ->]]].
  destruct (addInstructions_fields ixs (createTradingTransactionBuilder conn w isRaydium))
    as [-> [-> [-> ->]]].
  destruct isRaydium; repeat split.
Qed.

(** X17: what a trading builder hands to the wallet and to the cluster.  For
    a builder made by [createTradingTransactionBuilder], with instructions
    and signers added afterwards, the transaction [buildAndSend] asks the
    wallet to sign has the wallet as fee payer and carries the compute-unit
    limit (600000 for a Raydium swap, 800000 otherwise), the price of 1
    micro-lamport per unit, and then the instructions in the order they
    were added; what is submitted is the wallet's signed transaction with
    the signers applied in the order they were added. *)
Theorem trading_builder_submits_budget_first :
  forall (conn : Connection) (w : option Wallet) (isRaydium : bool)
         (ixs : list Instruction) (signers : list string) (c : Call),
    In c (calls (buildAndSend
                   (addSigners signers
                      (addInstructions ixs
                         (createTradingTransactionBuilder conn w isRaydium))))) ->
    match c with
    | CallSignTransaction tx =>
        instructions tx
          = SetComputeUnitLimit (if isRaydium then 600000 else 800000)
              :: SetComputeUnitPrice 1 :: ixs /\
        exists w0 : Wallet, w = Some w0 /\ feePayer tx = publicKey w0
    | CallSendRawTransaction stx opts =>
        opts = sendOptions /\
        exists (w0 : Wallet) (sign : Transaction -> Completion SignedTx)
               (tx : Transaction) (signed : SignedTx),
          w = Some w0 /\ signTransaction w0 = Some sign /\
          sign tx = Normal signed /\
          instructions tx
            = SetComputeUnitLimit (if isRaydium then 600000 else 800000)
                :: SetComputeUnitPrice 1 :: ixs /\
          stx = fold_left partialSign signers signed
    | _ => True
    end.
Proof.
  intros conn w isRaydium ixs signers c.
  pose proof (trading_builder_fields conn w isRaydium ixs signers) as Hf.
  cbn zeta in Hf.
  set (b := addSigners signers
              (addInstructions ixs (createTradingTransactionBuilder conn w isRaydium))) in *.
  destruct Hf as [Hi [Hs [Hc Hw]]].
  unfold buildAndSend, build, perform, bind, ret, raise, calls.
  rewrite Hi, Hs, Hc, Hw.
  destruct (getLatestBlockhash conn "confirmed") as [latest | e];
    cbn [ofCompletion fst app].
  2: { intros [<- | []]; exact I. }
  destruct w as [[pk [sign | ]] | ]; cbn [fst app publicKey].
  2, 3: intros [<- | []]; exact I.
  set (tx := {| recentBlockhash := blockhash latest; feePayer := pk;
                instructions := SetComputeUnitLimit (if isRaydium then 600000 else 800000)
                                  :: SetComputeUnitPrice 1 :: ixs |}).
  assert (Hsign : instructions tx
                    = SetComputeUnitLimit (if isRaydium then 600000 else 800000)
                        :: SetComputeUnitPrice 1 :: ixs /\
                  exists w0 : Wallet,
                    Some {| publicKey := pk; signTransaction := Some sign |} = Some w0 /\
                    feePayer tx = publicKey w0).
  { split; [reflexivity | ]. eexists; split; reflexivity. }
  destruct (sign tx) as [signed | e] eqn:Hsigned; cbn [ofCompletion fst app].
  2: { intros [<- | [<- | []]]; [exact I | exact Hsign]. }
  assert (Hsend : sendOptions = sendOptions /\
            exists (w0 : Wallet) (sign0 : Transaction -> Completion SignedTx)
                   (tx0 : Transaction) (signed0 : SignedTx),
              Some {| publicKey := pk; signTransaction := Some sign |} = Some w0 /\
              signTransaction w0 = Some sign0 /\
              sign0 tx0 = Normal signed0 /\
              instructions tx0
                = SetComputeUnitLimit (if isRaydium then 600000 else 800000)
                    :: SetComputeUnitPrice 1 :: ixs /\
              fold_left partialSign signers signed = fold_left partialSign signers signed0).
  { split; [reflexivity | ].
    exists {| publicKey := pk; signTransaction := Some sign |}, sign, tx, signed.
    repeat split. exact Hsigned. }
  destruct (sendRawTransaction conn _ _) as [sig | e]; cbn [ofCompletion fst app].
  2: { intros [<- | [<- | [<- | []]]]; [exact I | exact Hsign | exact Hsend]. }
  destruct (await _) as [conf | e | ]; cbn [fst app];
    intros [<- | [<- | [<- | [<- | []]]]];
    first [exact I | exact Hsign | exact Hsend].
Qed.

Lemma trading_builder_submits_budget_first_witness :
  let tx := {| recentBlockhash := blockhash latestA; feePayer := "payer";
               instructions := [SetComputeUnitLimit 600000; SetComputeUnitPrice 1;
                                buyIx] |} in
  instructions tx = [SetComputeUnitLimit 600000; SetComputeUnitPrice 1; buyIx] /\
  exists w0 : Wallet, Some walletA = Some w0 /\ feePayer tx = publicKey w0.
Proof.
  apply (trading_builder_submits_budget_first
           (cluster confirmedOk statusUnknown) (Some walletA) true [buyIx]
           ["mint-authority"]
           (CallSignTransaction
              {| recentBlockhash := blockhash latestA; feePayer := "payer";
                 instructions := [SetComputeUnitLimit 600000; SetComputeUnitPrice 1;
                                  buyIx] |})).
  simpl. right. left. reflexivity.
Defined.

(** ** Associated token accounts *)

Section AssociatedAccountFacts.

Variable getAccountInfo : string -> Completion (option AccountInfo).
Variable createIx : string -> string -> string -> string -> Instruction.

Lemma addCreateATAIfNeeded_fields (request : AtaRequest) (b : TransactionBuilder)
    (w : Wallet) :
  wallet b = Some w ->
  let b' := addCreateATAIfNeeded getAccountInfo createIx
              (ata request) (owner request) (mint request) None b in
  builderInstructions b'
    = (builderInstructions b ++
       (if missing getAccountInfo request
        then [createIx (publicKey w) (ata request) (owner request) (mint request)]
        else []))%list /\
  builderSigners b' = builderSigners b /\
  connection b' = connection b /\
  wallet b' = Some w.
Proof.
  intros Hw. cbn zeta. unfold addCreateATAIfNeeded, missing, payerOf.
  rewrite Hw.
  destruct (getAccountInfo (ata request)) as [[info | ] | e];
    cbn [JS.bind JS.try_catch addInstruction builderInstructions builderSigners
         connection wallet];
    rewrite ?app_nil_r; repeat split; exact Hw.
Qed.

Lemma addMultipleATAs_fields (atas : list AtaRequest) (b : TransactionBuilder)
    (w : Wallet) :
  wallet b = Some w ->
  builderInstructions (addMultipleATAs getAccountInfo createIx atas b)
    = (builderInstructions b ++
       map (fun request =>
              createIx (publicKey w) (ata request) (owner request) (mint request))
           (filter (missing getAccountInfo) atas))%list /\
  builderSigners (addMultipleATAs getAccountInfo createIx atas b) = builderSigners b /\
  connection (addMultipleATAs getAccountInfo createIx atas b) = connection b /\
  wallet (addMultipleATAs getAccountInfo createIx atas b) = Some w.
Proof.
  unfold addMultipleATAs. revert b.
  induction atas as [ | request atas IH]; intros b Hw; cbn [fold_left filter map].
  - rewrite app_nil_r. repeat split. exact Hw.
  - destruct (addCreateATAIfNeeded_fields request b w Hw) as [Hi [Hs [Hc Hw']]].
    cbn zeta in Hi, Hs, Hc, Hw'.
    destruct (IH _ Hw') as [Hi2 [Hs2 [Hc2 Hw2]]].
    rewrite Hi2, Hs2, Hc2, Hw2, Hi, Hs, Hc.
    split; [ | repeat split].
    rewrite <- app_assoc. f_equal.
    destruct (missing getAccountInfo request); reflexivity.
Qed.

End AssociatedAccountFacts.

(** X18: [addMultipleATAs] appends one creation per missing account.  With a
    wallet connected, the builder gets, behind the instructions it holds,
    one [createAssociatedTokenAccountInstruction] paid by the wallet for
    every requested account that [getAccountInfo] reports as missing, in
    the order of the requests; accounts that exist, and accounts whose
    lookup fails, add nothing, and no failure reaches the caller.  Signers,
    connection and wallet are unchanged. *)
Theorem addMultipleATAs_appends_the_missing_accounts :
  forall (getAccountInfo : string -> Completion (option AccountInfo))
         (createIx : string -> string -> string -> string -> Instruction)
         (atas : list AtaRequest) (b : TransactionBuilder) (w : Wallet),
    wallet b = Some w ->
    addMultipleATAs getAccountInfo createIx atas b
      = addInstructions
          (map (fun request =>
                  createIx (publicKey w) (ata request) (owner request) (mint request))
               (filter (missing getAccountInfo) atas))
          b.
Proof.
  intros getAccountInfo createIx atas b w Hw.
  destruct (addMultipleATAs_fields getAccountInfo createIx atas b w Hw)
    as [Hi [Hs [Hc Hw']]].
  set (created := map _ _) in *.
  destruct (addInstructions_fields created b) as [Hi2 [Hs2 [Hc2 Hw2]]].
  destruct (addMultipleATAs getAccountInfo createIx atas b) as [c1 w1 i1 s1].
  destruct (addInstructions created b) as [c2 w2 i2 s2].
  cbn [builderInstructions builderSigners connection wallet] in *.
  congruence.
Qed.

Lemma addMultipleATAs_appends_the_missing_accounts_witness :
  let b := createTradingTransactionBuilder (cluster confirmedOk statusUnknown)
             (Some walletA) false in
  addMultipleATAs noAccounts createAta [userUsdc; userToken] b
    = addInstructions
        (map (fun request =>
                createAta (publicKey walletA) (ata request) (owner request) (mint request))
             (filter (missing noAccounts) [userUsdc; userToken]))
        b.
Proof.
  apply (addMultipleATAs_appends_the_missing_accounts noAccounts createAta
           [userUsdc; userToken]
           (createTradingTransactionBuilder (cluster confirmedOk statusUnknown)
              (Some walletA) false)
           walletA).
  reflexivity.
Defined.

(** X19: the account check is not remembered.  Requesting the same missing
    account twice adds its creation twice: the second lookup still finds
    no account, since nothing has been sent in between. *)
Theorem addCreateATAIfNeeded_twice_creates_twice :
  forall (getAccountInfo : string -> Completion (option AccountInfo))
         (createIx : string -> string -> string -> string -> Instruction)
         (request : AtaRequest) (b : TransactionBuilder) (w : Wallet),
    wallet b = Some w ->
    getAccountInfo (ata request) = Normal None ->
    let create := createIx (publicKey w) (ata request) (owner request) (mint request) in
    builderInstructions
      (addCreateATAIfNeeded getAccountInfo createIx
         (ata request) (owner request) (mint request) None
         (addCreateATAIfNeeded getAccountInfo createIx
            (ata request) (owner request) (mint request) None b))
      = (builderInstructions b ++ [create; create])%list.
Proof.
  intros getAccountInfo createIx request b w Hw Hmiss. cbn zeta.
  destruct (addCreateATAIfNeeded_fields getAccountInfo createIx request b w Hw)
    as [Hi [_ [_ Hw']]].
  cbn zeta in Hi, Hw'.
  destruct (addCreateATAIfNeeded_fields getAccountInfo createIx request _ w Hw')
    as [Hi2 _].
  cbn zeta in Hi2. rewrite Hi2, Hi.
  unfold missing. rewrite Hmiss. rewrite <- app_assoc. reflexivity.
Qed.

Lemma addCreateATAIfNeeded_twice_creates_twice_witness :
  let b := createTradingTransactionBuilder (cluster confirmedOk statusUnknown)
             (Some walletA) false in
  let create := createAta (publicKey walletA) (ata userUsdc) (owner userUsdc)
                  (mint userUsdc) in
  builderInstructions
    (addCreateATAIfNeeded noAccounts createAta
       (ata userUsdc) (owner userUsdc) (mint userUsdc) None
       (addCreateATAIfNeeded noAccounts createAta
          (ata userUsdc) (owner userUsdc) (mint userUsdc) None b))
    = (builderInstructions b ++ [create; create])%list.
Proof.
  apply (addCreateATAIfNeeded_twice_creates_twice noAccounts createAta userUsdc
           (createTradingTransactionBuilder (cluster confirmedOk statusUnknown)
              (Some walletA) false)
           walletA).
  - reflexivity.
  - reflexivity.
Defined.

(** X20: without a wallet the account helper changes nothing.  Reading the
    payer from a missing wallet throws inside the [try]; the [catch] logs
    and the builder is returned as it was, whatever the lookups say. *)
Theorem addMultipleATAs_without_wallet :
  forall (getAccountInfo : string -> Completion (option AccountInfo))
         (createIx : string -> string -> string -> string -> Instruction)
         (atas : list AtaRequest) (b : TransactionBuilder),
    wallet b = None ->
    addMultipleATAs getAccountInfo createIx atas b = b.
Proof.
  intros getAccountInfo createIx atas b Hw.
  unfold addMultipleATAs.
  induction atas as [ | request atas IH]; cbn [fold_left]; [reflexivity | ].
  replace (addCreateATAIfNeeded getAccountInfo createIx
             (ata request) (owner request) (mint request) None b) with b; [exact IH | ].
  unfold addCreateATAIfNeeded, payerOf. rewrite Hw.
  destruct (getAccountInfo (ata request)) as [[info | ] | e]; reflexivity.
Qed.

Lemma addMultipleATAs_without_wallet_witness :
  let b := createTradingTransactionBuilder (cluster confirmedOk statusUnknown) None false in
  addMultipleATAs noAccounts createAta [userUsdc; userToken] b = b.
Proof.
  apply (addMultipleATAs_without_wallet noAccounts createAta [userUsdc; userToken]
           (createTradingTransactionBuilder (cluster confirmedOk statusUnknown) None false)).
  reflexivity.
Defined.

End SubmissionFacts.

(* ===================================================================== *)
(** * Retrying with backoff *)
(* ===================================================================== *)

Module RetryFacts.

Import Errors Handling.
Local Open Scope string_scope.

Lemma attempts_app (l1 l2 : list Step) :
  attempts (l1 ++ l2) = (attempts l1 + attempts l2)%nat.
Proof.
  induction l1 as [ | [i | ms] l1 IH]; cbn [app attempts]; [reflexivity | | exact IH].
  rewrite IH. reflexivity.
Qed.

Lemma waited_app (l1 l2 : list Step) :
  waited (l1 ++ l2) = waited l1 + waited l2.
Proof.
  induction l1 as [ | [i | ms] l1 IH]; cbn [app waited]; [reflexivity | exact IH | ].
  rewrite IH. lia.
Qed.

Lemma pow2_succ (i : nat) : 2 ^ Z.of_nat (S i) = 2 * 2 ^ Z.of_nat i.
Proof. rewrite Nat2Z.inj_succ, Z.pow_succ_r by lia. reflexivity. Qed.

(** The loop up to the first call that returns or is rejected by the
    user: every earlier call is followed by its wait. *)
Lemma retryLoop_stops {A : Type} (fn : nat -> Outcome A) (maxRetries : nat) (baseDelay : Z)
    (j : nat) (settled : Settled A) :
  (j < maxRetries)%nat ->
  match fn j with
  | Returned a => settled = RetryFulfilled a
  | Threw error => userRejected error = true /\ settled = RetryRejected (Some error)
  end ->
  forall (remaining i : nat) (lastError : option JsError),
    (i <= j)%nat -> (i + remaining = maxRetries)%nat ->
    (forall k, (i <= k < j)%nat -> FailsAt fn k) ->
    exists steps : list Step,
      retryLoop fn maxRetries baseDelay remaining i lastError
        = ((steps ++ [Attempt j])%list, settled) /\
      attempts steps = (j - i)%nat /\
      waited steps = baseDelay * (2 ^ Z.of_nat j - 2 ^ Z.of_nat i).
Proof.
  intros Hj Hstop remaining.
  induction remaining as [ | remaining IH]; intros i lastError Hi Hrem Hfail.
  - lia.
  - cbn [retryLoop].
    destruct (Nat.eq_dec i j) as [-> | Hne].
    + exists []. cbn [app attempts waited].
      split; [ | split; [lia | lia]].
      destruct (fn j) as [a | error].
      * subst settled. reflexivity.
      * destruct Hstop as [-> ->]. reflexivity.
    + destruct (Hfail i ltac:(lia)) as [error [-> Hnot]].
      rewrite Hnot.
      assert (Hlt : (S i <? maxRetries)%nat = true) by (apply Nat.ltb_lt; lia).
      rewrite Hlt.
      destruct (IH (S i) (Some error) ltac:(lia) ltac:(lia)) as [steps [-> [Hat Hw]]].
      { intros k Hk. apply Hfail. lia. }
      exists (Attempt i :: Wait (baseDelay * 2 ^ Z.of_nat i) :: steps).
      split; [reflexivity | ].
      cbn [attempts waited]. rewrite Hat, Hw, pow2_succ.
      split; lia.
Qed.

(** The loop when every remaining call fails: a wait after each call but
    the last. *)
Lemma retryLoop_exhausts {A : Type} (fn : nat -> Outcome A) (maxRetries : nat)
    (baseDelay : Z) :
  forall (remaining i : nat) (lastError : option JsError),
    (i + remaining = maxRetries)%nat ->
    (forall k, (i <= k < maxRetries)%nat -> FailsAt fn k) ->
    exists steps : list Step,
      retryLoop (A := A) fn maxRetries baseDelay remaining i lastError
        = (steps,
           RetryRejected
             match remaining with
             | O => lastError
             | S _ => match fn (maxRetries - 1)%nat with
                      | Threw error => Some error
                      | Returned _ => None
                      end
             end) /\
      attempts steps = remaining /\
      waited steps =
        match remaining with
        | O => 0
        | S _ => baseDelay * (2 ^ Z.of_nat (maxRetries - 1) - 2 ^ Z.of_nat i)
        end.
Proof.
  induction remaining as [ | remaining IH]; intros i lastError Hrem Hfail.
  - exists []. repeat split.
  - cbn [retryLoop].
    destruct (Hfail i ltac:(lia)) as [error [Hfn Hnot]].
    rewrite Hfn, Hnot.
    destruct (IH (S i) (Some error) ltac:(lia)) as [steps [-> [Hat Hw]]].
    { intros k Hk. apply Hfail. lia. }
    destruct remaining as [ | remaining].
    + (* the last call *)
      assert (Hlast : (maxRetries - 1 = i)%nat) by lia.
      assert (Hlt : (S i <? maxRetries)%nat = false) by (apply Nat.ltb_ge; lia).
      rewrite Hlt, Hlast, Hfn. cbn [app].
      exists (Attempt i :: steps).
      split; [reflexivity | ].
      cbn [attempts waited]. rewrite Hat, Hw. split; lia.
    + assert (Hlt : (S i <? maxRetries)%nat = true) by (apply Nat.ltb_lt; lia).
      rewrite Hlt. cbn [app].
      exists (Attempt i :: Wait (baseDelay * 2 ^ Z.of_nat i) :: steps).
      split; [reflexivity | ].
      cbn [attempts waited]. rewrite Hat, Hw, pow2_succ.
      split; lia.
Qed.

(** X21: the first call that returns ends the retries.  When the calls
    before number [j] fail with errors other than a rejection by the user
    and call [j] returns, with [j < maxRetries], the promise is fulfilled
    with that value after exactly [j + 1] calls; the waits lie between the
    calls only, double each time, and add up to
    [baseDelay * (2^j - 1)] milliseconds. *)
Theorem retry_returns_the_first_success :
  forall (A : Type) (fn : nat -> Outcome A) (maxRetries : nat) (baseDelay : Z)
         (j : nat) (a : A),
    (j < maxRetries)%nat ->
    (forall k, (k < j)%nat -> FailsAt fn k) ->
    fn j = Returned a ->
    exists steps : list Step,
      retryWithBackoff fn maxRetries baseDelay
        = ((steps ++ [Attempt j])%list, RetryFulfilled a) /\
      attempts (steps ++ [Attempt j]) = S j /\
      waited (steps ++ [Attempt j]) = baseDelay * (2 ^ Z.of_nat j - 1).
Proof.
  intros A fn maxRetries baseDelay j a Hj Hfail Hret.
  destruct (retryLoop_stops fn maxRetries baseDelay j (RetryFulfilled a) Hj
              ltac:(rewrite Hret; reflexivity) maxRetries 0%nat None
              ltac:(lia) ltac:(lia))
    as [steps [Heq [Hat Hw]]].
  { intros k Hk. apply Hfail. lia. }
  exists steps. split; [exact Heq | ].
  rewrite attempts_app, waited_app, Hat, Hw. cbn [attempts waited Z.of_nat].
  split; [lia | ]. change (2 ^ 0) with 1. lia.
Qed.

Lemma retry_returns_the_first_success_witness :
  exists steps : list Step,
    retryWithBackoff flaky 3 1000
      = ((steps ++ [Attempt 2])%list, RetryFulfilled "signature") /\
    attempts (steps ++ [Attempt 2]) = 3%nat /\
    waited (steps ++ [Attempt 2]) = 1000 * (2 ^ Z.of_nat 2 - 1).
Proof.
  apply (retry_returns_the_first_success string flaky 3 1000 2 "signature").
  - lia.
  - intros k Hk. destruct k as [ | [ | k]].
    + eexists. split; reflexivity.
    + eexists. split; reflexivity.
    + lia.
  - reflexivity.
Defined.

(** X22: a rejection by the user is never retried.  When call [j] throws an
    error whose message includes "User rejected", after earlier calls that
    failed otherwise, the promise is rejected with that very error; call
    [j] is the last thing that happens: no wait follows, and [fn] is not
    called again although calls remain. *)
Theorem retry_stops_on_user_rejection :
  forall (A : Type) (fn : nat -> Outcome A) (maxRetries : nat) (baseDelay : Z)
         (j : nat) (error : JsError),
    (j < maxRetries)%nat ->
    (forall k, (k < j)%nat -> FailsAt fn k) ->
    fn j = Threw error ->
    userRejected error = true ->
    exists steps : list Step,
      retryWithBackoff fn maxRetries baseDelay
        = ((steps ++ [Attempt j])%list, RetryRejected (Some error)) /\
      attempts (steps ++ [Attempt j]) = S j /\
      waited (steps ++ [Attempt j]) = baseDelay * (2 ^ Z.of_nat j - 1).
Proof.
  intros A fn maxRetries baseDelay j error Hj Hfail Hthrow Hrej.
  destruct (retryLoop_stops fn maxRetries baseDelay j (RetryRejected (Some error)) Hj
              ltac:(rewrite Hthrow; split; [exact Hrej | reflexivity])
              maxRetries 0%nat None ltac:(lia) ltac:(lia))
    as [steps [Heq [Hat Hw]]].
  { intros k Hk. apply Hfail. lia. }
  exists steps. split; [exact Heq | ].
  rewrite attempts_app, waited_app, Hat, Hw. cbn [attempts waited Z.of_nat].
  split; [lia | ]. change (2 ^ 0) with 1. lia.
Qed.

Lemma retry_stops_on_user_rejection_witness :
  exists steps : list Step,
    retryWithBackoff declined 3 1000
      = ((steps ++ [Attempt 1])%list, RetryRejected (Some Payloads.rejectedError)) /\
    attempts (steps ++ [Attempt 1]) = 2%nat /\
    waited (steps ++ [Attempt 1]) = 1000 * (2 ^ Z.of_nat 1 - 1).
Proof.
  apply (retry_stops_on_user_rejection string declined 3 1000 1 Payloads.rejectedError).
  - lia.
  - intros k Hk. destruct k as [ | k].
    + eexists. split; reflexivity.
    + lia.
  - reflexivity.
  - reflexivity.
Defined.

(** X23: giving up.  When all [maxRetries] calls fail with errors other
    than a rejection by the user, [fn] is called exactly [maxRetries]
    times and the promise is rejected with the error of the last call;
    there is a wait after every call but the last, [baseDelay *
    (2^(maxRetries-1) - 1)] milliseconds in all.  With [maxRetries = 0]
    the function is never called and the promise is rejected with
    [undefined]. *)
Theorem retry_gives_up_with_the_last_error :
  forall (A : Type) (fn : nat -> Outcome A) (maxRetries : nat) (baseDelay : Z),
    (forall k, (k < maxRetries)%nat -> FailsAt fn k) ->
    exists steps : list Step,
      retryWithBackoff fn maxRetries baseDelay
        = (steps,
           RetryRejected
             match maxRetries with
             | O => None
             | S last => match fn last with
                         | Threw error => Some error
                         | Returned _ => None
                         end
             end) /\
      attempts steps = maxRetries /\
      waited steps =
        match maxRetries with
        | O => 0
        | S last => baseDelay * (2 ^ Z.of_nat last - 1)
        end.
Proof.
  intros A fn maxRetries baseDelay Hfail.
  destruct (retryLoop_exhausts fn maxRetries baseDelay maxRetries 0%nat None
              ltac:(lia))
    as [steps [Heq [Hat Hw]]].
  { intros k Hk. apply Hfail. lia. }
  exists steps. unfold retryWithBackoff. rewrite Heq, Hat, Hw.
  destruct maxRetries as [ | last].
  - repeat split.
  - replace (S last - 1)%nat with last by lia.
    cbn [Z.of_nat]. change (2 ^ 0) with 1. repeat split.
Qed.

Lemma retry_gives_up_with_the_last_error_witness :
  exists steps : list Step,
    retryWithBackoff down 3 1000
      = (steps,
         RetryRejected
           (Some {| message := Some "fetch failed";
                    toString := "TypeError: fetch failed" |})) /\
    attempts steps = 3%nat /\
    waited steps = 1000 * (2 ^ Z.of_nat 2 - 1).
Proof.
  apply (retry_gives_up_with_the_last_error string down 3 1000).
  intros k Hk. eexists. split; reflexivity.
Defined.

End RetryFacts.

(* ===================================================================== *)
(** * More on error normalisation *)
(* ===================================================================== *)

Module MessageFacts.

Import Errors Payloads Handling.
Local Open Scope string_scope.

Lemma lookupMapped_in (entries : list (string * string)) (errorMessage value : string) :
  lookupMapped entries errorMessage = Some value -> In value (map snd entries).
Proof.
  induction entries as [ | [key v] entries IH]; cbn [lookupMapped map snd In].
  - discriminate.
  - destruct (includes key errorMessage).
    + intros H; injection H as <-. left; reflexivity.
    + intros H. right. exact (IH H).
Qed.

(** A property of strings that holds of every message the parser has in
    store holds of its answer, provided it holds of the payload's own
    message whenever that is at most 100 characters long. *)
Lemma parseMessage_answers (P : string -> bool) (errorMessage : string) :
  forallb P [ERROR_MESSAGES.INSUFFICIENT_LIQUIDITY; ERROR_MESSAGES.GLOBAL_LIMIT_EXCEEDED;
             ERROR_MESSAGES.WALLET_LIMIT_EXCEEDED; ERROR_MESSAGES.INSUFFICIENT_BALANCE;
             "Transaction cancelled"; "Transaction simulation failed. Please try again.";
             "Network error. Please try again."; ERROR_MESSAGES.TRANSACTION_FAILED] = true ->
  forallb P (map snd errorMap) = true ->
  ((String.length errorMessage <= 100)%nat -> P errorMessage = true) ->
  P (parseMessage errorMessage) = true.
Proof.
  intros Hcanned Hmap Hown.
  cbn [forallb] in Hcanned.
  repeat (apply andb_prop in Hcanned; destruct Hcanned as [? Hcanned]).
  unfold parseMessage, knownCode.
  destruct (matchHexCode errorMessage) as [code | ].
  - unfold codeMessage.
    destruct (String.eqb code "0x1771"); [assumption | ].
    destruct (String.eqb code "0x1786"); [assumption | ].
    destruct (String.eqb code "0x1787"); [assumption | ].
    destruct (lookupMapped errorMap errorMessage) as [value | ] eqn:Hl.
    + apply lookupMapped_in in Hl. rewrite forallb_forall in Hmap. exact (Hmap _ Hl).
    + unfold commonMessage.
      repeat (match goal with
              | |- context [if includes ?k errorMessage then _ else _] =>
                  destruct (includes k errorMessage); [assumption | ]
              end).
      destruct (100 <? String.length errorMessage)%nat eqn:Hlen; [assumption | ].
      apply Hown. apply Nat.ltb_ge in Hlen. exact Hlen.
  - destruct (lookupMapped errorMap errorMessage) as [value | ] eqn:Hl.
    + apply lookupMapped_in in Hl. rewrite forallb_forall in Hmap. exact (Hmap _ Hl).
    + unfold commonMessage.
      repeat (match goal with
              | |- context [if includes ?k errorMessage then _ else _] =>
                  destruct (includes k errorMessage); [assumption | ]
              end).
      destruct (100 <? String.length errorMessage)%nat eqn:Hlen; [assumption | ].
      apply Hown. apply Nat.ltb_ge in Hlen. exact Hlen.
Qed.

(** X24: the parser never shows more than 100 characters.  Whatever the
    payload is (an error object with any message, an object without one,
    or nothing), the text [parseProgramError] returns is at most 100
    characters long: a longer payload is replaced, never passed on. *)
Theorem parseProgramError_is_short :
  forall error : option JsError,
    (String.length (parseProgramError error) <= 100)%nat.
Proof.
  intros [e | ]; cbn [parseProgramError].
  - apply Nat.leb_le.
    apply (parseMessage_answers (fun s => (String.length s <=? 100)%nat)).
    + vm_compute. reflexivity.
    + vm_compute. reflexivity.
    + intros H. apply Nat.leb_le. exact H.
  - apply Nat.leb_le. vm_compute. reflexivity.
Qed.

(** [key1] begins [key2], and [key2] occurs in [s]: so does [key1]. *)
Lemma startsWith_trans (key1 key2 s : string) :
  startsWith key1 key2 = true -> startsWith key2 s = true -> startsWith key1 s = true.
Proof.
  revert key2 s.
  induction key1 as [ | c key1 IH]; intros key2 s H12 H2; [reflexivity | ].
  destruct key2 as [ | c2 key2]; [discriminate H12 | ].
  destruct s as [ | c3 s]; [discriminate H2 | ].
  cbn [startsWith] in *.
  apply andb_prop in H12; destruct H12 as [Hc Hk].
  apply andb_prop in H2; destruct H2 as [Hc2 Hk2].
  apply Ascii.eqb_eq in Hc. apply Ascii.eqb_eq in Hc2. subst c2 c3.
  rewrite Ascii.eqb_refl. cbn [andb]. exact (IH _ _ Hk Hk2).
Qed.

Lemma includes_prefix (key1 key2 s : string) :
  startsWith key1 key2 = true -> includes key2 s = true -> includes key1 s = true.
Proof.
  intros H12.
  induction s as [ | c s IH]; cbn [includes]; intros H.
  - apply orb_prop in H; destruct H as [H | H]; [ | discriminate H].
    rewrite (startsWith_trans _ _ _ H12 H). reflexivity.
  - apply orb_prop in H; destruct H as [H | H].
    + rewrite (startsWith_trans _ _ _ H12 H). reflexivity.
    + rewrite (IH H). apply orb_true_r.
Qed.

(** The walk over the map stops at the first key that occurs. *)
Lemma lookupMapped_stops (pre post : list (string * string)) (key value : string)
    (errorMessage : string) :
  includes key errorMessage = true ->
  exists v : string,
    lookupMapped (pre ++ (key, value) :: post) errorMessage = Some v /\
    In v (map snd pre ++ [value]).
Proof.
  intros Hk.
  induction pre as [ | [k0 v0] pre IH]; cbn [app lookupMapped map snd].
  - rewrite Hk. exists value. split; [reflexivity | left; reflexivity].
  - destruct (includes k0 errorMessage).
    + exists v0. split; [reflexivity | left; reflexivity].
    + destruct IH as [v [Hv Hin]]. exists v. split; [exact Hv | right; exact Hin].
Qed.

(** What the parser answers when a key of the map occurs in the message:
    the message of a known code, or a value at or before that key. *)
Lemma parseMessage_mapped (pre post : list (string * string)) (key value : string)
    (errorMessage : string) :
  errorMap = (pre ++ (key, value) :: post)%list ->
  includes key errorMessage = true ->
  In (parseMessage errorMessage)
     ([ERROR_MESSAGES.INSUFFICIENT_LIQUIDITY; ERROR_MESSAGES.GLOBAL_LIMIT_EXCEEDED;
       ERROR_MESSAGES.WALLET_LIMIT_EXCEEDED] ++ map snd pre ++ [value]).
Proof.
  intros Hmap Hk.
  destruct (lookupMapped_stops pre post key value errorMessage Hk) as [v [Hv Hin]].
  rewrite <- Hmap in Hv.
  unfold parseMessage, knownCode.
  destruct (matchHexCode errorMessage) as [code | ].
  - unfold codeMessage.
    destruct (String.eqb code "0x1771"); [left; reflexivity | ].
    destruct (String.eqb code "0x1786"); [right; left; reflexivity | ].
    destruct (String.eqb code "0x1787"); [right; right; left; reflexivity | ].
    rewrite Hv. right; right; right. exact Hin.
  - rewrite Hv. right; right; right. exact Hin.
Qed.

Lemma not_in_by_eqb (target : string) (l : list string) :
  forallb (fun s => negb (String.eqb s target)) l = true -> ~ In target l.
Proof.
  intros H Hin. rewrite forallb_forall in H.
  specialize (H _ Hin). rewrite String.eqb_refl in H. discriminate H.
Qed.

(** X25: two entries of the error map can never answer.  The keys
    "InsufficientLiquidityForPool" and "InvalidFeeTier" come after
    "InsufficientLiquidity" and "InvalidFee", which begin them: a payload
    that names one of the two longer errors is answered with an earlier
    message, and the messages written for them ("Insufficient liquidity for
    Raydium pool", "Invalid fee tier selected") are never returned for
    it. *)
Theorem shadowed_error_names_never_answer :
  forall error : JsError,
    In ("InsufficientLiquidityForPool", "Insufficient liquidity for Raydium pool") errorMap /\
    In ("InvalidFeeTier", "Invalid fee tier selected") errorMap /\
    (includes "InsufficientLiquidityForPool" (errorMessageOf error) = true ->
     parseProgramError (Some error) <> "Insufficient liquidity for Raydium pool") /\
    (includes "InvalidFeeTier" (errorMessageOf error) = true ->
     parseProgramError (Some error) <> "Invalid fee tier selected").
Proof.
  intros error.
  split; [cbn; tauto | ]. split; [cbn; tauto | ].
  cbn [parseProgramError]. split; intros Hinc Heq.
  - assert (Hshort : includes "InsufficientLiquidity" (errorMessageOf error) = true)
      by (apply (includes_prefix _ "InsufficientLiquidityForPool"); [reflexivity | exact Hinc]).
    pose proof (parseMessage_mapped (firstn 10 errorMap) (skipn 11 errorMap)
                  "InsufficientLiquidity" ERROR_MESSAGES.INSUFFICIENT_LIQUIDITY
                  (errorMessageOf error) eq_refl Hshort) as Hin.
    rewrite Heq in Hin. revert Hin. apply not_in_by_eqb. vm_compute. reflexivity.
  - assert (Hshort : includes "InvalidFee" (errorMessageOf error) = true)
      by (apply (includes_prefix _ "InvalidFeeTier"); [reflexivity | exact Hinc]).
    pose proof (parseMessage_mapped (firstn 28 errorMap) (skipn 29 errorMap)
                  "InvalidFee" "Invalid fee amount"
                  (errorMessageOf error) eq_refl Hshort) as Hin.
    rewrite Heq in Hin. revert Hin. apply not_in_by_eqb. vm_compute. reflexivity.
Qed.

Lemma shadowed_error_names_never_answer_witness :
  parseProgramError
    (Some {| message := Some "Error Code: InsufficientLiquidityForPool.";
             toString := "Error: Error Code: InsufficientLiquidityForPool." |})
    <> "Insufficient liquidity for Raydium pool" /\
  parseProgramError
    (Some {| message := Some "Error Code: InvalidFeeTier.";
             toString := "Error: Error Code: InvalidFeeTier." |})
    <> "Invalid fee tier selected".
Proof.
  split.
  - apply (proj1 (proj2 (proj2 (shadowed_error_names_never_answer
             {| message := Some "Error Code: InsufficientLiquidityForPool.";
                toString := "Error: Error Code: InsufficientLiquidityForPool." |})))).
    reflexivity.
  - apply (proj2 (proj2 (proj2 (shadowed_error_names_never_answer
             {| message := Some "Error Code: InvalidFeeTier.";
                toString := "Error: Error Code: InvalidFeeTier." |})))).
    reflexivity.
Defined.

Lemma parseMessage_nonempty (errorMessage : string) :
  errorMessage <> EmptyString -> parseMessage errorMessage <> EmptyString.
Proof.
  intros Hne Heq.
  assert (H : negb (String.eqb (parseMessage errorMessage) EmptyString) = true).
  { apply (parseMessage_answers (fun s => negb (String.eqb s EmptyString))).
    - vm_compute. reflexivity.
    - vm_compute. reflexivity.
    - intros _. destruct (String.eqb_spec errorMessage EmptyString); [contradiction | reflexivity]. }
  rewrite Heq in H. discriminate H.
Qed.

(** X26: the fallback message is hardly ever used.  [handleTransactionError]
    shows exactly one toast, with the text it returns, and that text is
    never empty.  When nothing was thrown, and whenever the payload has a
    message or a [toString()] that is not empty (every [Error] object has),
    the text is the answer of [parseProgramError] and the caller's
    [fallbackMessage] is ignored. *)
Theorem handleTransactionError_ignores_the_fallback :
  forall (error : option JsError) (fallbackMessage : option string),
    (exists shown : string,
        handleTransactionError error fallbackMessage
          = ([ConsoleError "Transaction error:"; ToastError shown], shown) /\
        shown <> EmptyString) /\
    (match error with
     | Some e => errorMessageOf e <> EmptyString
     | None => True
     end ->
     handleTransactionError error fallbackMessage
       = ([ConsoleError "Transaction error:"; ToastError (parseProgramError error)],
          parseProgramError error)).
Proof.
  intros error fallbackMessage. split.
  - unfold handleTransactionError, orFallback, orDefault. cbv zeta.
    eexists; split; [reflexivity | ].
    destruct (String.eqb_spec (parseProgramError error) EmptyString) as [Hempty | Hne].
    + destruct fallbackMessage as [f | ].
      * destruct (String.eqb_spec f EmptyString) as [Hf | Hf]; [discriminate | exact Hf].
      * discriminate.
    + destruct (String.eqb_spec (parseProgramError error) EmptyString) as [H | _];
        [contradiction | exact Hne].
  - intros Hmsg.
    assert (Hne : parseProgramError error <> EmptyString).
    { destruct error as [e | ]; cbn [parseProgramError].
      - apply parseMessage_nonempty, Hmsg.
      - discriminate. }
    unfold handleTransactionError, orFallback, orDefault. cbv zeta.
    destruct (String.eqb_spec (parseProgramError error) EmptyString) as [H | _];
      [contradiction | ].
    destruct (String.eqb_spec (parseProgramError error) EmptyString) as [H | _];
      [contradiction | ].
    reflexivity.
Qed.

Lemma handleTransactionError_ignores_the_fallback_witness :
  handleTransactionError (Some rejectedError) (Some "Failed to buy tokens")
    = ([ConsoleError "Transaction error:"; ToastError "Transaction cancelled"],
       "Transaction cancelled").
Proof.
  apply (proj2 (handleTransactionError_ignores_the_fallback
                  (Some rejectedError) (Some "Failed to buy tokens"))).
  discriminate.
Defined.

End MessageFacts.

(* ===================================================================== *)
(** * Token ordering *)
(* ===================================================================== *)

Module OrderFacts.

Import TokenOrder.

Lemma to_N_injective (x y : Byte.byte) : Byte.to_N x = Byte.to_N y -> x = y.
Proof.
  intros H.
  pose proof (Byte.of_to_N x) as Hx. pose proof (Byte.of_to_N y) as Hy.
  rewrite H in Hx. congruence.
Qed.

Lemma Buffer_compare_antisym (a b : list Byte.byte) :
  Buffer_compare b a = - Buffer_compare a b.
Proof.
  revert b. induction a as [ | x a IH]; intros [ | y b]; cbn [Buffer_compare];
    try reflexivity.
  rewrite (N.compare_antisym (Byte.to_N x) (Byte.to_N y)).
  destruct (N.compare (Byte.to_N x) (Byte.to_N y)); cbn [CompOpp];
    [apply IH | reflexivity | reflexivity].
Qed.

Lemma Buffer_compare_eq (a b : list Byte.byte) :
  Buffer_compare a b = 0 -> a = b.
Proof.
  revert b. induction a as [ | x a IH]; intros [ | y b]; cbn [Buffer_compare];
    try discriminate; [reflexivity | ].
  destruct (N.compare (Byte.to_N x) (Byte.to_N y)) eqn:Hc; try discriminate.
  intros H. apply N.compare_eq in Hc. apply to_N_injective in Hc.
  rewrite Hc, (IH b H). reflexivity.
Qed.

Lemma Buffer_compare_refl (a : list Byte.byte) : Buffer_compare a a = 0.
Proof.
  induction a as [ | x a IH]; cbn [Buffer_compare]; [reflexivity | ].
  rewrite N.compare_refl. exact IH.
Qed.

(** X27: the token order does not depend on the order of the arguments.
    [getTokenOrder] returns its two mints, the smaller one in byte order as
    [token0]; for two different mints, swapping the arguments gives the
    same [token0] and [token1], and flips [isFirstToken0].  For twice the
    same mint [isFirstToken0] is false. *)
Theorem getTokenOrder_is_canonical :
  forall mintA mintB : PublicKey,
    let order := getTokenOrder mintA mintB in
    (mintA <> mintB ->
     token0 (getTokenOrder mintB mintA) = token0 order /\
     token1 (getTokenOrder mintB mintA) = token1 order /\
     isFirstToken0 (getTokenOrder mintB mintA) = negb (isFirstToken0 order) /\
     Buffer_compare (token0 order) (token1 order) < 0) /\
    (mintA = mintB -> isFirstToken0 order = false) /\
    (isFirstToken0 order = true -> token0 order = mintA /\ token1 order = mintB) /\
    (isFirstToken0 order = false -> token0 order = mintB /\ token1 order = mintA).
Proof.
  intros mintA mintB. cbv zeta. unfold getTokenOrder.
  pose proof (Buffer_compare_antisym mintA mintB) as Hanti.
  split; [ | split; [ | split]].
  - intros Hne.
    assert (Hnz : Buffer_compare mintA mintB <> 0).
    { intros H. apply Hne. apply Buffer_compare_eq. exact H. }
    rewrite Hanti.
    destruct (Buffer_compare mintA mintB <? 0) eqn:Hlt.
    + apply Z.ltb_lt in Hlt.
      assert (Hgt : (- Buffer_compare mintA mintB <? 0) = false)
        by (apply Z.ltb_ge; lia).
      rewrite Hgt. cbn [token0 token1 isFirstToken0 negb]. repeat split. exact Hlt.
    + apply Z.ltb_ge in Hlt.
      assert (Hgt : (- Buffer_compare mintA mintB <? 0) = true)
        by (apply Z.ltb_lt; lia).
      rewrite Hgt. cbn [token0 token1 isFirstToken0 negb]. repeat split.
      rewrite Hanti. lia.
  - intros ->. rewrite Buffer_compare_refl. reflexivity.
  - destruct (Buffer_compare mintA mintB <? 0); cbn [token0 token1 isFirstToken0];
      [split; reflexivity | discriminate].
  - destruct (Buffer_compare mintA mintB <? 0); cbn [token0 token1 isFirstToken0];
      [discriminate | split; reflexivity].
Qed.

Lemma getTokenOrder_is_canonical_witness :
  token0 (getTokenOrder Mints.mintTwo Mints.mintOne)
    = token0 (getTokenOrder Mints.mintOne Mints.mintTwo) /\
  token1 (getTokenOrder Mints.mintTwo Mints.mintOne)
    = token1 (getTokenOrder Mints.mintOne Mints.mintTwo) /\
  isFirstToken0 (getTokenOrder Mints.mintTwo Mints.mintOne)
    = negb (isFirstToken0 (getTokenOrder Mints.mintOne Mints.mintTwo)) /\
  Buffer_compare (token0 (getTokenOrder Mints.mintOne Mints.mintTwo))
                 (token1 (getTokenOrder Mints.mintOne Mints.mintTwo)) < 0.
Proof.
  apply (proj1 (getTokenOrder_is_canonical Mints.mintOne Mints.mintTwo)).
  discriminate.
Defined.

End OrderFacts.
